(** * SimpleLight emulator back ends: sector store and in-memory filesystem

    A shallow embedding of [src/fakedriver/sd_card.c] (the block device
    served from an embedded disk image) and of the in-memory FAT-style
    filesystem (mount, open, read, readdir, unlink and the cluster helpers),
    with the properties the specification states about them. *)

From Stdlib Require Import ZArith Lia Ascii.
From Stdlib Require Import Strings.Byte.
From stdpp Require Import base list strings.

Local Open Scope Z_scope.

(** ** Machine integers

    [u8], [u16] and [u32] values are integers, the wrap-around of the C
    arithmetic is written out where the source computes. *)

Definition u16 (z : Z) : Z := z mod 65536.
Definition u32 (z : Z) : Z := z mod 4294967296.

#[global] Arguments u16 : simpl never.
#[global] Arguments u32 : simpl never.

Definition is_u16 (z : Z) : Prop := 0 <= z < 65536.
Definition is_u32 (z : Z) : Prop := 0 <= z < 4294967296.

(** [memcpy (dst, src, n)]: the first [n] bytes of [dst] are replaced by the
    first [n] bytes of [src]. *)
Definition memcpy {A} (dst src : list A) (n : Z) : list A :=
  take (Z.to_nat n) src ++ drop (Z.to_nat n) dst.

(** [memcpy (dst + off, src, n)]. *)
Definition memcpy_at {A} (dst : list A) (off : Z) (src : list A) (n : Z) : list A :=
  take (Z.to_nat off) dst ++ memcpy (drop (Z.to_nat off) dst) src n.

(** The [n] bytes at [buf + off]. *)
Definition bytes_at {A} (buf : list A) (off n : Z) : list A :=
  take (Z.to_nat n) (drop (Z.to_nat off) buf).

(** * The sector store ([sd_card.c]) *)

Module SD.

(** Modelled from the spec: [diskio.h] is not among the sources; the status
    vocabulary of the block-device contract is FatFs's [DRESULT].  The spec's
    [InvalidArgument] and [OutOfRange] are both [RES_PARERR] in the code, its
    [Error] and [CapacityExceeded] are both [RES_ERROR]. *)
Inductive DRESULT := RES_OK | RES_ERROR | RES_WRPRT | RES_NOTRDY | RES_PARERR.

#[global] Instance DRESULT_eq_dec : EqDecision DRESULT.
Proof. solve_decision. Defined.

Definition InvalidArgument : DRESULT := RES_PARERR.
Definition OutOfRange : DRESULT := RES_PARERR.
Definition CapacityExceeded : DRESULT := RES_ERROR.

Definition SECTOR_SIZE : Z := 512.
Definition MAX_OVERLAY_SECTORS : Z := 256.

(** The file-scope variables of the driver.  [g_img_ram] is [None] for the
    null pointer and otherwise holds the bytes of the allocated copy; the two
    overlay arrays are lists of [MAX_OVERLAY_SECTORS] entries. *)
Record sd_state := mk_sd {
  g_img_ram : option (list byte);
  g_img_size : Z;
  g_sector_count : Z;
  g_sd_ready : bool;
  overlay_sector_id : list Z;
  overlay_sector_data : list (list byte);
  overlay_used_count : Z
}.

Definition store_ids (ids : list Z) (st : sd_state) : sd_state :=
  mk_sd (g_img_ram st) (g_img_size st) (g_sector_count st) (g_sd_ready st)
        ids (overlay_sector_data st) (overlay_used_count st).
Definition store_data (d : list (list byte)) (st : sd_state) : sd_state :=
  mk_sd (g_img_ram st) (g_img_size st) (g_sector_count st) (g_sd_ready st)
        (overlay_sector_id st) d (overlay_used_count st).
Definition store_used (n : Z) (st : sd_state) : sd_state :=
  mk_sd (g_img_ram st) (g_img_size st) (g_sector_count st) (g_sd_ready st)
        (overlay_sector_id st) (overlay_sector_data st) n.
Definition store_ram (r : option (list byte)) (st : sd_state) : sd_state :=
  mk_sd r (g_img_size st) (g_sector_count st) (g_sd_ready st)
        (overlay_sector_id st) (overlay_sector_data st) (overlay_used_count st).

(** The zero-initialised variables at program start. *)
Definition sd_boot : sd_state :=
  mk_sd None 0 0 false
        (replicate (Z.to_nat MAX_OVERLAY_SECTORS) 0)
        (replicate (Z.to_nat MAX_OVERLAY_SECTORS) (replicate (Z.to_nat SECTOR_SIZE) x00))
        0.

(** [for (i = 0; i < MAX_OVERLAY_SECTORS; ++i) if (ids[i] == key) return i;
    return 0xFFFF;] over the array [ids], [i] being the index of its head. *)
Fixpoint scan_ids (ids : list Z) (i : Z) (key : Z) : Z :=
  match ids with
  | [] => 65535
  | x :: rest => if x =? key then u16 i else scan_ids rest (i + 1) key
  end.

Section Store.

(** The embedded image of [disk_bin.h], which is not among the sources: the
    read-only bytes by offset, whether the symbol is null, and its size.  One
    allocation is attempted per session; [malloc_ok] says whether it
    succeeds. *)
Variable disk_bin : Z -> byte.
Variable disk_bin_null : bool.
Variable disk_bin_size : Z.
Variable malloc_ok : bool.

(** The [n] bytes at [disk_bin + off]. *)
Definition disk_bytes (off n : Z) : list byte :=
  map (fun k => disk_bin (off + Z.of_nat k)) (seq 0 (Z.to_nat n)).

Definition overlay_init (st : sd_state) : sd_state :=
  store_used 0 (store_ids (replicate (Z.to_nat MAX_OVERLAY_SECTORS) 65535) st).

Definition overlay_find (st : sd_state) (sector : Z) : Z :=
  scan_ids (overlay_sector_id st) 0 (u16 sector).

Definition overlay_get_or_create (st : sd_state) (sector : Z) : Z * sd_state :=
  let idx := overlay_find st sector in
  if negb (idx =? 65535) then (idx, st)
  else
    let idx := scan_ids (overlay_sector_id st) 0 65535 in
    if negb (idx =? 65535) then
      let st1 := store_ids (<[Z.to_nat idx := u16 sector]> (overlay_sector_id st)) st in
      let st2 := store_data (<[Z.to_nat idx :=
                              disk_bytes (u32 (sector * SECTOR_SIZE)) SECTOR_SIZE]>
                             (overlay_sector_data st1)) st1 in
      (idx, store_used (u16 (overlay_used_count st2 + 1)) st2)
    else (65535, st).

Definition ensure_sd_open (st : sd_state) : bool * sd_state :=
  if g_sd_ready st then (true, st)
  else if disk_bin_null || (disk_bin_size <=? 0) then (false, st)
  else
    let size := u32 disk_bin_size in
    let usable := u32 (size - size mod SECTOR_SIZE) in
    let count := usable / SECTOR_SIZE in
    let st1 := mk_sd (g_img_ram st) size count (g_sd_ready st)
                     (overlay_sector_id st) (overlay_sector_data st)
                     (overlay_used_count st) in
    let st2 := if malloc_ok
               then store_ram (Some (disk_bytes 0 usable)) st1
               else overlay_init (store_ram None st1) in
    (true, mk_sd (g_img_ram st2) (g_img_size st2) (g_sector_count st2) true
                 (overlay_sector_id st2) (overlay_sector_data st2)
                 (overlay_used_count st2)).

(** The payload of one sector as the overlay path of [Read_SD_sectors]
    resolves it. *)
Definition read_sector (st : sd_state) (sector : Z) : list byte :=
  let idx := overlay_find st sector in
  if negb (idx =? 65535)
  then default [] (overlay_sector_data st !! Z.to_nat idx)
  else disk_bytes (u32 (sector * SECTOR_SIZE)) SECTOR_SIZE.

(** The loop of the overlay path of [Read_SD_sectors]: [n] iterations left,
    the bytes are what ends up at [dst] onwards. *)
Fixpoint read_loop (n : nat) (sector : Z) (st : sd_state) : list byte :=
  match n with
  | O => []
  | S n' => read_sector st sector ++ read_loop n' (u32 (sector + 1)) st
  end.

Definition Read_SD_sectors (st : sd_state) (address count : Z)
    (SDbuffer : option (list byte)) : DRESULT * sd_state * option (list byte) :=
  let '(ok, st) := ensure_sd_open st in
  match SDbuffer with
  | Some dst =>
    if negb ok then (RES_ERROR, st, SDbuffer)
    else if count =? 0 then (RES_PARERR, st, SDbuffer)
    else if address >=? g_sector_count st then (RES_PARERR, st, SDbuffer)
    else if count >? u32 (g_sector_count st - address) then (RES_PARERR, st, SDbuffer)
    else
      match g_img_ram st with
      | Some ram =>
        let n := count * SECTOR_SIZE in
        (RES_OK, st,
         Some (memcpy dst (drop (Z.to_nat (u32 (address * SECTOR_SIZE))) ram) n))
      | None =>
        (RES_OK, st,
         Some (memcpy dst (read_loop (Z.to_nat count) address st) (count * SECTOR_SIZE)))
      end
  | None => (RES_ERROR, st, SDbuffer)
  end.

(** The loop of the overlay path of [Write_SD_sectors]: [n] iterations left,
    [src] is what remains of the caller's buffer. *)
Fixpoint write_loop (n : nat) (sector : Z) (src : list byte) (st : sd_state)
    : DRESULT * sd_state :=
  match n with
  | O => (RES_OK, st)
  | S n' =>
    let '(idx, st) := overlay_get_or_create st sector in
    if idx =? 65535 then (RES_ERROR, st)
    else
      let st := store_data (<[Z.to_nat idx := take (Z.to_nat SECTOR_SIZE) src]>
                            (overlay_sector_data st)) st in
      write_loop n' (u32 (sector + 1)) (drop (Z.to_nat SECTOR_SIZE) src) st
  end.

Definition Write_SD_sectors (st : sd_state) (address count : Z)
    (SDbuffer : option (list byte)) : DRESULT * sd_state :=
  let '(ok, st) := ensure_sd_open st in
  match SDbuffer with
  | Some src =>
    if negb ok then (RES_ERROR, st)
    else if count =? 0 then (RES_PARERR, st)
    else if address >=? g_sector_count st then (RES_PARERR, st)
    else if count >? u32 (g_sector_count st - address) then (RES_PARERR, st)
    else
      match g_img_ram st with
      | Some ram =>
        (RES_OK,
         store_ram (Some (memcpy_at ram (u32 (address * SECTOR_SIZE)) src
                                  (count * SECTOR_SIZE))) st)
      | None => write_loop (Z.to_nat count) address src st
      end
  | None => (RES_ERROR, st)
  end.

End Store.

End SD.

(** * The earlier driver without an overlay

    The first version of the fake SD driver (kept in the repository beside
    [sd_card.c]): the same validation, but when the copy cannot be allocated
    reads go to the image and writes are dropped. *)

Module SDOld.
Import SD.

Section Store.
Variable disk_bin : Z -> byte.
Variable disk_bin_null : bool.
Variable disk_bin_size : Z.
Variable malloc_ok : bool.

Definition ensure_sd_open (st : sd_state) : bool * sd_state :=
  if g_sd_ready st then (true, st)
  else if disk_bin_null || (disk_bin_size <=? 0) then (false, st)
  else
    let size := u32 disk_bin_size in
    let usable := u32 (size - size mod SECTOR_SIZE) in
    let count := usable / SECTOR_SIZE in
    let st1 := mk_sd (g_img_ram st) size count (g_sd_ready st)
                     (overlay_sector_id st) (overlay_sector_data st)
                     (overlay_used_count st) in
    let st2 := if malloc_ok
               then store_ram (Some (disk_bytes disk_bin 0 usable)) st1
               else store_ram None st1 in
    (true, mk_sd (g_img_ram st2) (g_img_size st2) (g_sector_count st2) true
                 (overlay_sector_id st2) (overlay_sector_data st2)
                 (overlay_used_count st2)).

Definition Read_SD_sectors (st : sd_state) (address count : Z)
    (SDbuffer : option (list byte)) : DRESULT * sd_state * option (list byte) :=
  let '(ok, st) := ensure_sd_open st in
  match SDbuffer with
  | Some dst =>
    if negb ok then (RES_ERROR, st, SDbuffer)
    else if count =? 0 then (RES_PARERR, st, SDbuffer)
    else if address >=? g_sector_count st then (RES_PARERR, st, SDbuffer)
    else if count >? u32 (g_sector_count st - address) then (RES_PARERR, st, SDbuffer)
    else
      let base := match g_img_ram st with
                  | Some ram => drop (Z.to_nat (u32 (address * SECTOR_SIZE))) ram
                  | None => disk_bytes disk_bin (u32 (address * SECTOR_SIZE))
                                       (count * SECTOR_SIZE)
                  end in
      (RES_OK, st, Some (memcpy dst base (count * SECTOR_SIZE)))
  | None => (RES_ERROR, st, SDbuffer)
  end.

Definition Write_SD_sectors (st : sd_state) (address count : Z)
    (SDbuffer : option (list byte)) : DRESULT * sd_state :=
  let '(ok, st) := ensure_sd_open st in
  match SDbuffer with
  | Some src =>
    if negb ok then (RES_ERROR, st)
    else if count =? 0 then (RES_PARERR, st)
    else if address >=? g_sector_count st then (RES_PARERR, st)
    else if count >? u32 (g_sector_count st - address) then (RES_PARERR, st)
    else
      match g_img_ram st with
      | Some ram =>
        (RES_OK,
         store_ram (Some (memcpy_at ram (u32 (address * SECTOR_SIZE)) src
                                    (count * SECTOR_SIZE))) st)
      | None => (RES_OK, st)
      end
  | None => (RES_ERROR, st)
  end.

End Store.

End SDOld.

(** * The disk I/O glue ([diskio.c]) *)

Module DiskIO.
Import SD.

Section Glue.
Variable disk_bin : Z -> byte.
Variable disk_bin_null : bool.
Variable disk_bin_size : Z.
Variable malloc_ok : bool.

(** [disk_read] and [disk_write] pass [sector] and [count] on; the callee
    takes a [u32] and a [u16], so the arguments are converted. *)
Definition disk_read (st : sd_state) (pdrv : Z) (buff : option (list byte))
    (sector count : Z) : DRESULT * sd_state * option (list byte) :=
  Read_SD_sectors disk_bin disk_bin_null disk_bin_size malloc_ok
                  st (u32 sector) (u16 count) buff.

Definition disk_write (st : sd_state) (pdrv : Z) (buff : option (list byte))
    (sector count : Z) : DRESULT * sd_state :=
  Write_SD_sectors disk_bin disk_bin_null disk_bin_size malloc_ok
                   st (u32 sector) (u16 count) buff.

End Glue.

End DiskIO.


(** * The in-memory filesystem *)

Module FS.

(** ** Results of partial steps

    A C function has no defined result when it dereferences a null pointer
    or a pointer outside the node pool, divides by zero, copies outside a
    buffer, or walks a sibling list that never ends.  [Undefined] stands for
    all of these; everything else is [Done]. *)
Inductive run (A : Type) : Type :=
  | Done (a : A)
  | Undefined.
Arguments Done {A} a.
Arguments Undefined {A}.

#[global] Instance run_ret : MRet run := @Done.
#[global] Instance run_bind : MBind run := fun A B k m =>
  match m with
  | Done a => k a
  | Undefined => Undefined
  end.

(** ** C strings *)

Definition NUL : ascii := Ascii.zero.
Definition SLASH : ascii := "/"%char.

(** The string a [char] buffer denotes: what precedes the first NUL. *)
Fixpoint cstr (s : string) : string :=
  match s with
  | EmptyString => EmptyString
  | String c r => if Ascii.eqb c NUL then EmptyString else String c (cstr r)
  end.

Fixpoint str_take (n : nat) (s : string) : string :=
  match n, s with
  | S n', String c r => String c (str_take n' r)
  | _, _ => EmptyString
  end.

Fixpoint str_drop (n : nat) (s : string) : string :=
  match n, s with
  | S n', String _ r => str_drop n' r
  | _, _ => s
  end.

(** [strncpy (dst, src, n)] into a zeroed buffer of more than [n] bytes. *)
Definition strncpy (src : string) (n : nat) : string := str_take n src.

Definition tolower (c : ascii) : ascii :=
  let n := nat_of_ascii c in
  if ((65 <=? n) && (n <=? 90))%nat then ascii_of_nat (n + 32) else c.

Fixpoint str_lower (s : string) : string :=
  match s with
  | EmptyString => EmptyString
  | String c r => String (tolower c) (str_lower r)
  end.

(** [strcasecmp (a, b) == 0] *)
Definition strcasecmp_eq (a b : string) : bool :=
  String.eqb (str_lower a) (str_lower b).

(** [strrchr (s, '/')] as the offset of the last slash. *)
Fixpoint strrchr_slash (s : string) : option nat :=
  match s with
  | EmptyString => None
  | String c r =>
    match strrchr_slash r with
    | Some i => Some (S i)
    | None => if Ascii.eqb c SLASH then Some O else None
    end
  end.

(** ** Data model *)

(** Modelled from the spec: [ff.h] is not among the sources; the result
    vocabulary of the filesystem contract, FatFs's [FRESULT] names as the
    source uses them. *)
Inductive FRESULT :=
  | FR_OK | FR_INT_ERR | FR_NOT_READY | FR_NO_FILE | FR_NO_PATH | FR_DENIED
  | FR_EXIST | FR_INVALID_OBJECT | FR_INVALID_PARAMETER.

Definition NotFound : FRESULT := FR_NO_FILE.
Definition AlreadyExists : FRESULT := FR_EXIST.
Definition InvalidObject : FRESULT := FR_INVALID_OBJECT.
Definition Denied : FRESULT := FR_DENIED.

(** Modelled from the spec: [ff.h] is not among the sources; the open-mode
    and attribute bits are FatFs's. *)
Definition FA_READ : Z := 1.
Definition FA_WRITE : Z := 2.
Definition FA_CREATE_NEW : Z := 4.
Definition FA_CREATE_ALWAYS : Z := 8.
Definition FA_OPEN_ALWAYS : Z := 16.
Definition AM_DIR : Z := 16.
Definition AM_ARC : Z := 32.
Definition FS_FAT16 : Z := 2.

Definition FS_MAX_NODES : nat := 64.

(** A test [x & mask] of C. *)
Definition has_bits (x mask : Z) : bool := negb (Z.land x mask =? 0).

(** [struct FsNode]; a pointer to a node is its index in [g_node_pool],
    [None] is the null pointer, file content is the bytes of the allocation
    [data] points to. *)
Record FsNode := mk_node {
  name : string;
  attr : Z;
  parent : option nat;
  firstChild : option nat;
  nextSibling : option nat;
  data : option (list byte);
  size : Z;
  startCluster : Z
}.

Definition zero_node : FsNode := mk_node EmptyString 0 None None None None 0 0.

Definition set_parent (p : option nat) (n : FsNode) : FsNode :=
  mk_node (name n) (attr n) p (firstChild n) (nextSibling n) (data n) (size n)
          (startCluster n).
Definition set_firstChild (c : option nat) (n : FsNode) : FsNode :=
  mk_node (name n) (attr n) (parent n) c (nextSibling n) (data n) (size n)
          (startCluster n).
Definition set_nextSibling (s : option nat) (n : FsNode) : FsNode :=
  mk_node (name n) (attr n) (parent n) (firstChild n) s (data n) (size n)
          (startCluster n).
Definition set_size (z : Z) (n : FsNode) : FsNode :=
  mk_node (name n) (attr n) (parent n) (firstChild n) (nextSibling n) (data n) z
          (startCluster n).
Definition set_data (d : option (list byte)) (n : FsNode) : FsNode :=
  mk_node (name n) (attr n) (parent n) (firstChild n) (nextSibling n) d (size n)
          (startCluster n).
Definition set_startCluster (c : Z) (n : FsNode) : FsNode :=
  mk_node (name n) (attr n) (parent n) (firstChild n) (nextSibling n) (data n)
          (size n) c.

(** The fields of [FATFS] the emulator sets. *)
Record FATFS := mk_fatfs {
  fs_type : Z;
  csize : Z;
  id : Z;
  n_fatent : Z;
  database : Z
}.

(** [FFOBJID] and [FIL]; [dir_ptr] holds the back-pointer to the node. *)
Record FFOBJID := mk_obj {
  obj_fs : option FATFS;
  obj_id : Z;
  obj_attr : Z;
  sclust : Z;
  objsize : Z
}.

Record FIL := mk_fil {
  obj : FFOBJID;
  flag : Z;
  err : FRESULT;
  fptr : Z;
  clust : Z;
  sect : Z;
  dir_ptr : option nat
}.

Definition zero_FIL : FIL := mk_fil (mk_obj None 0 0 0 0) 0 FR_OK 0 0 0 None.

Definition set_fptr (z : Z) (f : FIL) : FIL :=
  mk_fil (obj f) (flag f) (err f) z (clust f) (sect f) (dir_ptr f).

(** [DIR]: the pointer [dir], 0 when closed. *)
Record DIR := mk_dir { dir : Z }.

Record FILINFO := mk_filinfo {
  fname : string;
  fattrib : Z;
  fsize : Z
}.

(** The file-scope variables. *)
Record fs_state := mk_fs {
  g_fs : option FATFS;
  g_root : option nat;
  g_cwd : option nat;
  g_nextCluster : Z;
  g_mounted : bool;
  g_node_pool : list FsNode;
  g_node_used : nat;
  g_iter_dir : option nat;
  g_iter_next : option nat
}.

Definition with_pool (p : list FsNode) (st : fs_state) : fs_state :=
  mk_fs (g_fs st) (g_root st) (g_cwd st) (g_nextCluster st) (g_mounted st) p
        (g_node_used st) (g_iter_dir st) (g_iter_next st).
Definition with_used (n : nat) (st : fs_state) : fs_state :=
  mk_fs (g_fs st) (g_root st) (g_cwd st) (g_nextCluster st) (g_mounted st)
        (g_node_pool st) n (g_iter_dir st) (g_iter_next st).
Definition with_nextCluster (c : Z) (st : fs_state) : fs_state :=
  mk_fs (g_fs st) (g_root st) (g_cwd st) c (g_mounted st) (g_node_pool st)
        (g_node_used st) (g_iter_dir st) (g_iter_next st).
Definition with_root (r : option nat) (st : fs_state) : fs_state :=
  mk_fs (g_fs st) r (g_cwd st) (g_nextCluster st) (g_mounted st) (g_node_pool st)
        (g_node_used st) (g_iter_dir st) (g_iter_next st).
Definition with_cwd (c : option nat) (st : fs_state) : fs_state :=
  mk_fs (g_fs st) (g_root st) c (g_nextCluster st) (g_mounted st) (g_node_pool st)
        (g_node_used st) (g_iter_dir st) (g_iter_next st).
Definition with_iter (d nx : option nat) (st : fs_state) : fs_state :=
  mk_fs (g_fs st) (g_root st) (g_cwd st) (g_nextCluster st) (g_mounted st)
        (g_node_pool st) (g_node_used st) d nx.

(** The zero-initialised variables at program start. *)
Definition fs_boot : fs_state :=
  mk_fs None None None 2 false (replicate FS_MAX_NODES zero_node) O None None.

(** [*p] for a node pointer [p]. *)
Definition deref (st : fs_state) (p : option nat) : run FsNode :=
  match p with
  | Some i =>
    match g_node_pool st !! i with
    | Some n => Done n
    | None => Undefined
    end
  | None => Undefined
  end.

(** An assignment through the node pointer [i]. *)
Definition update (i : nat) (f : FsNode -> FsNode) (st : fs_state) : run fs_state :=
  match g_node_pool st !! i with
  | Some n => Done (with_pool (<[i := f n]> (g_node_pool st)) st)
  | None => Undefined
  end.

Definition update_ptr (p : option nat) (f : FsNode -> FsNode) (st : fs_state)
    : run fs_state :=
  match p with
  | Some i => update i f st
  | None => Undefined
  end.

(** A walk along [nextSibling] visits each node of the pool at most once
    unless the list is cyclic, so one step more than the pool has nodes is
    all a terminating walk needs. *)
Definition walk_fuel (st : fs_state) : nat := S (length (g_node_pool st)).

(** ** Node pool *)

Definition name_empty (n : FsNode) : bool :=
  match name n with
  | EmptyString => true
  | String c _ => Ascii.eqb c NUL
  end.

Definition is_free (n : FsNode) : bool := name_empty n && (attr n =? 0).

(** [for (i = 0; i < g_node_used; ++i)] of [fs_alloc_node], over the slots
    from index [i] on, [used] of them left to look at. *)
Fixpoint scan_free (pool : list FsNode) (i used : nat) : option nat :=
  match pool, used with
  | n :: rest, S used' => if is_free n then Some i else scan_free rest (S i) used'
  | _, _ => None
  end.

Definition fs_alloc_node (st : fs_state) : option nat * fs_state :=
  match scan_free (g_node_pool st) 0 (g_node_used st) with
  | Some i => (Some i, with_pool (<[i := zero_node]> (g_node_pool st)) st)
  | None =>
    if (FS_MAX_NODES <=? g_node_used st)%nat then (None, st)
    else
      let i := g_node_used st in
      (Some i, with_pool (<[i := zero_node]> (g_node_pool st)) (with_used (S i) st))
  end.

Definition fs_new_node (st : fs_state) (nm : string) (a : Z) : option nat * fs_state :=
  let '(n, st) := fs_alloc_node st in
  match n with
  | None => (None, st)
  | Some i =>
    (Some i,
     with_pool (<[i := mk_node (strncpy nm 99) a None None None None 0 2]>
                  (g_node_pool st)) st)
  end.

(** [while (it->nextSibling) it = it->nextSibling;] *)
Fixpoint last_sibling (fuel : nat) (st : fs_state) (it : nat) : run nat :=
  match fuel with
  | O => Undefined
  | S fuel' =>
    n ← deref st (Some it);
    match nextSibling n with
    | None => Done it
    | Some j => last_sibling fuel' st j
    end
  end.

Definition fs_add_child (st : fs_state) (d child : option nat) : run fs_state :=
  match d, child with
  | Some di, Some c =>
    st ← update c (set_parent (Some di)) st;
    st ← update c (set_nextSibling None) st;
    dn ← deref st d;
    match firstChild dn with
    | None => update di (set_firstChild (Some c)) st
    | Some f =>
      l ← last_sibling (walk_fuel st) st f;
      update l (set_nextSibling (Some c)) st
    end
  | _, _ => Done st
  end.

(** [for (it = ...; it; it = it->nextSibling) if (strcasecmp (...) == 0)
    return it;] *)
Fixpoint find_loop (fuel : nat) (st : fs_state) (it : option nat) (nm : string)
    : run (option nat) :=
  match it with
  | None => Done None
  | Some i =>
    match fuel with
    | O => Undefined
    | S fuel' =>
      n ← deref st it;
      if strcasecmp_eq (name n) nm then Done (Some i)
      else find_loop fuel' st (nextSibling n) nm
    end
  end.

Definition fs_find_child (st : fs_state) (d : option nat) (nm : string)
    : run (option nat) :=
  match d with
  | None => Done None
  | Some _ =>
    dn ← deref st d;
    if negb (has_bits (attr dn) AM_DIR) then Done None
    else find_loop (walk_fuel st) st (firstChild dn) nm
  end.

(** ** Path resolution *)

(** One segment of [fs_resolve], from the node [cur]. *)
Definition resolve_seg (st : fs_state) (cur : nat) (seg : string) : run (option nat) :=
  if String.eqb seg "." then Done (Some cur)
  else if String.eqb seg ".." then
    n ← deref st (Some cur);
    Done (Some (match parent n with Some p => p | None => cur end))
  else fs_find_child st (Some cur) seg.

(** The loop of [fs_resolve], one character of the path at a time: [seg] is
    what the segment buffer holds so far.  The buffer takes 255 characters; a
    longer run of characters goes on as the next segment.  The flag
    [is_dir_slash_end] is left out: no caller reads it. *)
Fixpoint resolve_walk (st : fs_state) (p : string) (seg : string) (cur : nat)
    : run (option nat) :=
  match p with
  | EmptyString =>
    if String.eqb seg "" then Done (Some cur) else resolve_seg st cur seg
  | String c rest =>
    if Ascii.eqb c SLASH then
      if String.eqb seg "" then resolve_walk st rest "" cur
      else
        r ← resolve_seg st cur seg;
        match r with
        | None => Done None
        | Some cur' => resolve_walk st rest "" cur'
        end
    else if (String.length seg =? 255)%nat then
      r ← resolve_seg st cur seg;
      match r with
      | None => Done None
      | Some cur' => resolve_walk st rest (String c "") cur'
      end
    else resolve_walk st rest (seg +:+ String c "") cur
  end.

Definition fs_resolve (st : fs_state) (path : string) : run (option nat) :=
  let path := cstr path in
  match g_root st with
  | None => Done None
  | Some root =>
    let here := match g_cwd st with Some c => c | None => root end in
    match path with
    | EmptyString => Done (Some here)
    | String c rest =>
      if Ascii.eqb c SLASH then resolve_walk st rest "" root
      else resolve_walk st path "" here
    end
  end.

(** One segment of [fs_ensure_dir]; [cur] is null once a node could not be
    allocated. *)
Definition ensure_seg (st : fs_state) (cur : option nat) (seg : string)
    : run (option nat * fs_state) :=
  if String.eqb seg "." then Done (cur, st)
  else if String.eqb seg ".." then
    n ← deref st cur;
    Done (match parent n with Some p => Some p | None => cur end, st)
  else
    nxt ← fs_find_child st cur seg;
    match nxt with
    | Some _ => Done (nxt, st)
    | None =>
      let '(nxt, st) := fs_new_node st seg AM_DIR in
      st ← fs_add_child st cur nxt;
      Done (nxt, st)
    end.

Fixpoint ensure_walk (st : fs_state) (p : string) (seg : string) (cur : option nat)
    : run (option nat * fs_state) :=
  match p with
  | EmptyString =>
    if String.eqb seg "" then Done (cur, st) else ensure_seg st cur seg
  | String c rest =>
    if Ascii.eqb c SLASH then
      if String.eqb seg "" then ensure_walk st rest "" cur
      else
        '(cur, st) ← ensure_seg st cur seg;
        ensure_walk st rest "" cur
    else if (String.length seg =? 255)%nat then
      '(cur, st) ← ensure_seg st cur seg;
      ensure_walk st rest (String c "") cur
    else ensure_walk st rest (seg +:+ String c "") cur
  end.

Definition fs_ensure_dir (st : fs_state) (path : string) : run (option nat * fs_state) :=
  let path := cstr path in
  match g_root st with
  | None => Done (None, st)
  | Some root =>
    let here := match g_cwd st with Some c => c | None => root end in
    match path with
    | EmptyString => Done (Some root, st)
    | String c rest =>
      if Ascii.eqb c SLASH then ensure_walk st rest "" (Some root)
      else ensure_walk st path "" (Some here)
    end
  end.

(** ** The file API *)

Section Api.

(** Two widths come from [ff.h] and [ffconf.h], which are not among the
    sources: [FSIZE_BITS], the bits of [FSIZE_t] (32, or 64 with exFAT), and
    [FNAME_LEN], [sizeof (fno->fname) - 1]. *)
Variable FSIZE_BITS : Z.
Variable FNAME_LEN : nat.

Definition fsize_t (z : Z) : Z := z mod 2 ^ FSIZE_BITS.

(** The cluster count both [fs_assign_clusters] and [Get_NextCluster]
    compute: [(size + clusterSizeBytes - 1) / clusterSizeBytes], at least 1. *)
Definition cluster_count (sz csb : Z) : Z :=
  let ncl := u32 (fsize_t (sz + csb - 1) / csb) in
  if ncl =? 0 then 1 else ncl.

Definition fs_assign_clusters (st : fs_state) (f : option nat) : run fs_state :=
  match f with
  | None => Done st
  | Some i =>
    n ← deref st f;
    if has_bits (attr n) AM_DIR then Done st
    else
      match g_fs st with
      | None => Undefined
      | Some fs =>
        let clusterSizeBytes := u32 (csize fs * 512) in
        if clusterSizeBytes =? 0 then Undefined
        else
          let ncl := cluster_count (size n) clusterSizeBytes in
          st' ← update i (set_startCluster (g_nextCluster st)) st;
          Done (with_nextCluster (u32 (g_nextCluster st + ncl)) st')
      end
  end.

(** The [for] loop over [samples]: each file is created, sized, given its
    clusters and attached to [d]; the loop stops when no node is left. *)
Fixpoint add_samples (st : fs_state) (d : option nat) (l : list (string * Z))
    : run fs_state :=
  match l with
  | [] => Done st
  | (nm, sz) :: rest =>
    r ← match fs_new_node st nm AM_ARC with
        | (None, st') => Done (inl st')
        | (Some i, st') =>
          st' ← update i (set_size sz) st';
          st' ← fs_assign_clusters st' (Some i);
          st' ← fs_add_child st' d (Some i);
          Done (inr st')
        end;
    match r with
    | inl st' => Done st'
    | inr st' => add_samples st' d rest
    end
  end.

Definition samples : list (string * Z) :=
  [ ("ALTT.gba"%string, 8 * 1024 * 1024);
    ("Metroid.gba"%string, 16 * 1024 * 1024);
    ("Sample.gb"%string, 256 * 1024);
    ("Readme.txt"%string, 2048) ].

(** A file of the GAMES directory: [if (f) { f->size = ...; ... }]. *)
Definition add_game (st : fs_state) (d : option nat) (nm : string) (sz : Z)
    : run fs_state :=
  match fs_new_node st nm AM_ARC with
  | (None, st) => Done st
  | (Some i, st) =>
    st ← update i (set_size sz) st;
    st ← fs_assign_clusters st (Some i);
    fs_add_child st d (Some i)
  end.

Definition fs_populate_default (st : fs_state) : run fs_state :=
  let '(root, st) := fs_new_node st "" AM_DIR in
  let st := with_cwd root (with_root root st) in
  let '(sys, st) := fs_new_node st "SYSTEM" AM_DIR in
  st ← fs_add_child st (g_root st) sys;
  let '(patch, st) := fs_new_node st "PATCH" AM_DIR in
  st ← fs_add_child st sys patch;
  let '(plug, st) := fs_new_node st "PLUG" AM_DIR in
  st ← fs_add_child st sys plug;
  let '(recent, st) := fs_new_node st "RECENT.TXT" AM_ARC in
  st ← update_ptr recent (set_data None) st;
  st ← update_ptr recent (set_size 0) st;
  st ← fs_assign_clusters st recent;
  st ← fs_add_child st sys recent;
  st ← add_samples st (g_root st) samples;
  let '(games, st) := fs_new_node st "GAMES" AM_DIR in
  match games with
  | None => Done st
  | Some _ =>
    st ← fs_add_child st (g_root st) games;
    st ← add_game st games "Pokemon.gba" (32 * 1024 * 1024);
    add_game st games "MarioKart.gba" (16 * 1024 * 1024)
  end.

(** [f_mount]; [fs] says whether the [FATFS] pointer is non-null. *)
Definition f_mount (st : fs_state) (fs : bool) : run (FRESULT * fs_state) :=
  if negb fs then
    Done (FR_OK,
          mk_fs None (g_root st) (g_cwd st) (g_nextCluster st) false
                (g_node_pool st) (g_node_used st) (g_iter_dir st) (g_iter_next st))
  else
    let fsv := mk_fatfs FS_FAT16 4 4660 65536 2048 in
    let st := mk_fs (Some fsv) None None 2 true (g_node_pool st) O None None in
    st ← fs_populate_default st;
    Done (FR_OK, st).

(** [f_open]; the third component is what [*fp] holds afterwards. *)
Definition f_open (st : fs_state) (fp : option FIL) (path : string) (mode : Z)
    : run (FRESULT * fs_state * option FIL) :=
  let path := cstr path in
  match fp with
  | None => Done (FR_NOT_READY, st, None)
  | Some _ =>
    if negb (g_mounted st) then Done (FR_NOT_READY, st, fp)
    else
      let fp := Some zero_FIL in
      node ← fs_resolve st path;
      r ← match node with
          | Some _ => Done (inr (node, st))
          | None =>
            if has_bits mode (Z.lor (Z.lor FA_CREATE_ALWAYS FA_OPEN_ALWAYS) FA_CREATE_NEW)
            then
              let lastSlash := strrchr_slash path in
              let nm := match lastSlash with
                        | Some i => strncpy (str_drop (S i) path) 99
                        | None => strncpy path 99
                        end in
              let parentPath := match lastSlash with
                                | Some i => str_take (Nat.min i 511) path
                                | None => "."%string
                                end in
              '(par, st) ← fs_ensure_dir st parentPath;
              match par with
              | None => Done (inl (FR_NO_PATH, st))
              | Some _ =>
                pn ← deref st par;
                if negb (has_bits (attr pn) AM_DIR) then Done (inl (FR_NO_PATH, st))
                else
                  dup ← (if has_bits mode FA_CREATE_NEW
                         then fs_find_child st par nm else Done None);
                  match dup with
                  | Some _ => Done (inl (FR_EXIST, st))
                  | None =>
                    let '(node, st) := fs_new_node st nm AM_ARC in
                    match node with
                    | None => Done (inl (FR_INT_ERR, st))
                    | Some _ =>
                      st ← update_ptr node (set_size 0) st;
                      st ← update_ptr node (set_data None) st;
                      st ← fs_assign_clusters st node;
                      st ← fs_add_child st par node;
                      Done (inr (node, st))
                    end
                  end
              end
            else Done (inl (FR_NO_FILE, st))
          end;
      match r with
      | inl (code, st) => Done (code, st, fp)
      | inr (node, st) =>
        n ← deref st node;
        if has_bits (attr n) AM_DIR then Done (FR_INVALID_OBJECT, st, fp)
        else
          match g_fs st with
          | None => Undefined
          | Some fs =>
            Done (FR_OK, st,
                  Some (mk_fil (mk_obj (g_fs st) (id fs) (attr n) (startCluster n)
                                       (size n))
                               mode FR_OK 0 (startCluster n) 0 node))
          end
      end
  end.

(** [f_read]; [buff] is the content of the destination and [br] that of
    the byte counter, [None] for null pointers.  The result holds what
    [*fp], the destination and [*br] are afterwards. *)
Definition f_read (st : fs_state) (fp : option FIL) (buff : option (list byte))
    (btr : Z) (br : option Z)
    : run (FRESULT * option FIL * option (list byte) * option Z) :=
  let br := match br with Some _ => Some 0 | None => None end in
  match fp, buff with
  | Some h, Some dst =>
    if negb (g_mounted st) then Done (FR_INVALID_PARAMETER, fp, buff, br)
    else
      match dir_ptr h with
      | None => Done (FR_INVALID_OBJECT, fp, buff, br)
      | Some _ =>
        node ← deref st (dir_ptr h);
        if fptr h >=? size node then Done (FR_OK, fp, buff, br)
        else
          let remain := fsize_t (size node - fptr h) in
          let tocopy := if btr >? remain then u32 remain else btr in
          if Z.of_nat (length dst) <? tocopy then Undefined
          else
            src ← match data node with
                  | Some d =>
                    if Z.of_nat (length d) <? fptr h + tocopy then Undefined
                    else Done (bytes_at d (fptr h) tocopy)
                  | None => Done (replicate (Z.to_nat tocopy) x00)
                  end;
            Done (FR_OK, Some (set_fptr (fsize_t (fptr h + tocopy)) h),
                  Some (memcpy dst src tocopy),
                  match br with Some _ => Some tocopy | None => None end)
      end
  | _, _ => Done (FR_INVALID_PARAMETER, fp, buff, br)
  end.

(** [f_opendir]; an empty [path] stands for the null pointer too. *)
Definition f_opendir (st : fs_state) (dp : option DIR) (path : string)
    : run (FRESULT * fs_state * option DIR) :=
  let path := cstr path in
  match dp with
  | None => Done (FR_INVALID_PARAMETER, st, dp)
  | Some _ =>
    if negb (g_mounted st) then Done (FR_INVALID_PARAMETER, st, dp)
    else
      node ← (if String.eqb path "" then Done (g_cwd st) else fs_resolve st path);
      match node with
      | None => Done (FR_NO_PATH, st, dp)
      | Some _ =>
        n ← deref st node;
        if negb (has_bits (attr n) AM_DIR) then Done (FR_NO_PATH, st, dp)
        else Done (FR_OK, with_iter node (firstChild n) st, Some (mk_dir 1))
      end
  end.

(** What [f_readdir] and [f_stat] write for the node [n]. *)
Definition fill_info (n : FsNode) : FILINFO :=
  mk_filinfo (strncpy (name n) FNAME_LEN) (attr n)
             (if has_bits (attr n) AM_DIR then 0 else size n).

(** [fno->fname[0] = 0] *)
Definition clear_fname (fno : FILINFO) : FILINFO :=
  mk_filinfo EmptyString (fattrib fno) (fsize fno).

(** [f_readdir]; the third component is what [*fno] holds afterwards. *)
Definition f_readdir (st : fs_state) (dp : option DIR) (fno : option FILINFO)
    : run (FRESULT * fs_state * option FILINFO) :=
  match dp with
  | None => Done (FR_INVALID_PARAMETER, st, fno)
  | Some d =>
    if negb (g_mounted st) then Done (FR_INVALID_PARAMETER, st, fno)
    else if dir d =? 0 then Done (FR_OK, st, option_map clear_fname fno)
    else
      match fno with
      | None =>
        first ← match g_iter_dir st with
                | Some _ => n ← deref st (g_iter_dir st); Done (firstChild n)
                | None => Done None
                end;
        Done (FR_OK, with_iter (g_iter_dir st) first st, None)
      | Some info =>
        match g_iter_next st with
        | None => Done (FR_OK, st, Some (clear_fname info))
        | Some _ =>
          n ← deref st (g_iter_next st);
          Done (FR_OK, with_iter (g_iter_dir st) (nextSibling n) st,
                Some (fill_info n))
        end
      end
  end.

Definition f_closedir (st : fs_state) (dp : option DIR)
    : FRESULT * fs_state * option DIR :=
  match dp with
  | None => (FR_INVALID_PARAMETER, st, dp)
  | Some _ => (FR_OK, with_iter None None st, Some (mk_dir 0))
  end.

Definition f_chdir (st : fs_state) (path : string) : run (FRESULT * fs_state) :=
  if negb (g_mounted st) then Done (FR_NOT_READY, st)
  else
    n ← fs_resolve st path;
    match n with
    | None => Done (FR_NO_PATH, st)
    | Some _ =>
      nd ← deref st n;
      if negb (has_bits (attr nd) AM_DIR) then Done (FR_NO_PATH, st)
      else Done (FR_OK, with_cwd n st)
    end.

(** [while (it) { if (it == n) break; prev = it; it = it->nextSibling; }] *)
Fixpoint detach_scan (fuel : nat) (st : fs_state) (prev it : option nat) (n : nat)
    : run (option nat * option nat) :=
  match it with
  | None => Done (prev, None)
  | Some j =>
    if (j =? n)%nat then Done (prev, it)
    else
      match fuel with
      | O => Undefined
      | S fuel' =>
        nd ← deref st it;
        detach_scan fuel' st it (nextSibling nd) n
      end
  end.

(** The node [f_unlink] leaves in the slot: the buffer released, name and
    attributes cleared, no links, no size, no cluster. *)
Definition unlinked (n : FsNode) : FsNode :=
  mk_node EmptyString 0 None None None None 0 0.

Definition f_unlink (st : fs_state) (path : string) : run (FRESULT * fs_state) :=
  n ← fs_resolve st path;
  match n with
  | None => Done (FR_NO_FILE, st)
  | Some i =>
    if bool_decide (n = g_root st) then Done (FR_DENIED, st)
    else
      nd ← deref st n;
      if has_bits (attr nd) AM_DIR && bool_decide (firstChild nd <> None)
      then Done (FR_DENIED, st)
      else
        match parent nd with
        | None => Done (FR_INT_ERR, st)
        | Some p =>
          pn ← deref st (Some p);
          '(prev, it) ← detach_scan (walk_fuel st) st None (firstChild pn) i;
          match it with
          | None => Done (FR_INT_ERR, st)
          | Some _ =>
            itn ← deref st it;
            st ← match prev with
                 | Some q => update q (set_nextSibling (nextSibling itn)) st
                 | None => update p (set_firstChild (nextSibling itn)) st
                 end;
            st ← update i unlinked st;
            Done (FR_OK, st)
          end
        end
  end.

(** [Get_NextCluster]; [obj] is [None] for the null pointer. *)
Definition Get_NextCluster (st : fs_state) (obj : option FFOBJID) (clst : Z) : Z :=
  match obj, g_fs st with
  | Some o, Some fs =>
    let clusterSizeBytes := u32 (csize fs * 512) in
    let clusterSizeBytes := if clusterSizeBytes =? 0 then 2048 else clusterSizeBytes in
    let ncl := cluster_count (objsize o) clusterSizeBytes in
    let base := if sclust o =? 0 then 2 else sclust o in
    if clst <? base then base
    else
      let idx := u32 (clst - base) in
      if u32 (idx + 1) >=? ncl then 65535
      else u32 (u32 (base + idx) + 1)
  | _, _ => 65535
  end.

End Api.

(** ** Writing, seeking, renaming and the rest of the API *)

Section Api2.

Variable FSIZE_BITS : Z.
Variable FNAME_LEN : nat.

(** The allocator as the code meets it: whether a [malloc] or [realloc]
    succeeds, and the bytes that memory not yet written holds. *)
Variable alloc_ok : bool.
Variable junk : nat -> byte.

(** [(size_t) z], thirty-two bits on the target. *)
Definition size_t (z : Z) : Z := u32 z.

Definition malloc (n : Z) : option (list byte) :=
  if alloc_ok then Some (map junk (seq 0 (Z.to_nat n))) else None.

(** [realloc (old, n)]: the old bytes up to [n], then memory not yet
    written. *)
Definition realloc (old : list byte) (n : Z) : option (list byte) :=
  if alloc_ok
  then Some (take (Z.to_nat n) old
             ++ map junk (seq (length old) (Z.to_nat n - length old)))
  else None.

(** [memset (buf + off, 0, n)] *)
Definition memset0 (buf : list byte) (off n : Z) : run (list byte) :=
  if Z.of_nat (length buf) <? off + n then Undefined
  else Done (take (Z.to_nat off) buf ++ replicate (Z.to_nat n) x00
             ++ drop (Z.to_nat (off + n)) buf).

Definition fs_file_ensure_capacity (st : fs_state) (node : option nat) (needed : Z)
    : run (bool * fs_state) :=
  match node with
  | None => Done (false, st)
  | Some i =>
    n ← deref st node;
    match data n with
    | None =>
      match malloc (size_t needed) with
      | None => Done (false, st)
      | Some buf =>
        buf ← (if size n =? 0 then Done buf else memset0 buf 0 (size_t (size n)));
        st ← update i (set_data (Some buf)) st;
        Done (true, st)
      end
    | Some d =>
      if needed <=? size n then Done (true, st)
      else
        match realloc d (size_t needed) with
        | None => Done (false, st)
        | Some nd =>
          nd ← memset0 nd (size n) (size_t (fsize_t FSIZE_BITS (needed - size n)));
          st ← update i (set_data (Some nd)) st;
          Done (true, st)
        end
    end
  end.

Definition set_objsize (z : Z) (f : FIL) : FIL :=
  mk_fil (mk_obj (obj_fs (obj f)) (obj_id (obj f)) (obj_attr (obj f))
                 (sclust (obj f)) z)
         (flag f) (err f) (fptr f) (clust f) (sect f) (dir_ptr f).

(** [f_write]; [buff] is the content of the source and [bw] that of the
    byte counter.  The result holds the filesystem, [*fp] and [*bw]
    afterwards. *)
Definition f_write (st : fs_state) (fp : option FIL) (buff : option (list byte))
    (btw : Z) (bw : option Z) : run (FRESULT * fs_state * option FIL * option Z) :=
  let bw := match bw with Some _ => Some 0 | None => None end in
  match fp, buff with
  | Some h, Some src =>
    if negb (g_mounted st) then Done (FR_INVALID_PARAMETER, st, fp, bw)
    else if negb (has_bits (flag h) FA_WRITE) then Done (FR_DENIED, st, fp, bw)
    else
      match dir_ptr h with
      | None => Done (FR_INVALID_OBJECT, st, fp, bw)
      | Some i =>
        let endpos := fsize_t FSIZE_BITS (fptr h + btw) in
        '(ok, st) ← fs_file_ensure_capacity st (dir_ptr h) endpos;
        if negb ok then Done (FR_INT_ERR, st, fp, bw)
        else
          node ← deref st (dir_ptr h);
          match data node with
          | None => Undefined
          | Some d =>
            if (Z.of_nat (length d) <? fptr h + btw) || (Z.of_nat (length src) <? btw)
            then Undefined
            else
              st ← update i (set_data (Some (memcpy_at d (fptr h) src btw))) st;
              let h := set_fptr endpos h in
              '(st, h) ← (if endpos >? size node
                          then st ← update i (set_size endpos) st;
                               Done (st, set_objsize endpos h)
                          else Done (st, h));
              Done (FR_OK, st, Some h,
                    match bw with Some _ => Some btw | None => None end)
          end
      end
  | _, _ => Done (FR_INVALID_PARAMETER, st, fp, bw)
  end.

Definition f_lseek (st : fs_state) (fp : option FIL) (ofs : Z)
    : run (FRESULT * option FIL) :=
  match fp with
  | None => Done (FR_INVALID_PARAMETER, fp)
  | Some h =>
    if negb (g_mounted st) then Done (FR_INVALID_PARAMETER, fp)
    else
      match dir_ptr h with
      | None => Done (FR_INVALID_OBJECT, fp)
      | Some _ =>
        node ← deref st (dir_ptr h);
        let ofs := if (ofs >? size node) && negb (has_bits (flag h) FA_WRITE)
                   then size node else ofs in
        Done (FR_OK, Some (set_fptr ofs h))
      end
  end.

Definition f_close (fp : option FIL) : FRESULT := FR_OK.

Definition f_stat (st : fs_state) (path : string) (fno : option FILINFO)
    : run (FRESULT * option FILINFO) :=
  match fno with
  | None => Done (FR_INVALID_PARAMETER, fno)
  | Some _ =>
    if negb (g_mounted st) then Done (FR_INVALID_PARAMETER, fno)
    else
      n ← fs_resolve st path;
      match n with
      | None => Done (FR_NO_FILE, fno)
      | Some _ =>
        nd ← deref st n;
        Done (FR_OK, Some (fill_info FNAME_LEN nd))
      end
  end.

(** The loop of [f_gets]: at most [k] more bytes, up to the end of the file
    or a newline; the bytes stored and the cursor afterwards. *)
Fixpoint gets_loop (k : nat) (d : option (list byte)) (sz pos : Z)
    : run (list byte * Z) :=
  match k with
  | O => Done ([], pos)
  | S k' =>
    if pos <? sz then
      c ← match d with
          | Some bytes =>
            match bytes !! Z.to_nat pos with
            | Some c => Done c
            | None => Undefined
            end
          | None => Done x00
          end;
      let pos' := fsize_t FSIZE_BITS (pos + 1) in
      if Byte.eqb c x0a then Done ([c], pos')
      else
        '(rest, pos'') ← gets_loop k' d sz pos';
        Done (c :: rest, pos'')
    else Done ([], pos)
  end.

(** [f_gets]; [buff] says whether the buffer pointer is non-null.  The
    result is the bytes stored before the closing NUL, [None] for a null
    return, and [*fp] afterwards. *)
Definition f_gets (st : fs_state) (buff : bool) (len : Z) (fp : option FIL)
    : run (option (list byte) * option FIL) :=
  match fp with
  | None => Done (None, fp)
  | Some h =>
    if negb (g_mounted st) || negb buff || (len <=? 0) then Done (None, fp)
    else
      match dir_ptr h with
      | None => Done (None, fp)
      | Some _ =>
        node ← deref st (dir_ptr h);
        if fptr h >=? size node then Done (None, fp)
        else
          '(bytes, pos) ← gets_loop (Z.to_nat (len - 1)) (data node) (size node) (fptr h);
          Done (Some bytes, Some (set_fptr pos h))
      end
  end.

Definition set_name (s : string) (n : FsNode) : FsNode :=
  mk_node s (attr n) (parent n) (firstChild n) (nextSibling n) (data n) (size n)
          (startCluster n).

(** The block of [f_rename] that takes the node [i] out of the children of
    its old parent [op]; a node that is not among them is left alone. *)
Definition detach_from (st : fs_state) (op i : nat) : run fs_state :=
  opn ← deref st (Some op);
  '(prev, it) ← detach_scan (walk_fuel st) st None (firstChild opn) i;
  match it with
  | None => Done st
  | Some _ =>
    itn ← deref st it;
    match prev with
    | Some q => update q (set_nextSibling (nextSibling itn)) st
    | None => update op (set_firstChild (nextSibling itn)) st
    end
  end.

Definition f_rename (st : fs_state) (path_old path_new : string)
    : run (FRESULT * fs_state) :=
  let path_new := cstr path_new in
  n ← fs_resolve st path_old;
  match n with
  | None => Done (FR_NO_FILE, st)
  | Some i =>
    let lastSlash := strrchr_slash path_new in
    let nm := match lastSlash with
              | Some k => strncpy (str_drop (S k) path_new) 99
              | None => strncpy path_new 99
              end in
    '(newParent, st) ← match lastSlash with
                       | Some k => fs_ensure_dir st (str_take (Nat.min k 511) path_new)
                       | None => Done (g_cwd st, st)
                       end;
    match newParent with
    | None => Done (FR_NO_PATH, st)
    | Some _ =>
      pn ← deref st newParent;
      if negb (has_bits (attr pn) AM_DIR) then Done (FR_NO_PATH, st)
      else
        nd ← deref st n;
        st ← match parent nd with
             | None => Done st
             | Some op => detach_from st op i
             end;
        st ← update i (set_name nm) st;
        st ← update i (set_nextSibling None) st;
        st ← update i (set_parent None) st;
        st ← fs_add_child st newParent n;
        Done (FR_OK, st)
    end
  end.

Definition f_mkdir (st : fs_state) (path : string) : run (FRESULT * fs_state) :=
  if negb (g_mounted st) then Done (FR_NOT_READY, st)
  else
    n ← fs_resolve st path;
    match n with
    | Some _ => Done (FR_EXIST, st)
    | None =>
      '(d, st) ← fs_ensure_dir st path;
      Done (match d with Some _ => FR_OK | None => FR_INT_ERR end, st)
    end.

(** The loop of [f_getcwd]: [acc] is what the temporary buffer of 512 bytes
    holds from [cursor] on, so [cursor - tmp] is [511 - length acc]; a name
    that would not leave room stops the walk. *)
Fixpoint getcwd_loop (fuel : nat) (st : fs_state) (it : option nat) (acc : string)
    : run (option nat * string) :=
  match it with
  | None => Done (it, acc)
  | Some _ =>
    if bool_decide (it = g_root st) then Done (it, acc)
    else
      match fuel with
      | O => Undefined
      | S fuel' =>
        n ← deref st it;
        let nm := cstr (name n) in
        if (511 - String.length acc <? String.length nm + 2)%nat
        then Done (it, acc)
        else getcwd_loop fuel' st (parent n) (String SLASH (nm +:+ acc))
      end
  end.

(** [f_getcwd]; [buff] says whether the buffer pointer is non-null, the
    result is the string stored in it.  Every pass of the loop puts at least
    a slash into the 512 bytes, so 512 passes are all it can make. *)
Definition f_getcwd (st : fs_state) (buff : bool) (len : Z)
    : run (FRESULT * option string) :=
  if negb (g_mounted st) || negb buff || (len =? 0)
  then Done (FR_INVALID_PARAMETER, None)
  else
    let it := match g_cwd st with Some _ => g_cwd st | None => g_root st end in
    if bool_decide (it = g_root st)
    then Done (FR_OK, Some (strncpy "/" (Z.to_nat (len - 1))))
    else
      '(it, acc) ← getcwd_loop 512 st it EmptyString;
      let at_start := (String.length acc =? 511)%nat in
      let no_slash := negb (match acc with
                            | String c _ => Ascii.eqb c SLASH
                            | EmptyString => false
                            end) in
      acc ← (if bool_decide (it = g_root st) && (at_start || no_slash)
             then (if at_start then Undefined else Done (String SLASH acc))
             else Done acc);
      Done (FR_OK, Some (strncpy acc (Z.to_nat (len - 1)))).

(** [ClustToSect]; [fs] is [None] for the null pointer. *)
Definition ClustToSect (fs : option FATFS) (clst : Z) : Z :=
  match fs with
  | None => 0
  | Some f =>
    if clst <? 2 then 0
    else
      let base := u32 (database f) in
      let cs := u32 (csize f) in
      let cs := if cs =? 0 then 4 else cs in
      u32 (base + u32 (u32 (clst - 2) * cs))
  end.

End Api2.

End FS.

(** * Predicates and reference states of the statements *)

Module SDSpec.
Import SD.

(** What [ensure_sd_open] establishes and every operation keeps: the sector
    count is that of an image of fewer than 2^32 bytes, both overlay arrays
    have [MAX_OVERLAY_SECTORS] entries, and the copy, if any, holds every
    sector. *)
Record sd_wf (st : sd_state) : Prop := {
  wf_count : 0 <= g_sector_count st /\ g_sector_count st * SECTOR_SIZE < 4294967296;
  wf_ids : length (overlay_sector_id st) = Z.to_nat MAX_OVERLAY_SECTORS;
  wf_data : length (overlay_sector_data st) = Z.to_nat MAX_OVERLAY_SECTORS;
  wf_ram : forall ram, g_img_ram st = Some ram ->
             Z.of_nat (length ram) = g_sector_count st * SECTOR_SIZE
}.

(** What the overlay arrays alone determine: the status flags, the copy and
    the sector count are not touched by the overlay path. *)
Definition same_store (st st' : sd_state) : Prop :=
  g_img_ram st' = g_img_ram st /\ g_sector_count st' = g_sector_count st
  /\ g_sd_ready st' = g_sd_ready st.

(** The validation both entry points make. *)
Definition valid_range (st : sd_state) (address count : Z) : Prop :=
  0 < count < 65536 /\ 0 <= address < g_sector_count st
  /\ count <= g_sector_count st - address.

(** An all-zero image of 66048 sectors, more than sixteen bits can number. *)
Definition zero_image : Z -> byte := fun _ => x00.
Definition big_size : Z := 66048 * 512.

(** The store right after it fell back to the overlay. *)
Definition overlay_fresh : sd_state :=
  (ensure_sd_open zero_image false big_size false sd_boot).2.

Abbreviation read_big := (Read_SD_sectors zero_image false big_size false).
Abbreviation write_big := (Write_SD_sectors zero_image false big_size false).

(** The overlay entries that are free. *)
Definition free_entries (st : sd_state) : nat :=
  length (filter (fun x => x = 65535) (overlay_sector_id st)).

(** An image whose byte at offset [k] tells sector and parity apart, and two
    small stores on it: four sectors copied to RAM, and 300 sectors behind the
    overlay. *)
Definition striped_image : Z -> byte :=
  fun k => if Z.even (k / 512 + k) then x5a else xa5.

Definition copy_small : sd_state :=
  (ensure_sd_open striped_image false 2048 true sd_boot).2.

Definition overlay_small : sd_state :=
  (ensure_sd_open striped_image false (300 * 512) false sd_boot).2.

(** The store behind the overlay after sector 5 was written with bytes
    [x01]. *)
Definition overlay_one : sd_state :=
  (Write_SD_sectors striped_image false (300 * 512) false overlay_small 5 1
                    (Some (replicate 512 x01))).2.


(** The earlier driver on four sectors when the copy could not be made. *)
Definition old_small : sd_state :=
  (SDOld.ensure_sd_open striped_image false 2048 false sd_boot).2.
End SDSpec.

Module FSSpec.
Import FS.

(** The filesystem right after [f_mount] at program start, with a 32-bit
    [FSIZE_t]. *)
Definition mounted : fs_state :=
  Eval vm_compute in
    match f_mount 32 fs_boot true with
    | Done (_, st) => st
    | Undefined => fs_boot
    end.

(** Follows the spec's words: the ceiling of [a / b], for the cluster count
    [ceil (size / cluster-size-bytes)]. *)
Definition ceil_div (a b : Z) : Z := - ((- a) / b).

(** The start clusters of the files among the allocated nodes, in the order
    of their slots. *)
Definition file_clusters (st : fs_state) : list Z :=
  map startCluster
      (filter (fun n => has_bits (attr n) AM_DIR = false)
              (take (g_node_used st) (g_node_pool st))).

(** [chain pool s l]: following [nextSibling] from the pointer [s] visits
    the nodes [l] in turn and ends at the null pointer. *)
Fixpoint chain (pool : list FsNode) (s : option nat) (l : list nat) : Prop :=
  match l with
  | [] => s = None
  | x :: r =>
    s = Some x /\ exists n, pool !! x = Some n /\ chain pool (nextSibling n) r
  end.

(** The node in slot [i], for slots in use. *)
Definition node_at (st : fs_state) (i : nat) : FsNode :=
  default zero_node (g_node_pool st !! i).

Definition default_fatfs : FATFS := mk_fatfs FS_FAT16 4 4660 65536 2048.

(** A handle on [/Readme.txt] (2048 bytes, no buffer) with the cursor at
    offset 2000. *)
Definition readme_handle : FIL :=
  mk_fil (mk_obj (Some default_fatfs) 4660 AM_ARC 12419 2048) FA_READ FR_OK 2000
         12419 0 (Some 8%nat).

(** The filesystem after [f_opendir] of [/SYSTEM] and one [f_readdir]. *)
Definition system_listing : fs_state :=
  with_iter (Some 1%nat) (Some 3%nat) mounted.


(** A buffer padded with zero bytes up to [n] bytes. *)
Definition grown (d : list byte) (n : Z) : list byte :=
  d ++ replicate (Z.to_nat n - length d) x00.

(** Two nodes that differ at most in their links: name, attributes, content,
    size and start cluster are the same. *)
Definition same_entry (n n' : FsNode) : Prop :=
  name n' = name n /\ attr n' = attr n /\ data n' = data n
  /\ size n' = size n /\ startCluster n' = startCluster n.

(** [live st x]: the slot [x] was handed out and is not free. *)
Definition live (st : fs_state) (x : nat) : Prop :=
  (x < g_node_used st)%nat
  /\ exists n, g_node_pool st !! x = Some n /\ is_free n = false.

(** A name that is a single path segment: no slash, no NUL, not empty,
    neither [.] nor [..], and short enough for the name field. *)
Fixpoint plain_chars (s : string) : bool :=
  match s with
  | EmptyString => true
  | String c r => negb (Ascii.eqb c SLASH) && negb (Ascii.eqb c NUL) && plain_chars r
  end.

Definition plain_name (s : string) : Prop :=
  plain_chars s = true /\ s <> EmptyString /\ s <> "."%string /\ s <> ".."%string
  /\ (String.length s <= 99)%nat.

(** The loop of a caller that lists a directory: [k] calls of [f_readdir],
    the entries they stored in order. *)
Fixpoint read_entries (FNAME_LEN : nat) (k : nat) (st : fs_state) (dp : DIR)
    : run (list FILINFO * fs_state) :=
  match k with
  | O => Done ([], st)
  | S k' =>
    '(_, st1, info) ← f_readdir FNAME_LEN st (Some dp) (Some (mk_filinfo "" 0 0));
    '(rest, st2) ← read_entries FNAME_LEN k' st1 dp;
    Done (match info with Some i => i :: rest | None => rest end, st2)
  end.

(** [ancestry pool root it names]: following [parent] from [it] reaches
    [root] after the nodes whose names are [names], the name of [it] first. *)
Fixpoint ancestry (pool : list FsNode) (root it : option nat) (names : list string)
    : Prop :=
  match names with
  | [] => it = root
  | nm :: rest =>
    it <> root
    /\ exists i n, it = Some i /\ pool !! i = Some n /\ cstr (name n) = nm
                   /\ ancestry pool root (parent n) rest
  end.

(** The path of a directory whose names up to the root are [names]: every
    name behind a slash, the outermost first; the root itself is [/]. *)
Definition cwd_path (names : list string) : string :=
  match names with
  | [] => "/"%string
  | _ => fold_left (fun acc nm => String SLASH (nm +:+ acc)) names EmptyString
  end.

(** The characters these names take in a path, a slash before each. *)
Definition path_length (names : list string) : nat :=
  fold_right (fun nm k => (S (String.length nm) + k)%nat) O names.

(** Two filesystems with the same tree: the same root and current directory
    and, slot by slot, the same names, attributes and links; content and
    sizes may differ. *)
Definition same_tree (st st' : fs_state) : Prop :=
  g_root st' = g_root st /\ g_cwd st' = g_cwd st
  /\ length (g_node_pool st') = length (g_node_pool st)
  /\ forall j n, g_node_pool st !! j = Some n ->
       exists n', g_node_pool st' !! j = Some n'
                  /\ name n' = name n /\ attr n' = attr n /\ parent n' = parent n
                  /\ firstChild n' = firstChild n /\ nextSibling n' = nextSibling n.

(** The allocator of the examples grants every request, and memory that
    was never written holds [0xEE]. *)
Definition junk_ee : nat -> byte := fun _ => xee.

(** The five bytes [hi], newline, [yo]. *)
Definition note_bytes : list byte := [x68; x69; x0a; x79; x6f].

(** The mounted default layout after [NOTE.TXT] was created in the root and
    [note_bytes] were written to it. *)
Definition noted : fs_state := Eval vm_compute in
  match f_open 32 mounted (Some zero_FIL) "NOTE.TXT" (Z.lor FA_WRITE FA_CREATE_ALWAYS) with
  | Done (_, st, h) =>
    match f_write 32 true junk_ee st h (Some note_bytes) 5 (Some 0) with
    | Done (_, st, _, _) => st
    | Undefined => mounted
    end
  | Undefined => mounted
  end.

(** A handle on [NOTE.TXT], slot 12, open for reading and writing, with the
    cursor at [pos]. *)
Definition note_handle (pos : Z) : FIL :=
  mk_fil (mk_obj (Some default_fatfs) 4660 AM_ARC 36996 5) (Z.lor FA_READ FA_WRITE)
         FR_OK pos 36996 0 (Some 12%nat).

(** A handle on [/Readme.txt] that may write. *)
Definition readme_writer : FIL :=
  mk_fil (mk_obj (Some default_fatfs) 4660 AM_ARC 12419 2048) FA_WRITE FR_OK 0
         12419 0 (Some 8%nat).

(** The children of the root of the default layout, and the layout with
    [/SYSTEM/PLUG] as the current directory. *)
Definition root_children : list nat := [1; 5; 6; 7; 8; 9]%nat.

Definition in_plug : fs_state := with_cwd (Some 3%nat) mounted.

(** A name of 100 letters. *)
Fixpoint str_repeat (c : ascii) (n : nat) : string :=
  match n with
  | O => EmptyString
  | S n' => String c (str_repeat c n')
  end.

Definition hundred_letters : string := Eval vm_compute in str_repeat "a" 100.
End FSSpec.

(** * Properties of the sector store *)

Module SDFacts.
Import SD SDSpec.

(** ** Representation invariant *)

Lemma u32_small z : 0 <= z < 4294967296 -> u32 z = z.
Proof. intros. unfold u32. apply Z.mod_small. lia. Qed.

Lemma u16_small z : 0 <= z < 65536 -> u16 z = z.
Proof. intros. unfold u16. apply Z.mod_small. lia. Qed.

Lemma length_disk_bytes disk_bin off n :
  length (disk_bytes disk_bin off n) = Z.to_nat n.
Proof. unfold disk_bytes. rewrite length_map, length_seq. reflexivity. Qed.

Lemma sd_boot_wf : sd_wf sd_boot.
Proof.
  split.
  - simpl. unfold SECTOR_SIZE. lia.
  - reflexivity.
  - reflexivity.
  - intros ram H. discriminate.
Qed.

Section Init.
Variable disk_bin : Z -> byte.
Variable disk_bin_null : bool.
Variable disk_bin_size : Z.
Variable malloc_ok : bool.

Local Abbreviation ensure := (ensure_sd_open disk_bin disk_bin_null disk_bin_size malloc_ok).

Lemma ensure_ready st : g_sd_ready st = true -> ensure st = (true, st).
Proof. intros H. unfold ensure_sd_open. rewrite H. reflexivity. Qed.

Lemma ensure_wf st ok st' : sd_wf st -> ensure st = (ok, st') -> sd_wf st'.
Proof.
  intros Hwf. unfold ensure_sd_open.
  destruct (g_sd_ready st); [intros [= <- <-]; exact Hwf|].
  destruct (disk_bin_null || (disk_bin_size <=? 0))%bool; [intros [= <- <-]; exact Hwf|].
  intros [= <- <-].
  set (size := u32 disk_bin_size).
  assert (Hsz : 0 <= size < 4294967296) by (apply Z.mod_pos_bound; lia).
  assert (Hm : 0 <= size mod SECTOR_SIZE < 512) by (apply Z.mod_pos_bound; reflexivity).
  assert (Hle : size mod SECTOR_SIZE <= size) by (apply Z.mod_le; unfold SECTOR_SIZE; lia).
  assert (Hus : u32 (size - size mod SECTOR_SIZE) = size - size mod SECTOR_SIZE)
    by (apply u32_small; lia).
  assert (Hdiv : (size - size mod SECTOR_SIZE) / SECTOR_SIZE * SECTOR_SIZE
                 = size - size mod SECTOR_SIZE).
  { unfold SECTOR_SIZE in *. pose proof (Z.div_mod size 512 ltac:(lia)).
    replace (size - size mod 512) with (size / 512 * 512) by lia.
    rewrite Z.div_mul by lia. reflexivity. }
  assert (Hq : 0 <= (size - size mod SECTOR_SIZE) / SECTOR_SIZE)
    by (apply Z.div_pos; unfold SECTOR_SIZE in *; lia).
  destruct malloc_ok; split; simpl; fold size; rewrite ?Hus, ?Hdiv.
  - lia.
  - apply Hwf.
  - apply Hwf.
  - intros ram [= <-]. rewrite length_disk_bytes. lia.
  - lia.
  - reflexivity.
  - apply Hwf.
  - intros ram H. discriminate.
Qed.

End Init.

(** ** Null buffers *)

(** C10: with a null data buffer [Read_SD_sectors] and [Write_SD_sectors]
    return the generic [RES_ERROR], whatever the address and the count are:
    the test precedes the zero-count and range tests, so an out-of-range
    address with a null buffer is [RES_ERROR] too, and [RES_ERROR] is neither
    of the parameter errors. *)
Theorem null_buffer_is_error disk_bin disk_bin_null disk_bin_size malloc_ok
    (st : sd_state) (address count : Z) :
  (Read_SD_sectors disk_bin disk_bin_null disk_bin_size malloc_ok
                   st address count None).1.1 = RES_ERROR
  /\ (Read_SD_sectors disk_bin disk_bin_null disk_bin_size malloc_ok
                      st address count None).2 = None
  /\ (Write_SD_sectors disk_bin disk_bin_null disk_bin_size malloc_ok
                       st address count None).1 = RES_ERROR
  /\ RES_ERROR <> InvalidArgument /\ RES_ERROR <> OutOfRange.
Proof.
  unfold Read_SD_sectors, Write_SD_sectors.
  destruct (ensure_sd_open _ _ _ _ st) as [ok st']. simpl.
  repeat split; discriminate.
Qed.

(** ** Argument validation *)

(** C4: once the store is open and the buffer is not null, a zero count is
    refused with [InvalidArgument], and a range that does not lie within the
    sector count ([address + count > g_sector_count]) with [OutOfRange]; the
    destination of a refused read is returned as it was, and the store after
    a refused call is the store [ensure_sd_open] left, which is the store
    before the call when it was open already. *)
Theorem invalid_ranges_refused disk_bin disk_bin_null disk_bin_size malloc_ok
    (st st1 : sd_state) (address count : Z) (buf : list byte) :
  is_u32 address -> is_u16 count ->
  ensure_sd_open disk_bin disk_bin_null disk_bin_size malloc_ok st = (true, st1) ->
  (count = 0 ->
     Read_SD_sectors disk_bin disk_bin_null disk_bin_size malloc_ok
                     st address count (Some buf) = (InvalidArgument, st1, Some buf)
     /\ Write_SD_sectors disk_bin disk_bin_null disk_bin_size malloc_ok
                         st address count (Some buf) = (InvalidArgument, st1))
  /\ (address + count > g_sector_count st1 ->
     Read_SD_sectors disk_bin disk_bin_null disk_bin_size malloc_ok
                     st address count (Some buf) = (OutOfRange, st1, Some buf)
     /\ Write_SD_sectors disk_bin disk_bin_null disk_bin_size malloc_ok
                         st address count (Some buf) = (OutOfRange, st1))
  /\ (g_sd_ready st = true -> st1 = st).
Proof.
  intros Ha Hc He. unfold is_u32 in Ha. unfold is_u16 in Hc.
  unfold Read_SD_sectors, Write_SD_sectors, InvalidArgument, OutOfRange.
  rewrite He. simpl. repeat split.
  - subst count. reflexivity.
  - subst count. reflexivity.
  - destruct (count =? 0); [reflexivity|].
    destruct (Z.geb_spec address (g_sector_count st1)); [reflexivity|].
    rewrite u32_small by lia.
    destruct (Z.gtb_spec count (g_sector_count st1 - address)); [reflexivity|lia].
  - destruct (count =? 0); [reflexivity|].
    destruct (Z.geb_spec address (g_sector_count st1)); [reflexivity|].
    rewrite u32_small by lia.
    destruct (Z.gtb_spec count (g_sector_count st1 - address)); [reflexivity|lia].
  - intros Hr. rewrite (ensure_ready _ _ _ _ _ Hr) in He. congruence.
Qed.

(** The refusals on an all-zero image of four sectors, copied at the first
    call: a range of two sectors from sector 3. *)
Lemma invalid_ranges_refused_witness :
  let img : Z -> byte := fun _ => x00 in
  let st1 := (ensure_sd_open img false 2048 true sd_boot).2 in
  (is_u32 3 /\ is_u16 2 /\ 3 + 2 > g_sector_count st1)
  /\ Read_SD_sectors img false 2048 true sd_boot 3 2 (Some [x01])
     = (OutOfRange, st1, Some [x01])
  /\ Write_SD_sectors img false 2048 true sd_boot 3 2 (Some [x01])
     = (OutOfRange, st1).
Proof.
  intros img st1.
  assert (Ha : is_u32 3) by (unfold is_u32; lia).
  assert (Hc : is_u16 2) by (unfold is_u16; lia).
  assert (Hr : 3 + 2 > g_sector_count st1) by reflexivity.
  assert (He : ensure_sd_open img false 2048 true sd_boot = (true, st1)) by reflexivity.
  destruct (invalid_ranges_refused img false 2048 true sd_boot st1 3 2 [x01]
              Ha Hc He) as (_ & Hrange & _).
  split; [exact (conj Ha (conj Hc Hr))|]. apply Hrange. exact Hr.
Defined.

(** ** The overlay on images of at most 65535 sectors

    When every valid sector number is below the free marker [0xFFFF], the
    sixteen-bit key of an entry is the sector number itself. *)

Lemma scan_ids_hit ids i key idx :
  0 <= i -> i + Z.of_nat (length ids) <= 65535 ->
  scan_ids ids i key = idx -> idx <> 65535 ->
  exists k, idx = i + Z.of_nat k /\ ids !! k = Some key
            /\ forall j x, (j < k)%nat -> ids !! j = Some x -> x <> key.
Proof.
  revert i. induction ids as [|x ids IH]; intros i Hi Hlen; simpl.
  - intros <- H. congruence.
  - simpl in Hlen. destruct (Z.eqb_spec x key) as [->|Hne].
    + intros <- _. exists O. rewrite u16_small by lia.
      repeat split; [lia|]. intros j x Hj. lia.
    + intros Hs Hidx. destruct (IH (i + 1) ltac:(lia) ltac:(lia) Hs Hidx)
        as (k & -> & Hk & Hfirst).
      exists (S k). repeat split; [lia|exact Hk|].
      intros [|j] y Hj Hy; simpl in Hy.
      * congruence.
      * eapply Hfirst; [|exact Hy]. lia.
Qed.

Lemma scan_ids_miss ids i key :
  0 <= i -> i + Z.of_nat (length ids) <= 65535 ->
  scan_ids ids i key = 65535 ->
  forall j x, ids !! j = Some x -> x <> key.
Proof.
  revert i. induction ids as [|x ids IH]; intros i Hi Hlen; simpl.
  - intros _ j y Hy. rewrite lookup_nil in Hy. discriminate.
  - simpl in Hlen. destruct (Z.eqb_spec x key) as [->|Hne].
    + rewrite u16_small by lia. lia.
    + intros Hs [|j] y Hy; simpl in Hy.
      * congruence.
      * eapply (IH (i + 1)); [lia|lia|exact Hs|exact Hy].
Qed.

Lemma scan_ids_insert_other ids i key k old v :
  ids !! k = Some old -> old <> key -> v <> key ->
  scan_ids (<[k := v]> ids) i key = scan_ids ids i key.
Proof.
  revert i k. induction ids as [|x ids IH]; intros i k Hk Ho Hv.
  - reflexivity.
  - destruct k as [|k]; simpl in *.
    + injection Hk as ->.
      destruct (Z.eqb_spec v key); [congruence|].
      destruct (Z.eqb_spec old key); [congruence|]. reflexivity.
    + destruct (x =? key); [reflexivity|]. apply IH; assumption.
Qed.

Lemma scan_ids_insert_hit ids i key k :
  0 <= i -> i + Z.of_nat (length ids) <= 65535 -> (k < length ids)%nat ->
  (forall j x, (j < k)%nat -> ids !! j = Some x -> x <> key) ->
  scan_ids (<[k := key]> ids) i key = i + Z.of_nat k.
Proof.
  revert i k. induction ids as [|x ids IH]; intros i k Hi Hlen Hk Hfirst.
  - simpl in Hk. lia.
  - simpl in Hlen, Hk. destruct k as [|k]; simpl.
    + rewrite Z.eqb_refl. rewrite u16_small by lia. lia.
    + destruct (Z.eqb_spec x key) as [->|_].
      * exfalso. apply (Hfirst O key); [lia|reflexivity|reflexivity].
      * rewrite IH; [lia|lia|lia|lia|].
        intros j y Hj Hy. apply (Hfirst (S j) y); [lia|exact Hy].
Qed.

Section Narrow.
Variable disk_bin : Z -> byte.
Variable disk_bin_null : bool.
Variable disk_bin_size : Z.
Variable malloc_ok : bool.

Local Abbreviation goc := (overlay_get_or_create disk_bin).
Local Abbreviation rsec := (read_sector disk_bin).
Local Abbreviation wloop := (write_loop disk_bin).
Local Abbreviation rloop := (read_loop disk_bin).

Lemma goc_fail st s st1 : goc st s = (65535, st1) -> st1 = st.
Proof.
  unfold overlay_get_or_create.
  destruct (Z.eqb_spec (overlay_find st s) 65535) as [E|E]; simpl.
  - destruct (Z.eqb_spec (scan_ids (overlay_sector_id st) 0 65535) 65535) as [E'|E'];
      simpl; intros H; inversion H; congruence.
  - intros H; inversion H; congruence.
Qed.

(** One iteration of the loop of [Write_SD_sectors] that found or made an
    entry: the sector reads back as the payload, every other sector as
    before. *)
Lemma write_step st s idx st1 p :
  sd_wf st -> 0 <= s < 65535 ->
  goc st s = (idx, st1) -> idx <> 65535 ->
  let st2 := store_data (<[Z.to_nat idx := p]> (overlay_sector_data st1)) st1 in
  sd_wf st2 /\ same_store st st2
  /\ rsec st2 s = p
  /\ forall t, 0 <= t < 65535 -> t <> s -> rsec st2 t = rsec st t.
Proof.
  intros [Hcnt Hids Hdata Hram] Hs.
  assert (Hl : 0 + Z.of_nat (length (overlay_sector_id st)) <= 65535)
    by (rewrite Hids; unfold MAX_OVERLAY_SECTORS; lia).
  unfold overlay_get_or_create, overlay_find. rewrite (u16_small s) by lia.
  destruct (Z.eqb_spec (scan_ids (overlay_sector_id st) 0 s) 65535) as [Emiss|Ehit]; simpl.
  - destruct (Z.eqb_spec (scan_ids (overlay_sector_id st) 0 65535) 65535) as [E'|Efree];
      simpl; [intros [= <- <-] H; congruence|].
    intros [= <- <-] _.
    destruct (scan_ids_hit _ 0 65535 _ ltac:(lia) Hl eq_refl Efree) as (k & Ek & Hk & _).
    rewrite Z.add_0_l in Ek. rewrite Ek, !Nat2Z.id.
    pose proof (lookup_lt_Some _ _ _ Hk) as Hklen.
    assert (Hfind : scan_ids (<[k := s]> (overlay_sector_id st)) 0 s = Z.of_nat k).
    { rewrite scan_ids_insert_hit; [lia|lia|exact Hl|exact Hklen|].
      intros j x _ Hx. eapply scan_ids_miss; [| |exact Emiss|exact Hx]; lia. }
    split; [|split; [|split]].
    + split; simpl; [exact Hcnt|rewrite length_insert; exact Hids
                     |rewrite !length_insert; exact Hdata|exact Hram].
    + repeat split.
    + unfold read_sector, overlay_find. simpl. rewrite (u16_small s) by lia.
      rewrite Hfind.
      destruct (Z.eqb_spec (Z.of_nat k) 65535) as [E|_]; [lia|]. simpl.
      rewrite Nat2Z.id, list_lookup_insert_eq; [reflexivity|].
      rewrite length_insert, Hdata, <- Hids. exact Hklen.
    + intros t Ht Hts. unfold read_sector, overlay_find. simpl.
      rewrite (u16_small t) by lia.
      rewrite (scan_ids_insert_other _ 0 t k 65535 s Hk) by lia.
      destruct (Z.eqb_spec (scan_ids (overlay_sector_id st) 0 t) 65535) as [E|E];
        simpl; [reflexivity|].
      destruct (scan_ids_hit _ 0 t _ ltac:(lia) Hl eq_refl E) as (k' & Ek' & Hk' & _).
      rewrite Z.add_0_l in Ek'. rewrite Ek', Nat2Z.id.
      assert (k' <> k) by (intros ->; rewrite Hk in Hk'; injection Hk'; lia).
      rewrite !list_lookup_insert_ne by congruence. reflexivity.
  - intros [= <- <-] _.
    destruct (scan_ids_hit _ 0 s _ ltac:(lia) Hl eq_refl Ehit) as (k & Ek & Hk & _).
    rewrite Z.add_0_l in Ek. rewrite Ek, !Nat2Z.id.
    pose proof (lookup_lt_Some _ _ _ Hk) as Hklen.
    split; [|split; [|split]].
    + split; simpl; [exact Hcnt|exact Hids|rewrite length_insert; exact Hdata|exact Hram].
    + repeat split.
    + unfold read_sector, overlay_find. simpl. rewrite (u16_small s) by lia.
      rewrite Ek.
      destruct (Z.eqb_spec (Z.of_nat k) 65535) as [E|_]; [lia|]. simpl.
      rewrite Nat2Z.id, list_lookup_insert_eq; [reflexivity|].
      rewrite Hdata, <- Hids. exact Hklen.
    + intros t Ht Hts. unfold read_sector, overlay_find. simpl.
      rewrite (u16_small t) by lia.
      destruct (Z.eqb_spec (scan_ids (overlay_sector_id st) 0 t) 65535) as [E|E];
        simpl; [reflexivity|].
      destruct (scan_ids_hit _ 0 t _ ltac:(lia) Hl eq_refl E) as (k' & Ek' & Hk' & _).
      rewrite Z.add_0_l in Ek'. rewrite Ek', Nat2Z.id.
      assert (k' <> k) by (intros ->; rewrite Hk in Hk'; injection Hk'; lia).
      rewrite list_lookup_insert_ne by congruence. reflexivity.
Qed.

Lemma same_store_refl st : same_store st st.
Proof. repeat split. Qed.

Lemma same_store_trans st1 st2 st3 :
  same_store st1 st2 -> same_store st2 st3 -> same_store st1 st3.
Proof. intros (? & ? & ?) (? & ? & ?). repeat split; congruence. Qed.

(** The loop of [Write_SD_sectors] leaves every sector outside the range as
    it read before, whether it completes or runs out of entries. *)
Lemma write_loop_frame n s src st r st' :
  sd_wf st -> 0 <= s -> s + Z.of_nat n <= 65535 ->
  wloop n s src st = (r, st') ->
  sd_wf st' /\ same_store st st'
  /\ forall t, 0 <= t < 65535 -> t < s \/ s + Z.of_nat n <= t ->
       rsec st' t = rsec st t.
Proof.
  revert s src st. induction n as [|n IH]; intros s src st Hwf Hs Hn; cbn [write_loop].
  - intros [= <- <-]. split; [exact Hwf|]. split; [apply same_store_refl|]. reflexivity.
  - destruct (goc st s) as [idx st1] eqn:G.
    destruct (Z.eqb_spec idx 65535) as [->|Hidx].
    + intros [= <- <-]. apply goc_fail in G as ->.
      split; [exact Hwf|]. split; [apply same_store_refl|]. reflexivity.
    + intros Hloop.
      destruct (write_step st s idx st1 (take (Z.to_nat SECTOR_SIZE) src)
                  Hwf ltac:(lia) G Hidx) as (Hwf2 & Hsame2 & _ & Hfr2).
      rewrite u32_small in Hloop by lia.
      destruct (IH (s + 1) _ _ Hwf2 ltac:(lia) ltac:(lia) Hloop)
        as (Hwf' & Hsame' & Hfr').
      split; [exact Hwf'|]. split; [eapply same_store_trans; eassumption|].
      intros t Ht Hout. rewrite Hfr' by lia. apply Hfr2; lia.
Qed.

(** A completed loop: each sector of the range reads back as its 512 bytes
    of the source. *)
Lemma write_loop_written n s src st st' :
  sd_wf st -> 0 <= s -> s + Z.of_nat n <= 65535 ->
  wloop n s src st = (RES_OK, st') ->
  forall j, (j < n)%nat ->
    rsec st' (s + Z.of_nat j)
    = take (Z.to_nat SECTOR_SIZE) (drop (Z.to_nat SECTOR_SIZE * j) src).
Proof.
  revert s src st. induction n as [|n IH]; intros s src st Hwf Hs Hn; cbn [write_loop].
  - intros _ j Hj. lia.
  - destruct (goc st s) as [idx st1] eqn:G.
    destruct (Z.eqb_spec idx 65535) as [->|Hidx]; [discriminate|].
    intros Hloop.
    destruct (write_step st s idx st1 (take (Z.to_nat SECTOR_SIZE) src)
                Hwf ltac:(lia) G Hidx) as (Hwf2 & _ & Hown & _).
    rewrite u32_small in Hloop by lia.
    intros [|j] Hj.
    + rewrite Z.add_0_r, Nat.mul_0_r, drop_0.
      destruct (write_loop_frame n (s + 1) _ _ _ _ Hwf2 ltac:(lia) ltac:(lia) Hloop)
        as (_ & _ & Hfr).
      rewrite Hfr by lia. exact Hown.
    + replace (s + Z.of_nat (S j)) with (s + 1 + Z.of_nat j) by lia.
      rewrite (IH (s + 1) _ _ Hwf2 ltac:(lia) ltac:(lia) Hloop j ltac:(lia)).
      rewrite drop_drop. f_equal. f_equal. lia.
Qed.

(** The loop returns [RES_OK] or [RES_ERROR]. *)
Lemma write_loop_result n s src st r st' :
  wloop n s src st = (r, st') -> r = RES_OK \/ r = RES_ERROR.
Proof.
  revert s src st. induction n as [|n IH]; intros s src st; cbn [write_loop].
  - intros [= <- _]. left. reflexivity.
  - destruct (goc st s) as [idx st1]. destruct (idx =? 65535).
    + intros [= <- _]. right. reflexivity.
    + apply IH.
Qed.

(** A failed loop stopped at the first sector the overlay had no entry
    for, in the state the sectors before it left: nothing is rolled back and
    nothing else is changed. *)
Lemma write_loop_error n s src st st' :
  0 <= s -> s + Z.of_nat n <= 65535 ->
  wloop n s src st = (RES_ERROR, st') ->
  exists k, (k < n)%nat /\ wloop k s src st = (RES_OK, st')
            /\ goc st' (s + Z.of_nat k) = (65535, st').
Proof.
  revert s src st. induction n as [|n IH]; intros s src st Hs Hn; cbn [write_loop].
  - discriminate.
  - destruct (goc st s) as [idx st1] eqn:G.
    destruct (Z.eqb_spec idx 65535) as [->|Hidx].
    + intros [= <-]. pose proof (goc_fail _ _ _ G) as ->.
      exists O. split; [lia|]. split; [reflexivity|].
      rewrite Z.add_0_r. exact G.
    + intros Hloop. rewrite u32_small in Hloop by lia.
      destruct (IH (s + 1) _ _ ltac:(lia) ltac:(lia) Hloop) as (k & Hk & Hpre & Hgoc).
      exists (S k). split; [lia|]. split.
      * cbn [write_loop]. rewrite G.
        destruct (Z.eqb_spec idx 65535) as [E|_]; [contradiction|].
        rewrite u32_small by lia. exact Hpre.
      * replace (s + Z.of_nat (S k)) with (s + 1 + Z.of_nat k) by lia. exact Hgoc.
Qed.

(** And a loop that reaches a sector the overlay has no entry for fails
    there. *)
Lemma write_loop_exhausted n k s src st stk :
  0 <= s -> s + Z.of_nat n <= 65535 -> (k < n)%nat ->
  wloop k s src st = (RES_OK, stk) ->
  goc stk (s + Z.of_nat k) = (65535, stk) ->
  wloop n s src st = (CapacityExceeded, stk).
Proof.
  revert k s src st. induction n as [|n IH]; intros k s src st Hs Hn Hk; [lia|].
  destruct k as [|k]; cbn [write_loop].
  - intros [= <-]. rewrite Z.add_0_r. intros ->. reflexivity.
  - destruct (goc st s) as [idx st1] eqn:G.
    destruct (Z.eqb_spec idx 65535) as [->|Hidx]; [discriminate|].
    rewrite !u32_small by lia. intros Hpre Hgoc.
    apply (IH k (s + 1)); [lia|lia|lia|exact Hpre|].
    replace (s + 1 + Z.of_nat k) with (s + Z.of_nat (S k)) by lia. exact Hgoc.
Qed.

(** The loop of [Read_SD_sectors] over sectors that read as the pieces of
    [src]. *)
Lemma read_loop_pieces n s src st :
  0 <= s -> s + Z.of_nat n <= 65535 ->
  (forall j, (j < n)%nat ->
     rsec st (s + Z.of_nat j)
     = take (Z.to_nat SECTOR_SIZE) (drop (Z.to_nat SECTOR_SIZE * j) src)) ->
  rloop n s st = take (Z.to_nat SECTOR_SIZE * n) src.
Proof.
  revert s src. induction n as [|n IH]; intros s src Hs Hn Hp; cbn [read_loop].
  - rewrite Nat.mul_0_r. reflexivity.
  - pose proof (Hp O ltac:(lia)) as H0.
    rewrite Z.add_0_r, Nat.mul_0_r, drop_0 in H0. rewrite H0.
    rewrite u32_small by lia.
    rewrite (IH (s + 1) (drop (Z.to_nat SECTOR_SIZE) src)); [|lia|lia|].
    + replace (Z.to_nat SECTOR_SIZE * S n)%nat
        with (Z.to_nat SECTOR_SIZE + Z.to_nat SECTOR_SIZE * n)%nat by lia.
      apply take_take_drop.
    + intros j Hj. replace (s + 1 + Z.of_nat j) with (s + Z.of_nat (S j)) by lia.
      rewrite (Hp (S j)) by lia. rewrite drop_drop. f_equal. f_equal. lia.
Qed.

Local Abbreviation Read := (Read_SD_sectors disk_bin disk_bin_null disk_bin_size malloc_ok).
Local Abbreviation Write := (Write_SD_sectors disk_bin disk_bin_null disk_bin_size malloc_ok).

Lemma Read_valid st address count dst :
  sd_wf st -> g_sd_ready st = true -> valid_range st address count ->
  Read st address count (Some dst)
  = match g_img_ram st with
    | Some ram =>
      (RES_OK, st,
       Some (memcpy dst (drop (Z.to_nat (address * SECTOR_SIZE)) ram)
                    (count * SECTOR_SIZE)))
    | None =>
      (RES_OK, st,
       Some (memcpy dst (rloop (Z.to_nat count) address st) (count * SECTOR_SIZE)))
    end.
Proof.
  intros [[Hc0 Hc1] _ _ _] Hr (Hc & Ha & Hrem). unfold SECTOR_SIZE in Hc1.
  unfold Read_SD_sectors. rewrite (ensure_ready _ _ _ _ _ Hr). cbn [negb].
  destruct (Z.eqb_spec count 0) as [E|_]; [lia|].
  destruct (Z.geb_spec address (g_sector_count st)) as [E|_]; [lia|].
  rewrite (u32_small (g_sector_count st - address)) by lia.
  destruct (Z.gtb_spec count (g_sector_count st - address)) as [E|_]; [lia|].
  rewrite (u32_small (address * SECTOR_SIZE)) by (unfold SECTOR_SIZE; lia).
  reflexivity.
Qed.

Lemma Write_valid st address count src :
  sd_wf st -> g_sd_ready st = true -> valid_range st address count ->
  Write st address count (Some src)
  = match g_img_ram st with
    | Some ram =>
      (RES_OK,
       store_ram (Some (memcpy_at ram (address * SECTOR_SIZE) src (count * SECTOR_SIZE))) st)
    | None => wloop (Z.to_nat count) address src st
    end.
Proof.
  intros [[Hc0 Hc1] _ _ _] Hr (Hc & Ha & Hrem). unfold SECTOR_SIZE in Hc1.
  unfold Write_SD_sectors. rewrite (ensure_ready _ _ _ _ _ Hr). cbn [negb].
  destruct (Z.eqb_spec count 0) as [E|_]; [lia|].
  destruct (Z.geb_spec address (g_sector_count st)) as [E|_]; [lia|].
  rewrite (u32_small (g_sector_count st - address)) by lia.
  destruct (Z.gtb_spec count (g_sector_count st - address)) as [E|_]; [lia|].
  rewrite (u32_small (address * SECTOR_SIZE)) by (unfold SECTOR_SIZE; lia).
  reflexivity.
Qed.

(** X2: in full-copy mode a valid range written and read back gives the
    bytes written; the store keeps its invariant. *)
Lemma full_copy_roundtrip st ram address count src dst :
  sd_wf st -> g_sd_ready st = true -> g_img_ram st = Some ram ->
  valid_range st address count ->
  count * SECTOR_SIZE <= Z.of_nat (length src) ->
  exists st',
    Write st address count (Some src) = (RES_OK, st') /\ sd_wf st'
    /\ Read st' address count (Some dst)
       = (RES_OK, st',
          Some (take (Z.to_nat (count * SECTOR_SIZE)) src
                ++ drop (Z.to_nat (count * SECTOR_SIZE)) dst)).
Proof.
  intros Hwf Hr Hram Hv Hsrc. pose proof Hv as (Hc & Ha & Hrem).
  pose proof Hwf as [[Hc0 Hc1] Hids Hdata Hlen]. specialize (Hlen ram Hram).
  unfold SECTOR_SIZE in *.
  set (off := Z.to_nat (address * 512)). set (n := Z.to_nat (count * 512)).
  set (ram' := memcpy_at ram (address * 512) src (count * 512)).
  assert (Hoff : length (take off ram) = off) by (unfold off; rewrite length_take; lia).
  assert (Hn : length (take n src) = n) by (unfold n; rewrite length_take; lia).
  assert (Hlen' : length ram' = length ram).
  { unfold ram', memcpy_at, memcpy. fold off n.
    rewrite !length_app, Hoff, Hn, !length_drop. unfold off, n. lia. }
  assert (Hwf' : sd_wf (store_ram (Some ram') st)).
  { split; simpl; [split; assumption|exact Hids|exact Hdata|].
    intros r [= <-]. rewrite Hlen'. exact Hlen. }
  exists (store_ram (Some ram') st). split; [|split; [exact Hwf'|]].
  - rewrite Write_valid by assumption. rewrite Hram. reflexivity.
  - rewrite Read_valid; [|exact Hwf'|exact Hr|exact Hv]. simpl.
    unfold memcpy at 1. fold off n. f_equal. f_equal. f_equal.
    unfold ram', memcpy_at, memcpy. fold off n.
    rewrite drop_app_length' by (symmetry; exact Hoff).
    apply take_app_length'. symmetry. exact Hn.
Qed.

(** X4: in overlay mode on an image of at most 65535 sectors, a valid range
    that was accepted reads back as the bytes written. *)
Lemma overlay_roundtrip_narrow st st' address count src dst :
  sd_wf st -> g_sd_ready st = true -> g_img_ram st = None ->
  g_sector_count st <= 65535 ->
  valid_range st address count ->
  count * SECTOR_SIZE <= Z.of_nat (length src) ->
  Write st address count (Some src) = (RES_OK, st') ->
  Read st' address count (Some dst)
  = (RES_OK, st',
     Some (take (Z.to_nat (count * SECTOR_SIZE)) src
           ++ drop (Z.to_nat (count * SECTOR_SIZE)) dst)).
Proof.
  intros Hwf Hr Hram Hnarrow Hv Hsrc. pose proof Hv as (Hc & Ha & Hrem).
  rewrite Write_valid by assumption. rewrite Hram. intros Hw.
  destruct (write_loop_frame (Z.to_nat count) address src st RES_OK st'
              Hwf ltac:(lia) ltac:(lia) Hw)
    as (Hwf' & (Hram' & Hcnt' & Hr') & _).
  rewrite Read_valid; [|exact Hwf'|congruence|unfold valid_range; rewrite Hcnt'; exact Hv].
  rewrite Hram', Hram.
  rewrite (read_loop_pieces (Z.to_nat count) address src st');
    [|lia|lia|exact (write_loop_written (Z.to_nat count) address src st st'
                       Hwf ltac:(lia) ltac:(lia) Hw)].
  unfold memcpy. f_equal. f_equal. f_equal.
  rewrite take_take. f_equal. unfold SECTOR_SIZE. lia.
Qed.

(** X5: in overlay mode on an image of at most 65535 sectors, whatever a
    write returns, every sector outside its range reads as before; the base
    image if it was never written, the payload of its last write otherwise. *)
Lemma overlay_frame_narrow st st' r address count src t :
  sd_wf st -> g_sd_ready st = true -> g_img_ram st = None ->
  g_sector_count st <= 65535 ->
  valid_range st address count ->
  Write st address count (Some src) = (r, st') ->
  0 <= t < g_sector_count st -> t < address \/ address + count <= t ->
  rsec st' t = rsec st t
  /\ (overlay_find st t = 65535 ->
      rsec st' t = disk_bytes disk_bin (t * SECTOR_SIZE) SECTOR_SIZE).
Proof.
  intros Hwf Hr Hram Hnarrow Hv. pose proof Hv as (Hc & Ha & Hrem).
  rewrite Write_valid by assumption. rewrite Hram. intros Hw Ht Hout.
  destruct (write_loop_frame (Z.to_nat count) address src st r st'
              Hwf ltac:(lia) ltac:(lia) Hw)
    as (_ & _ & Hfr).
  assert (E : rsec st' t = rsec st t) by (apply Hfr; lia).
  split; [exact E|]. intros Hmiss. rewrite E. unfold read_sector. rewrite Hmiss.
  destruct Hwf as [[_ Hc1] _ _ _]. unfold SECTOR_SIZE in *.
  rewrite u32_small by lia. reflexivity.
Qed.

(** X6: in overlay mode on an image of at most 65535 sectors, a write that
    runs out of entries returns [CapacityExceeded]; the sectors before the
    one that found no entry read back as written, and every other sector
    reads as before the call. *)
Lemma overlay_exhaustion_narrow st st' address count src :
  sd_wf st -> g_sd_ready st = true -> g_img_ram st = None ->
  g_sector_count st <= 65535 ->
  valid_range st address count ->
  Write st address count (Some src) = (CapacityExceeded, st') ->
  exists k, 0 <= k < count
    /\ goc st' (address + k) = (65535, st')
    /\ (forall j, 0 <= j < k ->
          rsec st' (address + j)
          = take (Z.to_nat SECTOR_SIZE)
                 (drop (Z.to_nat SECTOR_SIZE * Z.to_nat j) src))
    /\ (forall t, 0 <= t < g_sector_count st -> t < address \/ address + k <= t ->
          rsec st' t = rsec st t).
Proof.
  intros Hwf Hr Hram Hnarrow Hv. pose proof Hv as (Hc & Ha & Hrem).
  rewrite Write_valid by assumption. rewrite Hram. intros Hw.
  destruct (write_loop_error (Z.to_nat count) address src st st'
              ltac:(lia) ltac:(lia) Hw) as (k & Hk & Hpre & Hgoc).
  exists (Z.of_nat k). split; [lia|]. split; [exact Hgoc|]. split.
  - intros j Hj.
    pose proof (write_loop_written k address src st st' Hwf ltac:(lia) ltac:(lia)
                  Hpre (Z.to_nat j) ltac:(lia)) as E.
    rewrite Z2Nat.id in E by lia. exact E.
  - intros t Ht Hout.
    destruct (write_loop_frame k address src st _ st' Hwf ltac:(lia) ltac:(lia) Hpre)
      as (_ & _ & Hfr).
    apply Hfr; lia.
Qed.

End Narrow.

(** ** Why the overlay results stop at 65535 sectors

    The overlay keys its entries by [(u16)sector] and marks a free entry with
    [0xFFFF].  An image linked into the cartridge has fewer than 65536
    sectors, and the results above are stated for such stores.  The three
    runs below show that this bound cannot be dropped from them: they are on
    an all-zero image of 66048 sectors, larger than a cartridge holds, whose
    copy could not be allocated. *)

(** Sectors 65535 and 65536 in overlay mode: the range is valid and both
    sectors are accepted ([RES_OK], two of 256 entries used at most), yet
    reading the range back returns 512 zero bytes for sector 65535 instead of
    the 512 bytes written.  Sector 65535 was written into a free entry
    without claiming it, and sector 65536 then took that entry. *)
Remark overlay_roundtrip_fails_at_65535 :
  let src := replicate 512 x01 ++ replicate 512 x02 in
  let w := write_big overlay_fresh 65535 2 (Some src) in
  let r := read_big w.2 65535 2 (Some (replicate 1024 xff)) in
  g_sd_ready overlay_fresh = true /\ g_img_ram overlay_fresh = None
  /\ 65535 < g_sector_count overlay_fresh
  /\ 2 <= g_sector_count overlay_fresh - 65535
  /\ w.1 = RES_OK /\ r.1.1 = RES_OK
  /\ r.2 = Some (replicate 512 x00 ++ replicate 512 x02)
  /\ r.2 <> Some src.
Proof. vm_compute. repeat split; discriminate. Qed.

(** A write of 257 sectors from sector 65541 after sector 5 was written with
    bytes [x01]: the overlay runs out at the last sector and the write
    returns [RES_ERROR], but sector 5 no longer reads as written: its entry
    was taken for sector 65541, whose number has the same low sixteen bits,
    and sector 5 now reads as the bytes [x02]. *)
Remark overlay_exhaustion_loses_accepted_write :
  let w0 := write_big overlay_fresh 5 1 (Some (replicate 512 x01)) in
  let r0 := read_big w0.2 5 1 (Some (replicate 512 xff)) in
  let w := write_big w0.2 65541 257 (Some (replicate (257 * 512) x02)) in
  let r := read_big w.2 5 1 (Some (replicate 512 xff)) in
  w0.1 = RES_OK /\ r0.2 = Some (replicate 512 x01)
  /\ w.1 = CapacityExceeded
  /\ r.1.1 = RES_OK /\ r.2 = Some (replicate 512 x02)
  /\ r.2 <> r0.2.
Proof. vm_compute. repeat split; discriminate. Qed.

(** Sectors 5 and 65541 in overlay mode: after sector 5 alone was written,
    sector 65541, which is valid, differs from 5 and was never written, does
    not read as the base image (all zero) but as the bytes written to
    sector 5. *)
Remark overlay_write_changes_other_sector :
  let before := read_big overlay_fresh 65541 1 (Some (replicate 512 xff)) in
  let w := write_big overlay_fresh 5 1 (Some (replicate 512 x01)) in
  let after := read_big w.2 65541 1 (Some (replicate 512 xff)) in
  65541 < g_sector_count overlay_fresh
  /\ overlay_find overlay_fresh 65541 = 65535
  /\ before.2 = Some (disk_bytes zero_image (65541 * SECTOR_SIZE) SECTOR_SIZE)
  /\ w.1 = RES_OK
  /\ after.1.1 = RES_OK /\ after.2 = Some (replicate 512 x01)
  /\ after.2 <> before.2.
Proof. vm_compute. repeat split; discriminate. Qed.

End SDFacts.

(** * Properties of the filesystem *)

Module FSFacts.
Import FS FSSpec.

(** One step of the [run] monad. *)
Ltac run_step := cbn [mbind run_bind].

Lemma cstr_idem s : cstr (cstr s) = cstr s.
Proof.
  induction s as [|c r IH]; simpl; [reflexivity|].
  destruct (Ascii.eqb c NUL) eqn:E; simpl; [reflexivity|].
  rewrite E, IH. reflexivity.
Qed.

Lemma fs_resolve_cstr st path : fs_resolve st (cstr path) = fs_resolve st path.
Proof. unfold fs_resolve. rewrite cstr_idem. reflexivity. Qed.

Lemma mounted_ok : f_mount 32 fs_boot true = Done (FR_OK, mounted).
Proof. vm_compute. reflexivity. Qed.

(** ** Opening files *)

Section Open.
Variable FSIZE_BITS : Z.

(** A path that does not resolve, opened without a creation flag. *)
Lemma f_open_not_found st h path mode :
  g_mounted st = true ->
  fs_resolve st path = Done None ->
  has_bits mode (Z.lor (Z.lor FA_CREATE_ALWAYS FA_OPEN_ALWAYS) FA_CREATE_NEW) = false ->
  f_open FSIZE_BITS st (Some h) path mode = Done (NotFound, st, Some zero_FIL).
Proof.
  intros Hm Hr Hc. unfold f_open. rewrite Hm. simpl.
  rewrite fs_resolve_cstr, Hr. simpl. rewrite Hc. reflexivity.
Qed.

(** A path that resolves to a directory. *)
Lemma f_open_directory st h path mode i n :
  g_mounted st = true ->
  fs_resolve st path = Done (Some i) ->
  g_node_pool st !! i = Some n -> has_bits (attr n) AM_DIR = true ->
  f_open FSIZE_BITS st (Some h) path mode = Done (InvalidObject, st, Some zero_FIL).
Proof.
  intros Hm Hr Hn Hd. unfold f_open. rewrite Hm. simpl.
  rewrite fs_resolve_cstr, Hr. simpl. rewrite Hn. simpl. rewrite Hd. reflexivity.
Qed.

(** A successful open leaves the cursor at offset 0. *)
Lemma f_open_cursor st fp path mode st' h :
  f_open FSIZE_BITS st fp path mode = Done (FR_OK, st', Some h) -> fptr h = 0.
Proof.
  unfold f_open. destruct fp as [h0|]; [|discriminate].
  destruct (g_mounted st); simpl; [|discriminate].
  destruct (fs_resolve st (cstr path)) as [node|]; simpl; [|discriminate].
  match goal with |- (?m ≫= _) = _ -> _ => destruct m as [[[c s1]|[nd s1]]|] end;
    simpl; [intros [= _ _ <-]; reflexivity| |discriminate].
  destruct (deref s1 nd) as [n|]; simpl; [|discriminate].
  destruct (has_bits (attr n) AM_DIR); [discriminate|].
  destruct (g_fs s1); [|discriminate].
  intros [= _ <-]. reflexivity.
Qed.

(** A path that resolves to a file is opened whatever the mode is: the
    [FA_CREATE_NEW] test is made only after the path failed to resolve. *)
Lemma f_open_existing_file st h path mode i n fs :
  g_mounted st = true -> g_fs st = Some fs ->
  fs_resolve st path = Done (Some i) ->
  g_node_pool st !! i = Some n -> has_bits (attr n) AM_DIR = false ->
  exists h', f_open FSIZE_BITS st (Some h) path mode = Done (FR_OK, st, Some h')
             /\ dir_ptr h' = Some i /\ fptr h' = 0.
Proof.
  intros Hm Hfs Hr Hn Hd. unfold f_open. rewrite Hm. simpl.
  rewrite fs_resolve_cstr, Hr. simpl. rewrite Hn. simpl. rewrite Hd, Hfs.
  eexists. split; [reflexivity|]. split; reflexivity.
Qed.

End Open.

(** C3, at the file [/Readme.txt] of the mounted default layout, opened with
    [FA_CREATE_NEW | FA_WRITE]: the target exists and is a file, and [f_open]
    returns [FR_OK] with a handle on it instead of [AlreadyExists]. *)
Theorem create_new_opens_existing_file :
  let mode := Z.lor FA_CREATE_NEW FA_WRITE in
  g_mounted mounted = true
  /\ fs_resolve mounted "/Readme.txt" = Done (Some 8%nat)
  /\ (name <$> g_node_pool mounted !! 8%nat) = Some "Readme.txt"%string
  /\ has_bits mode FA_CREATE_NEW = true
  /\ (exists h, f_open 32 mounted (Some zero_FIL) "/Readme.txt" mode
                = Done (FR_OK, mounted, Some h) /\ dir_ptr h = Some 8%nat)
  /\ FR_OK <> AlreadyExists.
Proof.
  vm_compute. repeat split; try discriminate.
  eexists. split; reflexivity.
Qed.

(** ** Reading files *)

Lemma fsize_t_small bits z : 0 <= z < 2 ^ bits -> fsize_t bits z = z.
Proof. intros H. unfold fsize_t. apply Z.mod_small. exact H. Qed.

Lemma set_fptr_same h : set_fptr (fptr h) h = h.
Proof. destruct h. reflexivity. Qed.


(** ** Directory iteration *)

Lemma with_iter_with_iter d nx d' nx' st :
  with_iter d nx (with_iter d' nx' st) = with_iter d nx st.
Proof. reflexivity. Qed.

(** C9: on a mounted filesystem and an open [DIR], [f_readdir] with a null
    [FILINFO] pointer yields no entry and returns [FR_OK]; it only sets
    [g_iter_next] to the first child of the directory being iterated.  So the
    next call yields that first child again, and wherever the iteration that
    an [f_opendir] started has got to, the call brings back the state
    [f_opendir] left. *)
Theorem f_readdir_null_info_rewinds FNAME_LEN (st : fs_state) (d : DIR)
    (di : nat) (dn : FsNode) :
  g_mounted st = true -> dir d <> 0 ->
  g_iter_dir st = Some di -> g_node_pool st !! di = Some dn ->
  let st' := with_iter (Some di) (firstChild dn) st in
  f_readdir FNAME_LEN st (Some d) None = Done (FR_OK, st', None)
  /\ (forall c cn info,
        firstChild dn = Some c -> g_node_pool st !! c = Some cn ->
        f_readdir FNAME_LEN st' (Some d) (Some info)
        = Done (FR_OK, with_iter (Some di) (nextSibling cn) st',
                Some (fill_info FNAME_LEN cn)))
  /\ (forall st0 dp path d1,
        f_opendir st0 dp path = Done (FR_OK, st, Some d1) ->
        forall nx,
          f_readdir FNAME_LEN (with_iter (g_iter_dir st) nx st) (Some d1) None
          = Done (FR_OK, st, None)).
Proof.
  intros Hm Hd Hi Hn st'.
  assert (Hz : (dir d =? 0) = false) by (apply Z.eqb_neq; exact Hd).
  split; [|split].
  - unfold f_readdir. rewrite Hm, Hz, Hi. simpl. rewrite Hn. reflexivity.
  - intros c cn info Hc Hcn. unfold f_readdir. simpl. rewrite Hm, Hz, Hc. simpl.
    rewrite Hcn. reflexivity.
  - intros st0 dp path d1. unfold f_opendir.
    destruct dp as [d0|]; [|discriminate].
    destruct (g_mounted st0) eqn:Hm0; simpl; [|discriminate].
    match goal with |- (?m ≫= _) = _ -> _ => destruct m as [[j|]|] end;
      simpl; [|discriminate|discriminate].
    destruct (g_node_pool st0 !! j) as [n|] eqn:Hj; simpl; [|discriminate].
    destruct (has_bits (attr n) AM_DIR); simpl; [|discriminate].
    intros [= <- <-] nx. unfold f_readdir. simpl. rewrite Hm0. simpl.
    rewrite Hj. reflexivity.
Qed.

(** ** Cluster numbering *)

Lemma pow_bits_ge bits : 32 <= bits -> 4294967296 <= 2 ^ bits.
Proof.
  intros H. change 4294967296 with (2 ^ 32). apply Z.pow_le_mono_r; lia.
Qed.

Lemma round_up_div_is_ceil sz csb :
  0 < csb -> (sz + csb - 1) / csb = ceil_div sz csb.
Proof.
  intros Hc. unfold ceil_div.
  pose proof (Z.div_mod (sz + csb - 1) csb ltac:(lia)) as E.
  pose proof (Z.mod_pos_bound (sz + csb - 1) csb Hc) as B.
  set (q := (sz + csb - 1) / csb) in *. set (r := (sz + csb - 1) mod csb) in *.
  assert (H : (- sz) / csb = - q).
  { symmetry. apply (Z.div_unique_pos (- sz) csb (- q) (csb - 1 - r)); lia. }
  lia.
Qed.

Lemma cluster_count_ceil bits sz csb :
  32 <= bits -> 0 <= sz -> 0 < csb -> sz + csb <= 4294967296 ->
  cluster_count bits sz csb = Z.max 1 (ceil_div sz csb).
Proof.
  intros Hb Hs Hc Hsum. pose proof (pow_bits_ge bits Hb) as Hp.
  unfold cluster_count. rewrite fsize_t_small by lia.
  rewrite <- round_up_div_is_ceil by exact Hc.
  assert (Hq : 0 <= (sz + csb - 1) / csb) by (apply Z.div_pos; lia).
  assert (Hq' : (sz + csb - 1) / csb < 4294967296).
  { apply Z.div_lt_upper_bound; nia. }
  rewrite SDFacts.u32_small by lia.
  destruct (Z.eqb_spec ((sz + csb - 1) / csb) 0); lia.
Qed.

(** C6: the cluster counter is 2 at program start and [f_mount] numbers the
    files of the default layout from 2 on, each where the previous one ends.
    [fs_assign_clusters] gives a file the current value of the counter as
    its start and advances the counter by the file's cluster count,
    [ceil (size / clusterSizeBytes)] and at least 1, with
    [clusterSizeBytes = csize * 512].  For an object of exactly
    [2 * clusterSizeBytes] bytes starting at [start], [Get_NextCluster] of
    [start] is [start + 1] and that of [start + 1] is the end mark
    [0xFFFF]. *)
Theorem cluster_chain_arithmetic FSIZE_BITS (st : fs_state) (fs : FATFS)
    (i : nat) (n : FsNode) (start : Z) :
  32 <= FSIZE_BITS ->
  g_fs st = Some fs -> 0 < csize fs < 65536 ->
  g_node_pool st !! i = Some n -> has_bits (attr n) AM_DIR = false ->
  0 <= size n -> size n + csize fs * 512 <= 4294967296 ->
  0 < start < 4294967295 ->
  let clusterSizeBytes := csize fs * 512 in
  let ncl := Z.max 1 (ceil_div (size n) clusterSizeBytes) in
  (g_nextCluster fs_boot = 2
   /\ file_clusters mounted = [2; 3; 4099; 12291; 12419; 12420; 28804]
   /\ g_nextCluster mounted = 36996)
  /\ (exists st',
        fs_assign_clusters FSIZE_BITS st (Some i) = Done st'
        /\ (startCluster <$> g_node_pool st' !! i) = Some (g_nextCluster st)
        /\ g_nextCluster st' = u32 (g_nextCluster st + ncl)
        /\ 1 <= ncl)
  /\ (forall o : FFOBJID,
        objsize o = 2 * clusterSizeBytes -> sclust o = start ->
        Get_NextCluster FSIZE_BITS st (Some o) start = start + 1
        /\ Get_NextCluster FSIZE_BITS st (Some o) (start + 1) = 65535).
Proof.
  intros Hb Hfs Hcs Hn Hfile Hs Hsum Hstart csb ncl.
  assert (Hu : u32 (csize fs * 512) = csb) by (apply SDFacts.u32_small; unfold csb; lia).
  assert (Hcsb : 0 < csb) by (unfold csb; lia).
  split; [|split].
  - vm_compute. repeat split.
  - unfold fs_assign_clusters. simpl. rewrite Hn. simpl. rewrite Hfile, Hfs, Hu.
    destruct (Z.eqb_spec csb 0) as [E|_]; [lia|].
    unfold update. rewrite Hn. simpl.
    eexists. split; [reflexivity|]. simpl.
    rewrite list_lookup_insert_eq by (eapply lookup_lt_Some; exact Hn).
    rewrite cluster_count_ceil by (unfold csb; lia).
    repeat split. unfold ncl. lia.
  - intros o Hsz Hsc. unfold Get_NextCluster. rewrite Hfs, Hu, Hsz, Hsc.
    destruct (Z.eqb_spec csb 0) as [E|_]; [lia|].
    rewrite cluster_count_ceil by lia.
    rewrite <- round_up_div_is_ceil by exact Hcsb.
    assert (Hq : (2 * csb + csb - 1) / csb = 2).
    { symmetry. apply (Z.div_unique_pos _ csb 2 (csb - 1)); lia. }
    rewrite Hq. change (Z.max 1 2) with 2.
    destruct (Z.eqb_spec start 0) as [E|_]; [lia|].
    split.
    + destruct (Z.ltb_spec start start) as [E|_]; [lia|].
      rewrite Z.sub_diag. change (u32 0) with 0. change (u32 (0 + 1)) with 1.
      change (1 >=? 2) with false. cbv iota.
      rewrite Z.add_0_r. rewrite (SDFacts.u32_small start) by lia.
      apply SDFacts.u32_small. lia.
    + destruct (Z.ltb_spec (start + 1) start) as [E|_]; [lia|].
      replace (start + 1 - start) with 1 by lia. reflexivity.
Qed.

(** ** Child lists *)

Lemma chain_det pool s l l' : chain pool s l -> chain pool s l' -> l = l'.
Proof.
  revert s l'. induction l as [|x r IH]; intros s l' H H'.
  - simpl in H. subst s. destruct l' as [|y r']; [reflexivity|].
    destruct H' as [H' _]. discriminate.
  - destruct H as [-> (n & Hn & Hr)]. destruct l' as [|y r'].
    + simpl in H'. discriminate.
    + destruct H' as [[= <-] (n' & Hn' & Hr')].
      rewrite Hn in Hn'. injection Hn' as <-.
      f_equal. eapply IH; eassumption.
Qed.

Lemma chain_suffix pool s a x b :
  chain pool s (a ++ x :: b) -> chain pool (Some x) (x :: b).
Proof.
  revert s. induction a as [|y a IH]; intros s H.
  - destruct H as [_ H]. split; [reflexivity|exact H].
  - destruct H as [_ (n & _ & Hr)]. eapply IH. exact Hr.
Qed.

Lemma chain_bound pool s l x : chain pool s l -> x ∈ l -> (x < length pool)%nat.
Proof.
  revert s. induction l as [|y r IH]; intros s H Hx.
  - inversion Hx.
  - destruct H as [_ (n & Hn & Hr)]. apply elem_of_cons in Hx as [->|Hx].
    + eapply lookup_lt_Some. exact Hn.
    + eapply IH; eassumption.
Qed.

Lemma chain_NoDup pool s l : chain pool s l -> NoDup l.
Proof.
  revert s. induction l as [|x r IH]; intros s H.
  - constructor.
  - pose proof H as H0. destruct H as [-> (n & Hn & Hr)].
    constructor; [|eapply IH; exact Hr].
    intros Hx. apply list_elem_of_split in Hx as (a & b & ->).
    pose proof (chain_suffix pool _ a x b Hr) as Hs.
    pose proof (chain_det _ _ _ _ H0 Hs) as E.
    apply (f_equal length) in E. simpl in E. rewrite length_app in E.
    simpl in E. lia.
Qed.

Lemma chain_length pool s l : chain pool s l -> (length l <= length pool)%nat.
Proof.
  intros H.
  assert (Hs : l ⊆+ seq 0 (length pool)).
  { apply NoDup_submseteq.
    - eapply chain_NoDup. exact H.
    - intros x Hx. apply elem_of_seq. pose proof (chain_bound _ _ _ _ H Hx). lia. }
  apply submseteq_length in Hs. rewrite length_seq in Hs. exact Hs.
Qed.

(** A chain only depends on the [nextSibling] fields of its nodes. *)
Lemma chain_ext pool pool' s l :
  chain pool s l ->
  (forall x n, x ∈ l -> pool !! x = Some n ->
     exists n', pool' !! x = Some n' /\ nextSibling n' = nextSibling n) ->
  chain pool' s l.
Proof.
  revert s. induction l as [|x r IH]; intros s H Hsame.
  - exact H.
  - destruct H as [-> (n & Hn & Hr)]. split; [reflexivity|].
    destruct (Hsame x n ltac:(left) Hn) as (n' & Hn' & E).
    exists n'. split; [exact Hn'|]. rewrite E. apply IH; [exact Hr|].
    intros y m Hy Hm. apply Hsame; [right; exact Hy|exact Hm].
Qed.

(** Taking [i] out after [q]: [q] now points to what followed [i]. *)
Lemma chain_splice pool pool' s l1 q i l2 ni nq' :
  chain pool s (l1 ++ q :: i :: l2) ->
  pool !! i = Some ni ->
  pool' !! q = Some nq' -> nextSibling nq' = nextSibling ni ->
  (forall x n, x ∈ l1 ++ l2 -> pool !! x = Some n ->
     exists n', pool' !! x = Some n' /\ nextSibling n' = nextSibling n) ->
  chain pool' s (l1 ++ q :: l2).
Proof.
  revert s. induction l1 as [|x l1 IH]; intros s H Hi Hq Hqn Hsame.
  - destruct H as [-> (nq & Hnq & [E (ni' & Hni' & Hr)])].
    rewrite Hi in Hni'. injection Hni' as <-.
    split; [reflexivity|]. exists nq'. split; [exact Hq|].
    rewrite Hqn. eapply chain_ext; [exact Hr|]. exact Hsame.
  - destruct H as [-> (n & Hn & Hr)]. split; [reflexivity|].
    destruct (Hsame x n ltac:(left) Hn) as (n' & Hn' & E).
    exists n'. split; [exact Hn'|]. rewrite E. apply IH; try assumption.
    intros y m Hy Hm. apply Hsame; [right; exact Hy|exact Hm].
Qed.

Lemma deref_lookup st i n : g_node_pool st !! i = Some n -> deref st (Some i) = Done n.
Proof. intros H. unfold deref. rewrite H. reflexivity. Qed.

(** The scan of [f_unlink] stops at [i] with [prev] on the node before it. *)
Lemma detach_scan_chain st fuel prev s l1 i l2 :
  chain (g_node_pool st) s (l1 ++ i :: l2) -> i ∉ l1 ->
  (length l1 <= fuel)%nat ->
  detach_scan fuel st prev s i
  = Done (match last l1 with Some q => Some q | None => prev end, Some i).
Proof.
  revert fuel prev s. induction l1 as [|x l1 IH]; intros fuel prev s H Hni Hf.
  - destruct H as [-> _]. destruct fuel; simpl; rewrite Nat.eqb_refl; reflexivity.
  - destruct H as [-> (n & Hn & Hr)]. simpl in Hf.
    destruct fuel as [|fuel]; [lia|]. simpl.
    destruct (Nat.eqb_spec x i) as [->|Hne]; [exfalso; apply Hni; left|].
    unfold deref. rewrite Hn. simpl.
    rewrite (IH fuel (Some x) (nextSibling n) Hr) by
      first [intros Hx; apply Hni; right; exact Hx | lia].
    destruct l1 as [|y l1']; [reflexivity|].
    simpl. destruct (last (y :: l1')) eqn:E; [reflexivity|].
    apply last_None in E. discriminate.
Qed.

(** A child lookup only returns nodes of the child list. *)
Lemma find_loop_in_chain st fuel s nm x l :
  chain (g_node_pool st) s l ->
  find_loop fuel st s nm = Done (Some x) -> x ∈ l.
Proof.
  revert s l. induction fuel as [|fuel IH]; intros s l H.
  - destruct s; simpl; discriminate.
  - destruct l as [|y r].
    + simpl in H. subst s. simpl. discriminate.
    + destruct H as [-> (n & Hn & Hr)]. simpl. unfold deref. rewrite Hn. simpl.
      destruct (strcasecmp_eq (name n) nm).
      * intros [= <-]. left.
      * intros Hf. right. eapply IH; eassumption.
Qed.

(** The scan of [fs_alloc_node] finds a free slot when there is one among
    the used ones. *)
Lemma scan_free_finds pool k used i n :
  pool !! i = Some n -> is_free n = true -> (i < used)%nat ->
  exists j, scan_free pool k used = Some (k + j)%nat /\ (j <= i)%nat.
Proof.
  revert k used i. induction pool as [|m pool IH]; intros k used i Hn Hfree Hi.
  - rewrite lookup_nil in Hn. discriminate.
  - destruct used as [|used]; [lia|]. simpl.
    destruct (is_free m) eqn:Em.
    + exists O. split; [f_equal; lia|lia].
    + destruct i as [|i]; [simpl in Hn; congruence|].
      destruct (IH (S k) used i Hn Hfree ltac:(lia)) as (j & E & Hj).
      exists (S j). split; [rewrite E; f_equal; lia|lia].
Qed.

Lemma NoDup_around (l1 l2 : list nat) (i : nat) :
  NoDup (l1 ++ i :: l2) -> (i ∉ l1) /\ (i ∉ l2) /\ (i ∉ l1 ++ l2).
Proof.
  intros H. apply NoDup_app in H as (_ & H1 & H2).
  apply NoDup_cons in H2 as [H2 _].
  assert (Hl1 : i ∉ l1) by (intros Hx; apply (H1 i Hx); left).
  repeat split; try assumption.
  intros Hx. apply elem_of_app in Hx as [Hx|Hx]; contradiction.
Qed.

Lemma alloc_reuses st i n :
  g_node_pool st !! i = Some n -> is_free n = true -> (i < g_node_used st)%nat ->
  exists j, (fs_alloc_node st).1 = Some j /\ (j <= i)%nat.
Proof.
  intros Hn Hf Hu.
  destruct (scan_free_finds _ O _ _ _ Hn Hf Hu) as (j & E & Hj).
  exists j. unfold fs_alloc_node. rewrite E. split; [reflexivity|exact Hj].
Qed.

(** ** Unlinking *)

(** C8, for a path that resolves to a node of the pool: [f_unlink] is
    refused with [FR_DENIED] for the root and for a directory that has a
    child.  Otherwise, when the parent of the node is another node whose
    child list (a sibling chain that ends) has the node in it, and the slot
    of the node is below [g_node_used], it returns [FR_OK]; the parent's
    child list is the old one without the node, so neither the walk of a
    directory iteration nor a lookup in the parent reaches it; the content
    buffer is released; and the slot is left with an empty name and no
    attribute bits, which [fs_alloc_node] takes for free: the next
    allocation succeeds with this slot or an earlier free one. *)
Theorem f_unlink_detaches_and_frees (st : fs_state) (path : string) (i : nat)
    (nd : FsNode) :
  fs_resolve st path = Done (Some i) ->
  g_node_pool st !! i = Some nd ->
  (Some i = g_root st -> f_unlink st path = Done (Denied, st))
  /\ (has_bits (attr nd) AM_DIR = true -> firstChild nd <> None ->
      f_unlink st path = Done (Denied, st))
  /\ (Some i <> g_root st ->
      has_bits (attr nd) AM_DIR = false \/ firstChild nd = None ->
      forall p pn l1 l2,
        parent nd = Some p -> p <> i -> g_node_pool st !! p = Some pn ->
        chain (g_node_pool st) (firstChild pn) (l1 ++ i :: l2) ->
        (i < g_node_used st)%nat ->
        exists st' pn' slot,
          f_unlink st path = Done (FR_OK, st')
          /\ g_node_pool st' !! p = Some pn'
          /\ chain (g_node_pool st') (firstChild pn') (l1 ++ l2)
          /\ (i ∉ l1 ++ l2)
          /\ (forall nm, fs_find_child st' (Some p) nm <> Done (Some i))
          /\ g_node_pool st' !! i = Some slot
          /\ name slot = EmptyString /\ attr slot = 0 /\ data slot = None
          /\ exists j, (fs_alloc_node st').1 = Some j /\ (j <= i)%nat).
Proof.
  intros Hr Hn. split; [|split].
  - intros Hroot. unfold f_unlink. rewrite Hr. simpl.
    rewrite bool_decide_true by exact Hroot. reflexivity.
  - intros Hd Hc. unfold f_unlink. rewrite Hr. simpl.
    destruct (bool_decide (Some i = g_root st)); [reflexivity|].
    rewrite Hn. simpl. rewrite Hd, bool_decide_true by exact Hc. reflexivity.
  - intros Hnr Hok p pn l1 l2 Hp Hpi Hpn Hch Hused.
    pose proof (chain_NoDup _ _ _ Hch) as Hnd.
    destruct (NoDup_around _ _ _ Hnd) as (Hi1 & Hi2 & Hi12).
    pose proof (chain_length _ _ _ Hch) as Hlen. rewrite length_app in Hlen.
    assert (Hguard : has_bits (attr nd) AM_DIR && bool_decide (firstChild nd <> None)
                     = false).
    { destruct Hok as [-> | ->]; [reflexivity|].
      rewrite bool_decide_false by congruence. apply andb_false_r. }
    assert (Hili : (i < length (g_node_pool st))%nat)
      by (eapply lookup_lt_Some; exact Hn).
    assert (Hpl : (p < length (g_node_pool st))%nat)
      by (eapply lookup_lt_Some; exact Hpn).
    assert (Hfree : is_free (unlinked nd) = true) by reflexivity.
    assert (Hdr : deref st (Some i) = Done nd) by (apply deref_lookup; exact Hn).
    assert (Hdp : deref st (Some p) = Done pn) by (apply deref_lookup; exact Hpn).
    unfold f_unlink. rewrite Hr. run_step.
    rewrite bool_decide_false by exact Hnr. rewrite Hdr. run_step.
    rewrite Hguard, Hp, Hdp. run_step.
    rewrite (detach_scan_chain st (walk_fuel st) None _ l1 i l2 Hch Hi1)
      by (unfold walk_fuel; lia).
    run_step. rewrite Hdr. run_step.
    destruct (last l1) as [q|] eqn:El.
    + apply last_Some in El as [l1' ->].
      rewrite <- app_assoc in Hch, Hnd. simpl in Hch, Hnd.
      assert (Hq : q ∈ l1' ++ q :: i :: l2) by (apply elem_of_app; right; left).
      pose proof (chain_bound _ _ _ _ Hch Hq) as Hql.
      destruct (lookup_lt_is_Some_2 _ _ Hql) as [nq Hnq].
      assert (Hqi : q <> i).
      { intros ->. apply Hi1. apply elem_of_app. right. left. }
      set (pool' := <[i := unlinked nd]>
                      (<[q := set_nextSibling (nextSibling nd) nq]> (g_node_pool st))).
      assert (Hother : forall x, x <> q -> x <> i -> pool' !! x = g_node_pool st !! x).
      { intros x Hxq Hxi. unfold pool'.
        rewrite list_lookup_insert_ne by congruence.
        rewrite list_lookup_insert_ne by congruence. reflexivity. }
      assert (Hq' : pool' !! q = Some (set_nextSibling (nextSibling nd) nq)).
      { unfold pool'. rewrite list_lookup_insert_ne by congruence.
        apply list_lookup_insert_eq. exact Hql. }
      assert (Hi' : pool' !! i = Some (unlinked nd)).
      { unfold pool'. apply list_lookup_insert_eq. rewrite length_insert. exact Hili. }
      assert (Hch' : chain pool' (firstChild pn) ((l1' ++ [q]) ++ l2)).
      { rewrite <- app_assoc. simpl.
        eapply (chain_splice _ pool' _ l1' q i l2 nd); try eassumption; [reflexivity|].
        intros x n Hx Hxn. exists n. split; [|reflexivity].
        rewrite Hother; [exact Hxn| |].
        - intros ->. apply NoDup_app in Hnd as (_ & Hd1 & Hd2).
          apply NoDup_cons in Hd2 as [Hd2 Hd3].
          apply elem_of_app in Hx as [Hx|Hx].
          + apply (Hd1 q Hx). left.
          + apply Hd2. right. exact Hx.
        - intros ->. apply Hi12. rewrite <- app_assoc. simpl.
          apply elem_of_app in Hx as [Hx|Hx]; apply elem_of_app;
            [left; exact Hx|right; right; exact Hx]. }
      assert (Hp' : exists pn', pool' !! p = Some pn' /\ firstChild pn' = firstChild pn).
      { destruct (decide (p = q)) as [->|Hpq].
        - rewrite Hnq in Hpn. injection Hpn as ->. eexists. split; [exact Hq'|reflexivity].
        - exists pn. split; [|reflexivity]. rewrite Hother by congruence. exact Hpn. }
      destruct Hp' as (pn' & Hpn' & Hfc).
      exists (with_pool pool' st), pn', (unlinked nd).
      split.
      { unfold update. rewrite Hnq. run_step.
        cbn [g_node_pool with_pool]. rewrite list_lookup_insert_ne by exact Hqi.
        rewrite Hn. reflexivity. }
      cbn [g_node_pool with_pool g_node_used].
      split; [exact Hpn'|]. rewrite Hfc.
      split; [exact Hch'|]. split; [exact Hi12|].
      split.
      { intros nm. unfold fs_find_child, deref. cbn [g_node_pool with_pool].
        rewrite Hpn'. run_step.
        destruct (has_bits (attr pn') AM_DIR); cbn [negb]; [|discriminate].
        rewrite Hfc. intros Hf. apply Hi12.
        eapply find_loop_in_chain; [|exact Hf]. exact Hch'. }
      split; [exact Hi'|]. repeat split.
      eapply alloc_reuses; [exact Hi'|exact Hfree|exact Hused].
    + apply last_None in El. subst l1. cbn [app] in *.
      destruct Hch as [Hfc (nd' & Hnd' & Hrest)].
      rewrite Hn in Hnd'. injection Hnd' as <-.
      set (pool' := <[i := unlinked nd]>
                      (<[p := set_firstChild (nextSibling nd) pn]> (g_node_pool st))).
      assert (Hp' : pool' !! p = Some (set_firstChild (nextSibling nd) pn)).
      { unfold pool'. rewrite list_lookup_insert_ne by congruence.
        apply list_lookup_insert_eq. exact Hpl. }
      assert (Hi' : pool' !! i = Some (unlinked nd)).
      { unfold pool'. apply list_lookup_insert_eq. rewrite length_insert. exact Hili. }
      assert (Hch' : chain pool' (nextSibling nd) l2).
      { eapply chain_ext; [exact Hrest|].
        intros x n Hx Hxn.
        assert (Hxi : x <> i) by (intros ->; contradiction).
        destruct (decide (x = p)) as [->|Hxp].
        - rewrite Hpn in Hxn. injection Hxn as <-.
          eexists. split; [exact Hp'|reflexivity].
        - exists n. split; [|reflexivity]. unfold pool'.
          rewrite list_lookup_insert_ne by congruence.
          rewrite list_lookup_insert_ne by congruence. exact Hxn. }
      exists (with_pool pool' st), (set_firstChild (nextSibling nd) pn), (unlinked nd).
      split.
      { unfold update. rewrite Hpn. run_step.
        cbn [g_node_pool with_pool]. rewrite list_lookup_insert_ne by exact Hpi.
        rewrite Hn. reflexivity. }
      cbn [g_node_pool with_pool g_node_used].
      split; [exact Hp'|]. split; [exact Hch'|]. split; [exact Hi2|].
      split.
      { intros nm. unfold fs_find_child, deref. cbn [g_node_pool with_pool].
        rewrite Hp'. run_step.
        destruct (has_bits (attr (set_firstChild (nextSibling nd) pn)) AM_DIR);
          cbn [negb]; [|discriminate].
        intros Hf. apply Hi2.
        eapply find_loop_in_chain; [|exact Hf]. exact Hch'. }
      split; [exact Hi'|]. repeat split.
      eapply alloc_reuses; [exact Hi'|exact Hfree|exact Hused].
Qed.

(** ** The theorems at work on the default layout *)


Lemma system_listing_reached :
  exists st1 info,
    f_opendir mounted (Some (mk_dir 0)) "/SYSTEM" = Done (FR_OK, st1, Some (mk_dir 1))
    /\ f_readdir 255 st1 (Some (mk_dir 1)) (Some (mk_filinfo "" 0 0))
       = Done (FR_OK, system_listing, Some info)
    /\ fname info = "PATCH"%string.
Proof.
  eexists _, _. split; [vm_compute; reflexivity|].
  split; vm_compute; reflexivity.
Qed.

(** Rewinding the iteration of [/SYSTEM] after its first entry was read. *)
Lemma f_readdir_null_info_rewinds_witness :
  (g_mounted system_listing = true /\ dir (mk_dir 1) <> 0
   /\ g_iter_dir system_listing = Some 1%nat)
  /\ f_readdir 255 system_listing (Some (mk_dir 1)) None
     = Done (FR_OK, with_iter (Some 1%nat) (Some 2%nat) mounted, None).
Proof.
  assert (Hd : dir (mk_dir 1) <> 0) by discriminate.
  split; [repeat split; exact Hd|].
  destruct (f_readdir_null_info_rewinds 255 system_listing (mk_dir 1) 1
              (node_at mounted 1) eq_refl Hd eq_refl eq_refl) as [H _].
  exact H.
Defined.

(** [fs_assign_clusters] on [/Readme.txt] and the chain of a file of two
    clusters that starts at cluster 12419. *)
Lemma cluster_chain_arithmetic_witness :
  (g_fs mounted = Some default_fatfs /\ 0 < csize default_fatfs < 65536
   /\ g_node_pool mounted !! 8%nat = Some (node_at mounted 8))
  /\ (exists st', fs_assign_clusters 32 mounted (Some 8%nat) = Done st'
                  /\ g_nextCluster st' = 36997)
  /\ Get_NextCluster 32 mounted (Some (mk_obj None 0 AM_ARC 12419 4096)) 12419 = 12420
  /\ Get_NextCluster 32 mounted (Some (mk_obj None 0 AM_ARC 12419 4096)) 12420 = 65535.
Proof.
  assert (Hc : 0 < csize default_fatfs < 65536) by (vm_compute; split; reflexivity).
  split; [repeat split; apply Hc|].
  destruct (cluster_chain_arithmetic 32 mounted default_fatfs 8 (node_at mounted 8) 12419)
    as (_ & (st' & Ha & _ & Hnext & _) & Hchain).
  - lia.
  - reflexivity.
  - exact Hc.
  - reflexivity.
  - reflexivity.
  - vm_compute. discriminate.
  - vm_compute. discriminate.
  - lia.
  - split; [exists st'; split; [exact Ha|exact Hnext]|].
    apply (Hchain (mk_obj None 0 AM_ARC 12419 4096)); reflexivity.
Defined.

(** Unlinking the empty directory [/SYSTEM/PLUG], the second of the three
    children of [/SYSTEM]. *)
Lemma f_unlink_detaches_and_frees_witness :
  (fs_resolve mounted "/SYSTEM/PLUG" = Done (Some 3%nat)
   /\ Some 3%nat <> g_root mounted
   /\ firstChild (node_at mounted 3) = None
   /\ parent (node_at mounted 3) = Some 1%nat
   /\ chain (g_node_pool mounted) (firstChild (node_at mounted 1)) ([2] ++ 3 :: [4])%nat)
  /\ exists st' pn',
       f_unlink mounted "/SYSTEM/PLUG" = Done (FR_OK, st')
       /\ g_node_pool st' !! 1%nat = Some pn'
       /\ chain (g_node_pool st') (firstChild pn') [2; 4]%nat
       /\ (name <$> g_node_pool st' !! 3%nat) = Some EmptyString.
Proof.
  assert (Hr : fs_resolve mounted "/SYSTEM/PLUG" = Done (Some 3%nat)) by reflexivity.
  assert (Hroot : Some 3%nat <> g_root mounted) by discriminate.
  assert (Hch : chain (g_node_pool mounted) (firstChild (node_at mounted 1))
                      ([2] ++ 3 :: [4])%nat).
  { vm_compute. repeat (split; [reflexivity|]; eexists; split; [reflexivity|]).
    reflexivity. }
  split; [exact (conj Hr (conj Hroot (conj eq_refl (conj eq_refl Hch))))|].
  destruct (f_unlink_detaches_and_frees mounted "/SYSTEM/PLUG" 3 (node_at mounted 3)
              Hr eq_refl) as (_ & _ & H).
  destruct (H Hroot (or_intror eq_refl) 1%nat (node_at mounted 1) [2%nat] [4%nat]
              eq_refl ltac:(discriminate) eq_refl Hch ltac:(vm_compute; lia))
    as (st' & pn' & slot & Hu & Hp & Hc & _ & _ & Hs & Hname & _).
  exists st', pn'. split; [exact Hu|]. split; [exact Hp|]. split; [exact Hc|].
  rewrite Hs. simpl. rewrite Hname. reflexivity.
Defined.

(** C8 as stated fails in three ways.  A path that does not resolve is
    answered [FR_NO_FILE].  After [Readme.txt] was renamed to [Sample.gb],
    beside the file of that name, [f_unlink] of [/Sample.gb] succeeds and the
    path still resolves, to the other of the two.  And a slot that no parent
    lists, reached by the path [.] once the current directory was unlinked,
    is neither the root nor a directory, yet [f_unlink] answers
    [FR_INT_ERR]. *)
Lemma unlink_not_as_claimed :
  (exists st, f_unlink mounted "/NOPE" = Done (FR_NO_FILE, st))
  /\ (exists st1 st2,
        f_rename mounted "Readme.txt" "Sample.gb" = Done (FR_OK, st1)
        /\ fs_resolve st1 "/Sample.gb" = Done (Some 7%nat)
        /\ f_unlink st1 "/Sample.gb" = Done (FR_OK, st2)
        /\ fs_resolve st2 "/Sample.gb" = Done (Some 8%nat)
        /\ fs_resolve st2 "/Sample.gb" <> Done None)
  /\ (exists st1 st2,
        f_chdir mounted "/SYSTEM/PATCH" = Done (FR_OK, st1)
        /\ f_unlink st1 "." = Done (FR_OK, st2)
        /\ fs_resolve st2 "." = Done (Some 2%nat)
        /\ Some 2%nat <> g_root st2
        /\ has_bits (attr (node_at st2 2)) AM_DIR = false
        /\ f_unlink st2 "." = Done (FR_INT_ERR, st2)).
Proof.
  split; [eexists; vm_compute; reflexivity|]. split.
  - eexists _, _. split; [vm_compute; reflexivity|].
    split; [vm_compute; reflexivity|]. split; [vm_compute; reflexivity|].
    split; [vm_compute; reflexivity|]. discriminate.
  - eexists _, _. split; [vm_compute; reflexivity|].
    split; [vm_compute; reflexivity|]. split; [vm_compute; reflexivity|].
    split; [discriminate|]. split; vm_compute; reflexivity.
Qed.

End FSFacts.

(** * More on the sector store *)

Module SDMore.
Import SD SDSpec SDFacts.

(** The fields of a store that was built by the setters. *)
Ltac sd_proj :=
  cbn [g_img_ram g_img_size g_sector_count g_sd_ready overlay_sector_id
       overlay_sector_data overlay_used_count store_ram store_ids store_data
       store_used overlay_init] in *.

(** ** Bytes of the image *)

Lemma map_seq_shift {A} (f : nat -> A) a n :
  map f (seq a n) = map (fun k => f (a + k)%nat) (seq 0 n).
Proof.
  revert a f. induction n as [|n IH]; intros a f; [reflexivity|].
  cbn [seq map]. f_equal; [f_equal; lia|].
  rewrite (IH (S a) f), (IH 1%nat (fun k => f (a + k)%nat)).
  apply map_ext. intros k. f_equal. lia.
Qed.

Lemma disk_bytes_app (disk_bin : Z -> byte) off a b :
  0 <= a -> 0 <= b ->
  disk_bytes disk_bin off a ++ disk_bytes disk_bin (off + a) b
  = disk_bytes disk_bin off (a + b).
Proof.
  intros Ha Hb. unfold disk_bytes.
  rewrite Z2Nat.inj_add by lia. rewrite seq_app, map_app. f_equal.
  rewrite (map_seq_shift _ (0 + Z.to_nat a)).
  apply map_ext. intros k. f_equal. lia.
Qed.

Lemma disk_bytes_slice (disk_bin : Z -> byte) total off n :
  0 <= off -> 0 <= n -> off + n <= total ->
  take (Z.to_nat n) (drop (Z.to_nat off) (disk_bytes disk_bin 0 total))
  = disk_bytes disk_bin off n.
Proof.
  intros Ho Hn Ht.
  replace total with (off + (n + (total - off - n))) by lia.
  rewrite <- (disk_bytes_app disk_bin 0 off) by lia.
  rewrite drop_app_length' by (rewrite length_disk_bytes; reflexivity).
  rewrite <- (disk_bytes_app disk_bin (0 + off) n) by lia.
  rewrite take_app_length' by (rewrite length_disk_bytes; reflexivity).
  f_equal.
Qed.

Lemma scan_ids_all_free n i key :
  key <> 65535 -> scan_ids (replicate n 65535) i key = 65535.
Proof.
  intros Hk. revert i. induction n as [|n IH]; intros i; [reflexivity|].
  cbn [replicate scan_ids]. destruct (Z.eqb_spec 65535 key); [congruence|]. apply IH.
Qed.

Section Fresh.
Variable disk_bin : Z -> byte.
Variable disk_bin_null : bool.
Variable disk_bin_size : Z.
Variable malloc_ok : bool.

Local Abbreviation ensure := (ensure_sd_open disk_bin disk_bin_null disk_bin_size malloc_ok).
Local Abbreviation Read := (Read_SD_sectors disk_bin disk_bin_null disk_bin_size malloc_ok).
Local Abbreviation Write := (Write_SD_sectors disk_bin disk_bin_null disk_bin_size malloc_ok).
Local Abbreviation rsec := (read_sector disk_bin).
Local Abbreviation rloop := (read_loop disk_bin).
Local Abbreviation wloop := (write_loop disk_bin).
Local Abbreviation goc := (overlay_get_or_create disk_bin).

(** The loop of [Read_SD_sectors] over sectors that all read as the image. *)
Lemma read_loop_image n s st :
  0 <= s -> s + Z.of_nat n <= 65535 ->
  (forall t, s <= t < s + Z.of_nat n ->
     rsec st t = disk_bytes disk_bin (t * SECTOR_SIZE) SECTOR_SIZE) ->
  rloop n s st = disk_bytes disk_bin (s * SECTOR_SIZE) (Z.of_nat n * SECTOR_SIZE).
Proof.
  revert s. induction n as [|n IH]; intros s Hs Hn Hall; cbn [read_loop].
  - reflexivity.
  - rewrite Hall by lia. rewrite u32_small by lia.
    rewrite IH; [|lia|lia|intros t Ht; apply Hall; lia].
    unfold SECTOR_SIZE.
    replace ((s + 1) * 512) with (s * 512 + 512) by lia.
    rewrite disk_bytes_app by lia. f_equal. lia.
Qed.

(** What the first [ensure_sd_open] of a session leaves. *)
Lemma ensure_first st st1 :
  g_sd_ready st = false -> ensure st = (true, st1) ->
  g_sd_ready st1 = true
  /\ (malloc_ok = true ->
      g_img_ram st1
      = Some (disk_bytes disk_bin 0 (g_sector_count st1 * SECTOR_SIZE)))
  /\ (malloc_ok = false ->
      g_img_ram st1 = None
      /\ overlay_sector_id st1 = replicate (Z.to_nat MAX_OVERLAY_SECTORS) 65535).
Proof.
  intros Hnr. unfold ensure_sd_open. rewrite Hnr.
  destruct (disk_bin_null || (disk_bin_size <=? 0))%bool; [discriminate|].
  set (size := u32 disk_bin_size).
  assert (Hsz : 0 <= size < 4294967296) by (apply Z.mod_pos_bound; lia).
  assert (Hm : 0 <= size mod SECTOR_SIZE < 512) by (apply Z.mod_pos_bound; reflexivity).
  assert (Hle : size mod SECTOR_SIZE <= size) by (apply Z.mod_le; unfold SECTOR_SIZE; lia).
  assert (Hus : u32 (size - size mod SECTOR_SIZE) = size - size mod SECTOR_SIZE)
    by (apply u32_small; lia).
  assert (Hdiv : (size - size mod SECTOR_SIZE) / SECTOR_SIZE * SECTOR_SIZE
                 = size - size mod SECTOR_SIZE).
  { unfold SECTOR_SIZE in *. pose proof (Z.div_mod size 512 ltac:(lia)).
    replace (size - size mod 512) with (size / 512 * 512) by lia.
    rewrite Z.div_mul by lia. reflexivity. }
  destruct malloc_ok; intros [= <-]; (split; [reflexivity|]); split;
    try discriminate; intros _.
  - sd_proj. rewrite Hus, Hdiv. reflexivity.
  - split; reflexivity.
Qed.

(** X1: the first valid read of a session returns the bytes of the embedded
    image, from the copy when the allocation succeeded and through the empty
    overlay otherwise (there for images of at most 65535 sectors). *)
Theorem first_read_returns_image (st st1 : sd_state) (address count : Z)
    (dst : list byte) :
  sd_wf st -> g_sd_ready st = false ->
  ensure st = (true, st1) ->
  (malloc_ok = false -> g_sector_count st1 <= 65535) ->
  valid_range st1 address count ->
  Read st address count (Some dst)
  = (RES_OK, st1,
     Some (disk_bytes disk_bin (address * SECTOR_SIZE) (count * SECTOR_SIZE)
           ++ drop (Z.to_nat (count * SECTOR_SIZE)) dst)).
Proof.
  intros Hwf Hnr He Hnarrow Hv. pose proof Hv as (Hc & Ha & Hrem).
  pose proof (ensure_wf _ _ _ _ _ _ _ Hwf He) as Hwf1.
  destruct (ensure_first _ _ Hnr He) as (Hr1 & Hcopy & Hover).
  assert (E : Read st address count (Some dst) = Read st1 address count (Some dst)).
  { unfold Read_SD_sectors. rewrite He, (ensure_ready _ _ _ _ _ Hr1). reflexivity. }
  rewrite E, (Read_valid _ _ _ _ _ _ _ _ Hwf1 Hr1 Hv).
  destruct Hwf1 as [[Hc0 Hc1] _ _ _]. unfold SECTOR_SIZE in *.
  destruct malloc_ok.
  - rewrite (Hcopy eq_refl). unfold memcpy. do 3 f_equal.
    apply disk_bytes_slice; lia.
  - destruct (Hover eq_refl) as [Hram Hids]. specialize (Hnarrow eq_refl).
    rewrite Hram. unfold memcpy. do 3 f_equal.
    rewrite (read_loop_image (Z.to_nat count) address); [| lia | lia |].
    + rewrite Z2Nat.id by lia.
      apply take_ge. rewrite length_disk_bytes. unfold SECTOR_SIZE. lia.
    + intros t Ht. unfold read_sector, overlay_find. rewrite Hids.
      rewrite (u16_small t) by lia.
      rewrite scan_ids_all_free by lia. cbn [Z.eqb negb].
      rewrite u32_small by (unfold SECTOR_SIZE; lia). reflexivity.
Qed.

End Fresh.

(** ** Writes in full-copy mode leave the rest of the copy alone *)

Lemma memcpy_at_lookup_other {A} (ram src : list A) off n j :
  0 <= off -> 0 <= n ->
  off + n <= Z.of_nat (length ram) -> n <= Z.of_nat (length src) ->
  (j < Z.to_nat off)%nat \/ (Z.to_nat (off + n) <= j)%nat ->
  memcpy_at ram off src n !! j = ram !! j.
Proof.
  intros Ho Hn Hram Hsrc Hj. unfold memcpy_at, memcpy.
  assert (Hl1 : length (take (Z.to_nat off) ram) = Z.to_nat off)
    by (rewrite length_take; lia).
  assert (Hl2 : length (take (Z.to_nat n) src) = Z.to_nat n)
    by (rewrite length_take; lia).
  destruct Hj as [Hj|Hj].
  - rewrite lookup_app_l by lia. apply lookup_take_lt. exact Hj.
  - rewrite lookup_app_r by lia. rewrite lookup_app_r by lia.
    rewrite !lookup_drop. f_equal. lia.
Qed.

Lemma memcpy_at_frame {A} (ram src : list A) off n o2 n2 :
  0 <= off -> 0 <= n -> 0 <= o2 -> 0 <= n2 ->
  off + n <= Z.of_nat (length ram) -> n <= Z.of_nat (length src) ->
  o2 + n2 <= off \/ off + n <= o2 ->
  take (Z.to_nat n2) (drop (Z.to_nat o2) (memcpy_at ram off src n))
  = take (Z.to_nat n2) (drop (Z.to_nat o2) ram).
Proof.
  intros Ho Hn Ho2 Hn2 Hram Hsrc Hd. apply list_eq. intros i.
  destruct (decide (i < Z.to_nat n2)%nat) as [Hi|Hi].
  - rewrite !lookup_take_lt by exact Hi. rewrite !lookup_drop.
    apply memcpy_at_lookup_other; try assumption. lia.
  - rewrite !lookup_take_ge by lia. reflexivity.
Qed.

(** Storing a range into the copy keeps the store well formed. *)
Lemma write_copy_wf st (ram src : list byte) off n :
  sd_wf st -> g_img_ram st = Some ram ->
  0 <= off -> 0 <= n -> off + n <= Z.of_nat (length ram) -> n <= Z.of_nat (length src) ->
  sd_wf (store_ram (Some (memcpy_at ram off src n)) st).
Proof.
  intros [Hc Hids Hdata Hlen] Hram Ho Hn Hfit Hsrc. specialize (Hlen ram Hram).
  split; sd_proj; [exact Hc|exact Hids|exact Hdata|].
  intros r [= <-]. rewrite <- Hlen. unfold memcpy_at, memcpy.
  rewrite !length_app, !length_take, !length_drop. lia.
Qed.

Section FullCopy.
Variable disk_bin : Z -> byte.
Variable disk_bin_null : bool.
Variable disk_bin_size : Z.
Variable malloc_ok : bool.

Local Abbreviation Read := (Read_SD_sectors disk_bin disk_bin_null disk_bin_size malloc_ok).
Local Abbreviation Write := (Write_SD_sectors disk_bin disk_bin_null disk_bin_size malloc_ok).

(** X3: in full-copy mode a write changes nothing outside its range: a read
    of any valid range that does not meet the written one returns what it
    returned before the write. *)
Theorem full_copy_write_frame (st st' : sd_state) (ram : list byte)
    (address count a2 c2 : Z) (src dst : list byte) (r : DRESULT) :
  sd_wf st -> g_sd_ready st = true -> g_img_ram st = Some ram ->
  valid_range st address count ->
  count * SECTOR_SIZE <= Z.of_nat (length src) ->
  Write st address count (Some src) = (r, st') ->
  valid_range st a2 c2 -> a2 + c2 <= address \/ address + count <= a2 ->
  r = RES_OK
  /\ (Read st' a2 c2 (Some dst)).1.1 = RES_OK
  /\ (Read st' a2 c2 (Some dst)).2 = (Read st a2 c2 (Some dst)).2.
Proof.
  intros Hwf Hr Hram Hv Hsrc Hw Hv2 Hd.
  pose proof Hv as (Hc & Ha & Hrem). pose proof Hv2 as (Hc2 & Ha2 & Hrem2).
  pose proof Hwf as [[Hc0 Hc1] Hids Hdata Hlen]. specialize (Hlen ram Hram).
  revert Hw. rewrite Write_valid by assumption. rewrite Hram.
  intros [= <- <-]. split; [reflexivity|].
  assert (Hwf2 : sd_wf (store_ram (Some (memcpy_at ram (address * SECTOR_SIZE) src
                                                   (count * SECTOR_SIZE))) st)).
  { apply write_copy_wf; unfold SECTOR_SIZE in *; try assumption; lia. }
  rewrite (Read_valid _ _ _ _ _ _ _ _ Hwf2 Hr Hv2).
  rewrite (Read_valid _ _ _ _ _ _ _ _ Hwf Hr Hv2).
  cbn [g_img_ram store_ram]. rewrite Hram. cbn [fst snd]. split; [reflexivity|].
  unfold memcpy. do 2 f_equal. unfold SECTOR_SIZE in *.
  apply memcpy_at_frame; lia.
Qed.

End FullCopy.

(** ** Room in the overlay *)

Lemma nfree_insert_claim (ids : list Z) k v :
  ids !! k = Some 65535 -> v <> 65535 ->
  S (length (filter (fun x => x = 65535) (<[k := v]> ids)))
  = length (filter (fun x => x = 65535) ids).
Proof.
  revert k. induction ids as [|x ids IH]; intros k Hk Hv.
  - rewrite lookup_nil in Hk. discriminate.
  - destruct k as [|k]; cbn [lookup list_lookup insert list_insert] in *.
    + injection Hk as ->. rewrite !filter_cons.
      destruct (decide (v = 65535)); [congruence|].
      destruct (decide (65535 = 65535)); [reflexivity|congruence].
    + rewrite !filter_cons. destruct (decide (x = 65535)); cbn [length].
      * f_equal. apply IH; assumption.
      * apply IH; assumption.
Qed.

Lemma nfree_none (ids : list Z) :
  (forall j x, ids !! j = Some x -> x <> 65535) ->
  length (filter (fun x => x = 65535) ids) = O.
Proof.
  induction ids as [|x ids IH]; intros H; [reflexivity|].
  rewrite filter_cons. destruct (decide (x = 65535)) as [E|_].
  - exfalso. apply (H O x); [reflexivity|exact E].
  - apply IH. intros j y Hy. apply (H (S j) y). exact Hy.
Qed.

Section Room.
Variable disk_bin : Z -> byte.
Variable disk_bin_null : bool.
Variable disk_bin_size : Z.
Variable malloc_ok : bool.

Local Abbreviation Write := (Write_SD_sectors disk_bin disk_bin_null disk_bin_size malloc_ok).
Local Abbreviation wloop := (write_loop disk_bin).
Local Abbreviation goc := (overlay_get_or_create disk_bin).

(** One look-up-or-create: it fails only when no entry is free, takes at
    most one free entry, and counts the entry it takes. *)
Lemma goc_room st s idx st1 :
  sd_wf st -> 0 <= s < 65535 -> goc st s = (idx, st1) ->
  (idx = 65535 -> free_entries st = O)
  /\ (free_entries st <= S (free_entries st1))%nat
  /\ (overlay_used_count st + Z.of_nat (free_entries st) = MAX_OVERLAY_SECTORS ->
      overlay_used_count st1 + Z.of_nat (free_entries st1) = MAX_OVERLAY_SECTORS).
Proof.
  intros [Hcnt Hids Hdata Hram] Hs.
  assert (Hl : 0 + Z.of_nat (length (overlay_sector_id st)) <= 65535)
    by (rewrite Hids; unfold MAX_OVERLAY_SECTORS; lia).
  unfold overlay_get_or_create, overlay_find, free_entries.
  rewrite (u16_small s) by lia.
  destruct (Z.eqb_spec (scan_ids (overlay_sector_id st) 0 s) 65535) as [Emiss|Ehit];
    cbn [negb].
  - destruct (Z.eqb_spec (scan_ids (overlay_sector_id st) 0 65535) 65535) as [E'|Efree];
      cbn [negb].
    + intros [= <- <-]. split; [|split; [lia|tauto]].
      intros _. apply nfree_none. intros j x Hx.
      eapply scan_ids_miss; [| |exact E'|exact Hx]; lia.
    + intros [= <- <-].
      destruct (scan_ids_hit _ 0 65535 _ ltac:(lia) Hl eq_refl Efree) as (k & Ek & Hk & _).
      rewrite Z.add_0_l in Ek. rewrite Ek, !Nat2Z.id. sd_proj.
      pose proof (nfree_insert_claim _ k s Hk ltac:(lia)) as Hn.
      split; [lia|]. split; [lia|]. intros Hinv.
      pose proof (length_filter (fun x => x = 65535) (overlay_sector_id st)) as Hle.
      unfold MAX_OVERLAY_SECTORS in *. rewrite u16_small by lia. lia.
  - intros [= <- <-]. split; [contradiction|]. split; [lia|tauto].
Qed.

(** The loop of [Write_SD_sectors] completes when as many entries are free
    as it has sectors to write. *)
Lemma write_loop_room n s src st :
  sd_wf st -> 0 <= s -> s + Z.of_nat n <= 65535 ->
  (n <= free_entries st)%nat ->
  exists st', wloop n s src st = (RES_OK, st')
    /\ (free_entries st <= free_entries st' + n)%nat
    /\ (overlay_used_count st + Z.of_nat (free_entries st) = MAX_OVERLAY_SECTORS ->
        overlay_used_count st' + Z.of_nat (free_entries st') = MAX_OVERLAY_SECTORS).
Proof.
  revert s src st. induction n as [|n IH]; intros s src st Hwf Hs Hn Hfree;
    cbn [write_loop].
  - exists st. split; [reflexivity|]. split; [lia|tauto].
  - destruct (goc st s) as [idx st1] eqn:G.
    destruct (goc_room st s idx st1 Hwf ltac:(lia) G) as (Hfail & Hone & Hinv1).
    destruct (Z.eqb_spec idx 65535) as [E|Hidx]; [specialize (Hfail E); lia|].
    destruct (write_step disk_bin st s idx st1 (take (Z.to_nat SECTOR_SIZE) src)
                Hwf ltac:(lia) G Hidx) as (Hwf2 & _).
    rewrite u32_small by lia.
    destruct (IH (s + 1) (drop (Z.to_nat SECTOR_SIZE) src) _ Hwf2 ltac:(lia) ltac:(lia))
      as (st' & Hloop & Hf' & Hinv').
    + unfold free_entries in *. sd_proj. lia.
    + exists st'. split; [exact Hloop|]. unfold free_entries in *. sd_proj.
      split; [lia|]. intros Hinv. apply Hinv', Hinv1, Hinv.
Qed.

(** X7: in overlay mode, on an image of at most 65535 sectors, a valid write
    of no more sectors than the overlay has free entries is accepted; it takes
    at most that many entries, and the entry counter stays the number of
    entries taken. *)
Theorem overlay_write_fits (st : sd_state) (address count : Z) (src : list byte) :
  sd_wf st -> g_sd_ready st = true -> g_img_ram st = None ->
  g_sector_count st <= 65535 ->
  valid_range st address count ->
  count <= Z.of_nat (free_entries st) ->
  exists st',
    Write st address count (Some src) = (RES_OK, st')
    /\ Z.of_nat (free_entries st) - count <= Z.of_nat (free_entries st')
    /\ (overlay_used_count st + Z.of_nat (free_entries st) = MAX_OVERLAY_SECTORS ->
        overlay_used_count st' + Z.of_nat (free_entries st') = MAX_OVERLAY_SECTORS).
Proof.
  intros Hwf Hr Hram Hnarrow Hv Hfree. pose proof Hv as (Hc & Ha & Hrem).
  rewrite Write_valid by assumption. rewrite Hram.
  destruct (write_loop_room (Z.to_nat count) address src st Hwf
              ltac:(lia) ltac:(lia) ltac:(lia)) as (st' & Hloop & Hf & Hinv).
  exists st'. split; [exact Hloop|]. split; [lia|exact Hinv].
Qed.

End Room.

(** ** The earlier driver *)

(** X8: the earlier driver, when the copy could not be allocated: a valid
    write is answered [RES_OK] and changes nothing, so a read of the range
    still returns the bytes of the image, whatever was written. *)
Theorem old_driver_drops_writes (disk_bin : Z -> byte) disk_bin_null disk_bin_size
    malloc_ok (st : sd_state) (address count : Z) (src dst : list byte) :
  g_sd_ready st = true -> g_img_ram st = None ->
  g_sector_count st * SECTOR_SIZE < 4294967296 ->
  valid_range st address count ->
  SDOld.Write_SD_sectors disk_bin disk_bin_null disk_bin_size malloc_ok
                         st address count (Some src) = (RES_OK, st)
  /\ SDOld.Read_SD_sectors disk_bin disk_bin_null disk_bin_size malloc_ok
                           st address count (Some dst)
     = (RES_OK, st,
        Some (disk_bytes disk_bin (address * SECTOR_SIZE) (count * SECTOR_SIZE)
              ++ drop (Z.to_nat (count * SECTOR_SIZE)) dst)).
Proof.
  intros Hr Hram Hsz (Hc & Ha & Hrem). unfold SECTOR_SIZE in *.
  unfold SDOld.Write_SD_sectors, SDOld.Read_SD_sectors, SDOld.ensure_sd_open.
  rewrite Hr. cbn [negb].
  destruct (Z.eqb_spec count 0) as [E|_]; [lia|].
  destruct (Z.geb_spec address (g_sector_count st)) as [E|_]; [lia|].
  rewrite (u32_small (g_sector_count st - address)) by lia.
  destruct (Z.gtb_spec count (g_sector_count st - address)) as [E|_]; [lia|].
  rewrite Hram. split; [reflexivity|].
  rewrite u32_small by (unfold SECTOR_SIZE; lia).
  unfold memcpy. do 3 f_equal. apply take_ge.
  rewrite length_disk_bytes. unfold SECTOR_SIZE. lia.
Qed.

(** ** The glue *)

(** X9: [disk_read] and [disk_write] hand their sector count to a
    sixteen-bit parameter: asked for [65536 * k + c] sectors they do what a
    request for [c] sectors does, so on a store that is open a read of a
    multiple of 65536 sectors is answered [RES_PARERR], and a larger request
    moves [c] sectors only. *)
Theorem disk_count_is_cut (disk_bin : Z -> byte) disk_bin_null disk_bin_size
    malloc_ok (st : sd_state) (pdrv sector k c : Z) (buf : option (list byte)) :
  0 <= k -> 0 <= c < 65536 -> is_u32 sector ->
  DiskIO.disk_read disk_bin disk_bin_null disk_bin_size malloc_ok
                   st pdrv buf sector (65536 * k + c)
  = Read_SD_sectors disk_bin disk_bin_null disk_bin_size malloc_ok st sector c buf
  /\ DiskIO.disk_write disk_bin disk_bin_null disk_bin_size malloc_ok
                       st pdrv buf sector (65536 * k + c)
     = Write_SD_sectors disk_bin disk_bin_null disk_bin_size malloc_ok st sector c buf
  /\ (c = 0 -> g_sd_ready st = true -> forall dst,
      DiskIO.disk_read disk_bin disk_bin_null disk_bin_size malloc_ok
                       st pdrv (Some dst) sector (65536 * k + c)
      = (RES_PARERR, st, Some dst)).
Proof.
  intros Hk Hc Hs. unfold DiskIO.disk_read, DiskIO.disk_write.
  assert (E : u16 (65536 * k + c) = c).
  { unfold u16. rewrite Z.add_comm, Z.mul_comm, Z.mod_add by lia.
    apply Z.mod_small. lia. }
  rewrite E, (u32_small sector) by exact Hs. split; [reflexivity|].
  split; [reflexivity|].
  intros -> Hr dst. unfold Read_SD_sectors.
  rewrite (ensure_ready _ _ _ _ _ Hr). reflexivity.
Qed.

(** ** What every call keeps *)

Section Kept.
Variable disk_bin : Z -> byte.
Variable disk_bin_null : bool.
Variable disk_bin_size : Z.
Variable malloc_ok : bool.

Local Abbreviation ensure := (ensure_sd_open disk_bin disk_bin_null disk_bin_size malloc_ok).
Local Abbreviation Read := (Read_SD_sectors disk_bin disk_bin_null disk_bin_size malloc_ok).
Local Abbreviation Write := (Write_SD_sectors disk_bin disk_bin_null disk_bin_size malloc_ok).
Local Abbreviation wloop := (write_loop disk_bin).
Local Abbreviation goc := (overlay_get_or_create disk_bin).

Lemma goc_kept st s idx st1 :
  sd_wf st -> goc st s = (idx, st1) -> sd_wf st1 /\ same_store st st1.
Proof.
  intros [Hcnt Hids Hdata Hram]. unfold overlay_get_or_create.
  destruct (negb (overlay_find st s =? 65535)).
  - intros [= <- <-]. split; [split; assumption|apply same_store_refl].
  - destruct (negb (scan_ids (overlay_sector_id st) 0 65535 =? 65535)).
    + intros [= <- <-]. split; [|repeat split].
      split; sd_proj; rewrite ?length_insert; assumption.
    + intros [= <- <-]. split; [split; assumption|apply same_store_refl].
Qed.

Lemma write_loop_kept n s src st r st' :
  sd_wf st -> wloop n s src st = (r, st') -> sd_wf st' /\ same_store st st'.
Proof.
  revert s src st. induction n as [|n IH]; intros s src st Hwf; cbn [write_loop].
  - intros [= <- <-]. split; [exact Hwf|apply same_store_refl].
  - destruct (goc st s) as [idx st1] eqn:G.
    destruct (goc_kept st s idx st1 Hwf G) as [Hwf1 Hs1].
    destruct (idx =? 65535).
    + intros [= <- <-]. split; [exact Hwf1|exact Hs1].
    + intros Hl.
      set (st2 := store_data (<[Z.to_nat idx := take (Z.to_nat SECTOR_SIZE) src]>
                                (overlay_sector_data st1)) st1) in *.
      assert (Hwf2 : sd_wf st2).
      { destruct Hwf1 as [Hc Hi Hd Hr]. split; unfold st2; sd_proj;
          rewrite ?length_insert; assumption. }
      destruct (IH _ _ st2 Hwf2 Hl) as [Hwf' Hs'].
      split; [exact Hwf'|].
      eapply same_store_trans; [exact Hs1|].
      eapply same_store_trans; [|exact Hs']. repeat split.
Qed.

(** X29: no call leaves the store in a bad shape.  A read changes nothing
    but what the first [ensure_sd_open] of a session sets up; a write from a
    buffer that holds the sectors it names, whatever its arguments and
    whatever it returns, leaves a store that still has its sector count,
    its mode and arrays of [MAX_OVERLAY_SECTORS] entries, and a copy, if
    any, as long as the image. *)
Theorem calls_keep_the_store (st : sd_state) (address count : Z)
    (buf : option (list byte)) :
  sd_wf st -> is_u32 address -> is_u16 count ->
  (forall src, buf = Some src -> count * SECTOR_SIZE <= Z.of_nat (length src)) ->
  (Read st address count buf).1.2 = (ensure st).2
  /\ sd_wf (ensure st).2
  /\ (let st' := (Write st address count buf).2 in
      sd_wf st'
      /\ g_sector_count st' = g_sector_count (ensure st).2
      /\ g_sd_ready st' = g_sd_ready (ensure st).2
      /\ (g_img_ram st' = None <-> g_img_ram (ensure st).2 = None)).
Proof.
  intros Hwf Ha0 Hc0' Hbuf. unfold is_u32 in Ha0. unfold is_u16 in Hc0'.
  destruct (ensure st) as [ok st1] eqn:He. cbn [snd].
  pose proof (ensure_wf _ _ _ _ _ _ _ Hwf He) as Hwf1.
  split; [|split; [exact Hwf1|]].
  - unfold Read_SD_sectors. rewrite He. destruct buf as [dst|]; [|reflexivity].
    destruct (negb ok); [reflexivity|].
    destruct (count =? 0); [reflexivity|].
    destruct (address >=? g_sector_count st1); [reflexivity|].
    destruct (count >? u32 (g_sector_count st1 - address)); [reflexivity|].
    destruct (g_img_ram st1); reflexivity.
  - assert (Hsame : forall st', sd_wf st' /\ same_store st1 st' ->
              sd_wf st' /\ g_sector_count st' = g_sector_count st1
              /\ g_sd_ready st' = g_sd_ready st1
              /\ (g_img_ram st' = None <-> g_img_ram st1 = None)).
    { intros st' (Hw' & Hr' & Hc' & Hy'). rewrite Hr'. tauto. }
    assert (Hrefl : sd_wf st1 /\ same_store st1 st1)
      by (split; [exact Hwf1|apply same_store_refl]).
    cbv zeta. unfold Write_SD_sectors. rewrite He.
    destruct buf as [src|]; [|apply Hsame, Hrefl].
    destruct (negb ok); [apply Hsame, Hrefl|].
    destruct (Z.eqb_spec count 0) as [E0|Hc0]; [apply Hsame, Hrefl|].
    destruct (Z.geb_spec address (g_sector_count st1)) as [Ea|Ha]; [apply Hsame, Hrefl|].
    destruct (Z.gtb_spec count (u32 (g_sector_count st1 - address))) as [Ec|Hc];
      [apply Hsame, Hrefl|].
    destruct (g_img_ram st1) as [ram|] eqn:Hram.
    + cbn [snd]. pose proof Hwf1 as [[Hn0 Hn1] _ _ Hlen]. specialize (Hlen ram Hram).
      unfold SECTOR_SIZE in *. rewrite u32_small in Hc by lia.
      rewrite (u32_small (address * 512)) by lia.
      split; [|sd_proj; split; [reflexivity|split; [reflexivity|split; discriminate]]].
      apply write_copy_wf; try assumption; try lia.
      apply Hbuf. reflexivity.
    + destruct (wloop (Z.to_nat count) address src st1) as [r st'] eqn:Hl.
      cbn [snd]. apply Hsame. exact (write_loop_kept _ _ _ _ _ _ Hwf1 Hl).
Qed.

End Kept.

(** ** Images that fit the cartridge

    [disk_bin] is linked into the cartridge image, which holds 32 MiB with
    the firmware in it, and the build notes ask for an image of 16 MB at
    most: the store has fewer than 65536 sectors, so every sector number is
    its own sixteen-bit key and none is the free marker [0xFFFF].  The
    theorems of this section are about such stores. *)

Section Cartridge.
Variable disk_bin : Z -> byte.
Variable disk_bin_null : bool.
Variable disk_bin_size : Z.
Variable malloc_ok : bool.

Local Abbreviation Read := (Read_SD_sectors disk_bin disk_bin_null disk_bin_size malloc_ok).
Local Abbreviation Write := (Write_SD_sectors disk_bin disk_bin_null disk_bin_size malloc_ok).
Local Abbreviation wloop := (write_loop disk_bin).
Local Abbreviation rloop := (read_loop disk_bin).
Local Abbreviation rsec := (read_sector disk_bin).
Local Abbreviation goc := (overlay_get_or_create disk_bin).

(** The loop of [Read_SD_sectors] reads the same from two stores that agree
    on each sector of the range. *)
Lemma read_loop_ext n s st1 st2 :
  0 <= s -> s + Z.of_nat n <= 65535 ->
  (forall t, s <= t < s + Z.of_nat n -> rsec st1 t = rsec st2 t) ->
  rloop n s st1 = rloop n s st2.
Proof.
  revert s. induction n as [|n IH]; intros s Hs Hn Hall; cbn [read_loop].
  - reflexivity.
  - rewrite Hall by lia. rewrite u32_small by lia. f_equal.
    apply IH; [lia|lia|]. intros t Ht. apply Hall. lia.
Qed.


(** No entry is left for a sector exactly when the sector has none of its own
    and none is free. *)
Lemma goc_none_iff st s :
  sd_wf st -> 0 <= s < 65535 ->
  goc st s = (65535, st)
  <-> overlay_find st s = 65535 /\ free_entries st = O.
Proof.
  intros Hwf Hs. pose proof Hwf as [Hcnt Hids Hdata Hram].
  assert (Hl : 0 + Z.of_nat (length (overlay_sector_id st)) <= 65535)
    by (rewrite Hids; unfold MAX_OVERLAY_SECTORS; lia).
  split.
  - intros G.
    destruct (goc_room disk_bin disk_bin_size st s 65535 st Hwf Hs G) as (Hfree & _).
    split; [|exact (Hfree eq_refl)].
    revert G. unfold overlay_get_or_create.
    destruct (Z.eqb_spec (overlay_find st s) 65535) as [E|E]; cbn [negb];
      [intros _; exact E|].
    intros [= E']. contradiction.
  - intros [Hmiss Hfree]. unfold overlay_get_or_create. rewrite Hmiss. cbn [Z.eqb negb].
    rewrite Pos.eqb_refl. cbn [negb].
    destruct (Z.eqb_spec (scan_ids (overlay_sector_id st) 0 65535) 65535) as [E|E];
      cbn [negb]; [reflexivity|].
    destruct (scan_ids_hit _ 0 65535 _ ltac:(lia) Hl eq_refl E) as (k & _ & Hk & _).
    pose proof (nfree_insert_claim _ k 0 Hk ltac:(lia)) as Hn.
    unfold free_entries in Hfree. lia.
Qed.

(** C1: a valid range written and then read gives back the bytes written, in
    full-copy mode and in overlay mode.  The write is accepted in full-copy
    mode, and in overlay mode when the overlay has a free entry for each
    sector of the range; whenever it is accepted, the read that follows
    succeeds and fills the first [count * 512] bytes of the destination with
    those of the source.  The store is one of a cartridge: behind the overlay
    it has at most 65535 sectors. *)
Theorem write_then_read_returns_source (st st' : sd_state) (address count : Z)
    (src dst : list byte) (r : DRESULT) :
  sd_wf st -> g_sd_ready st = true ->
  (g_img_ram st = None -> g_sector_count st <= 65535) ->
  valid_range st address count ->
  count * SECTOR_SIZE <= Z.of_nat (length src) ->
  Write st address count (Some src) = (r, st') ->
  ((g_img_ram st = None -> count <= Z.of_nat (free_entries st)) -> r = RES_OK)
  /\ (r = RES_OK ->
      Read st' address count (Some dst)
      = (RES_OK, st',
         Some (take (Z.to_nat (count * SECTOR_SIZE)) src
               ++ drop (Z.to_nat (count * SECTOR_SIZE)) dst))).
Proof.
  intros Hwf Hr Hnarrow Hv Hsrc. pose proof Hv as (Hc & Ha & Hrem).
  rewrite Write_valid by assumption.
  destruct (g_img_ram st) as [ram|] eqn:Hram.
  - intros [= <- <-]. split; [reflexivity|]. intros _.
    pose proof (write_copy_wf st ram src (address * SECTOR_SIZE) (count * SECTOR_SIZE))
      as Hwf'.
    pose proof Hwf as [[Hc0 Hc1] _ _ Hlen]. specialize (Hlen ram Hram).
    unfold SECTOR_SIZE in *.
    set (off := Z.to_nat (address * 512)). set (n := Z.to_nat (count * 512)).
    set (ram' := memcpy_at ram (address * 512) src (count * 512)) in *.
    assert (Hoff : length (take off ram) = off)
      by (unfold off; rewrite length_take; lia).
    assert (Hn : length (take n src) = n) by (unfold n; rewrite length_take; lia).
    rewrite Read_valid; [|apply Hwf'; first [assumption|lia]|exact Hr|exact Hv].
    cbn [g_img_ram store_ram]. unfold memcpy at 1. fold n. f_equal. f_equal. f_equal.
    unfold ram', memcpy_at, memcpy. fold off n.
    rewrite drop_app_length' by (symmetry; exact Hoff).
    apply take_app_length'. symmetry. exact Hn.
  - specialize (Hnarrow eq_refl). intros Hw. split.
    + intros Hroom. specialize (Hroom eq_refl).
      destruct (write_loop_room disk_bin disk_bin_size (Z.to_nat count) address src st
                  Hwf ltac:(lia) ltac:(lia) ltac:(lia)) as (st1 & Hloop & _).
      congruence.
    + intros ->.
      destruct (write_loop_frame disk_bin (Z.to_nat count) address src st RES_OK st'
                  Hwf ltac:(lia) ltac:(lia) Hw)
        as (Hwf' & (Hram' & Hcnt' & Hr') & _).
      rewrite Read_valid;
        [|exact Hwf'|congruence|unfold valid_range; rewrite Hcnt'; exact Hv].
      rewrite Hram', Hram.
      rewrite (read_loop_pieces disk_bin (Z.to_nat count) address src st');
        [|lia|lia|exact (write_loop_written disk_bin (Z.to_nat count) address src st st'
                           Hwf ltac:(lia) ltac:(lia) Hw)].
      unfold memcpy. f_equal. f_equal. f_equal.
      rewrite take_take. f_equal. unfold SECTOR_SIZE. lia.
Qed.

(** C2: in overlay mode, a write of a valid range that, after its first [k]
    sectors, finds no entry for the next one (the sector has none of its own
    and none of the 256 is free) returns [CapacityExceeded] and stops there.
    The [k] sectors written before keep their new contents and are read back
    as such; every other sector, so every sector accepted by an earlier
    write, reads as before the call, one at a time and through
    [Read_SD_sectors].  A write fails in
    no other way.  The store is one of a cartridge, of at most 65535
    sectors. *)
Theorem overlay_exhaustion_keeps_accepted_writes (st st' : sd_state)
    (address count : Z) (src : list byte) (r : DRESULT) :
  sd_wf st -> g_sd_ready st = true -> g_img_ram st = None ->
  g_sector_count st <= 65535 ->
  valid_range st address count ->
  Write st address count (Some src) = (r, st') ->
  (forall k stk, 0 <= k < count ->
     wloop (Z.to_nat k) address src st = (RES_OK, stk) ->
     overlay_find stk (address + k) = 65535 -> free_entries stk = O ->
     r = CapacityExceeded /\ st' = stk
     /\ (forall j, 0 <= j < k ->
           rsec st' (address + j)
           = take (Z.to_nat SECTOR_SIZE)
                  (drop (Z.to_nat SECTOR_SIZE * Z.to_nat j) src))
     /\ (0 < k -> forall dst,
           Read st' address k (Some dst)
           = (RES_OK, st',
              Some (take (Z.to_nat (k * SECTOR_SIZE)) src
                    ++ drop (Z.to_nat (k * SECTOR_SIZE)) dst)))
     /\ (forall t, 0 <= t < g_sector_count st -> t < address \/ address + k <= t ->
           rsec st' t = rsec st t)
     /\ (forall a c dst, valid_range st a c -> a + c <= address \/ address + k <= a ->
           Read st' a c (Some dst) = (RES_OK, st', (Read st a c (Some dst)).2)))
  /\ (r <> RES_OK ->
      exists k stk, 0 <= k < count
        /\ wloop (Z.to_nat k) address src st = (RES_OK, stk)
        /\ overlay_find stk (address + k) = 65535 /\ free_entries stk = O).
Proof.
  intros Hwf Hr Hram Hnarrow Hv. pose proof Hv as (Hc & Ha & Hrem).
  rewrite Write_valid by assumption. rewrite Hram. intros Hw. split.
  - intros k stk Hk Hpre Hmiss Hfull.
    destruct (write_loop_frame disk_bin (Z.to_nat k) address src st RES_OK stk
                Hwf ltac:(lia) ltac:(lia) Hpre)
      as (Hwfk & (Hramk & Hcntk & Hrk) & Hfr).
    assert (G : goc stk (address + k) = (65535, stk))
      by (apply goc_none_iff; [exact Hwfk|lia|exact (conj Hmiss Hfull)]).
    rewrite <- (Z2Nat.id k) in G at 1 by lia.
    pose proof (write_loop_exhausted disk_bin (Z.to_nat count) (Z.to_nat k) address src
                  st stk ltac:(lia) ltac:(lia) ltac:(lia) Hpre G) as Hall.
    rewrite Hw in Hall. injection Hall as -> ->.
    split; [reflexivity|]. split; [reflexivity|]. split; [|split; [|split]].
    + intros j Hj.
      pose proof (write_loop_written disk_bin (Z.to_nat k) address src st stk Hwf
                    ltac:(lia) ltac:(lia) Hpre (Z.to_nat j) ltac:(lia)) as E.
      rewrite Z2Nat.id in E by lia. exact E.
    + intros Hk0 dst.
      rewrite (Read_valid disk_bin disk_bin_null disk_bin_size malloc_ok stk address k dst
                 Hwfk ltac:(congruence)
                 ltac:(unfold valid_range; rewrite Hcntk; lia)).
      rewrite Hramk, Hram.
      rewrite (read_loop_pieces disk_bin (Z.to_nat k) address src stk);
        [|lia|lia|exact (write_loop_written disk_bin (Z.to_nat k) address src st stk
                           Hwf ltac:(lia) ltac:(lia) Hpre)].
      unfold memcpy. f_equal. f_equal. f_equal.
      rewrite take_take. f_equal. unfold SECTOR_SIZE. lia.
    + intros t Ht Hout. apply Hfr; lia.
    + intros a c dst Hva Hout. pose proof Hva as (Hc' & Ha' & Hrem').
      rewrite (Read_valid disk_bin disk_bin_null disk_bin_size malloc_ok stk a c dst
                 Hwfk ltac:(congruence)
                 ltac:(unfold valid_range; rewrite Hcntk; exact Hva)).
      rewrite (Read_valid disk_bin disk_bin_null disk_bin_size malloc_ok st a c dst
                 Hwf Hr Hva).
      rewrite Hramk, Hram. cbn [snd]. f_equal. f_equal. f_equal.
      apply read_loop_ext; [lia|lia|]. intros t Ht. apply Hfr; lia.
  - intros Hne.
    destruct (write_loop_result disk_bin _ _ _ _ _ _ Hw) as [E|E]; [contradiction|].
    subst r.
    destruct (write_loop_error disk_bin (Z.to_nat count) address src st st'
                ltac:(lia) ltac:(lia) Hw) as (k & Hk & Hpre & Hgoc).
    destruct (write_loop_frame disk_bin k address src st RES_OK st'
                Hwf ltac:(lia) ltac:(lia) Hpre) as (Hwfk & _).
    apply goc_none_iff in Hgoc; [|exact Hwfk|lia].
    exists (Z.of_nat k), st'. rewrite Nat2Z.id. split; [lia|]. split; [exact Hpre|].
    exact Hgoc.
Qed.


End Cartridge.

(** ** The theorems on small stores *)

Lemma copy_small_wf : sd_wf copy_small.
Proof.
  apply (ensure_wf striped_image false 2048 true sd_boot true copy_small sd_boot_wf).
  reflexivity.
Qed.

Lemma overlay_small_wf : sd_wf overlay_small.
Proof.
  apply (ensure_wf striped_image false (300 * 512) false sd_boot true overlay_small
           sd_boot_wf).
  reflexivity.
Qed.

Lemma valid_small a c n st :
  g_sector_count st = n -> 0 < c < 65536 -> 0 <= a < n -> c <= n - a ->
  valid_range st a c.
Proof. intros E Hc Ha Hr. unfold valid_range. rewrite E. auto. Qed.

(** The first read of a session of sectors 1 and 2 of a copied image of four
    sectors. *)
Lemma first_read_returns_image_witness :
  (g_sd_ready sd_boot = false /\ valid_range copy_small 1 2)
  /\ Read_SD_sectors striped_image false 2048 true sd_boot 1 2
                     (Some (replicate 1030 x00))
     = (RES_OK, copy_small,
        Some (disk_bytes striped_image (1 * SECTOR_SIZE) (2 * SECTOR_SIZE)
              ++ drop (Z.to_nat (2 * SECTOR_SIZE)) (replicate 1030 x00))).
Proof.
  assert (Hv : valid_range copy_small 1 2)
    by (apply (valid_small 1 2 4); [reflexivity|lia|lia|lia]).
  split; [exact (conj eq_refl Hv)|].
  apply (first_read_returns_image striped_image false 2048 true sd_boot copy_small
           1 2 (replicate 1030 x00) sd_boot_wf eq_refl eq_refl).
  - discriminate.
  - exact Hv.
Defined.

(** Sectors 1 and 2 of the copy written and read back. *)
Lemma full_copy_roundtrip_witness :
  (g_sd_ready copy_small = true /\ valid_range copy_small 1 2)
  /\ exists st',
       Write_SD_sectors striped_image false 2048 true copy_small 1 2
                        (Some (replicate 1024 x11)) = (RES_OK, st')
       /\ sd_wf st'
       /\ Read_SD_sectors striped_image false 2048 true st' 1 2
                          (Some (replicate 1030 x00))
          = (RES_OK, st',
             Some (take (Z.to_nat (2 * SECTOR_SIZE)) (replicate 1024 x11)
                   ++ drop (Z.to_nat (2 * SECTOR_SIZE)) (replicate 1030 x00))).
Proof.
  assert (Hv : valid_range copy_small 1 2)
    by (apply (valid_small 1 2 4); [reflexivity|lia|lia|lia]).
  split; [exact (conj eq_refl Hv)|].
  apply (full_copy_roundtrip striped_image false 2048 true copy_small
           (disk_bytes striped_image 0 2048) 1 2 (replicate 1024 x11)
           (replicate 1030 x00) copy_small_wf eq_refl eq_refl Hv).
  vm_compute. discriminate.
Defined.

(** Sectors 1 and 2 of the copy written; sector 3 reads as before. *)
Lemma full_copy_write_frame_witness :
  (valid_range copy_small 1 2 /\ valid_range copy_small 3 1 /\ 1 + 2 <= 3)
  /\ forall st' r,
       Write_SD_sectors striped_image false 2048 true copy_small 1 2
                        (Some (replicate 1024 x11)) = (r, st') ->
       r = RES_OK
       /\ (Read_SD_sectors striped_image false 2048 true st' 3 1
                           (Some (replicate 512 x00))).1.1 = RES_OK
       /\ (Read_SD_sectors striped_image false 2048 true st' 3 1
                           (Some (replicate 512 x00))).2
          = (Read_SD_sectors striped_image false 2048 true copy_small 3 1
                             (Some (replicate 512 x00))).2.
Proof.
  assert (Hv : valid_range copy_small 1 2)
    by (apply (valid_small 1 2 4); [reflexivity|lia|lia|lia]).
  assert (Hv2 : valid_range copy_small 3 1)
    by (apply (valid_small 3 1 4); [reflexivity|lia|lia|lia]).
  assert (Hd : 1 + 2 <= 3) by lia.
  split; [exact (conj Hv (conj Hv2 Hd))|]. intros st' r Hw.
  apply (full_copy_write_frame striped_image false 2048 true copy_small st'
           (disk_bytes striped_image 0 2048) 1 2 3 1 (replicate 1024 x11)
           (replicate 512 x00) r copy_small_wf eq_refl eq_refl Hv
           ltac:(vm_compute; discriminate) Hw Hv2 (or_intror Hd)).
Defined.

Local Abbreviation write_small := (Write_SD_sectors striped_image false (300 * 512) false).
Local Abbreviation read_small := (Read_SD_sectors striped_image false (300 * 512) false).

(** Sectors 10 and 11 behind the overlay written and read back. *)
Lemma overlay_roundtrip_narrow_witness :
  (g_img_ram overlay_small = None /\ g_sector_count overlay_small <= 65535
   /\ valid_range overlay_small 10 2)
  /\ exists st',
       write_small overlay_small 10 2 (Some (replicate 1024 x11)) = (RES_OK, st')
       /\ read_small st' 10 2 (Some (replicate 1030 x00))
          = (RES_OK, st',
             Some (take (Z.to_nat (2 * SECTOR_SIZE)) (replicate 1024 x11)
                   ++ drop (Z.to_nat (2 * SECTOR_SIZE)) (replicate 1030 x00))).
Proof.
  assert (Hn : g_sector_count overlay_small <= 65535) by (vm_compute; discriminate).
  assert (Hv : valid_range overlay_small 10 2)
    by (apply (valid_small 10 2 300); [reflexivity|lia|lia|lia]).
  split; [exact (conj eq_refl (conj Hn Hv))|].
  assert (Hw : (write_small overlay_small 10 2 (Some (replicate 1024 x11))).1 = RES_OK)
    by (vm_compute; reflexivity).
  destruct (write_small overlay_small 10 2 (Some (replicate 1024 x11))) as [r st'] eqn:E.
  cbn [fst] in Hw. subst r. exists st'. split; [reflexivity|].
  apply (overlay_roundtrip_narrow striped_image false (300 * 512) false overlay_small st'
           10 2 (replicate 1024 x11) (replicate 1030 x00) overlay_small_wf eq_refl
           eq_refl Hn Hv ltac:(vm_compute; discriminate) E).
Defined.

(** Sectors 10 and 11 written; sector 20, never written, still reads as the
    image. *)
Lemma overlay_frame_narrow_witness :
  (valid_range overlay_small 10 2 /\ 10 + 2 <= 20
   /\ overlay_find overlay_small 20 = 65535)
  /\ forall r st',
       write_small overlay_small 10 2 (Some (replicate 1024 x11)) = (r, st') ->
       read_sector striped_image st' 20
       = disk_bytes striped_image (20 * SECTOR_SIZE) SECTOR_SIZE.
Proof.
  assert (Hn : g_sector_count overlay_small <= 65535) by (vm_compute; discriminate).
  assert (Hv : valid_range overlay_small 10 2)
    by (apply (valid_small 10 2 300); [reflexivity|lia|lia|lia]).
  assert (Hd : 10 + 2 <= 20) by lia.
  assert (Hf : overlay_find overlay_small 20 = 65535) by (vm_compute; reflexivity).
  split; [exact (conj Hv (conj Hd Hf))|]. intros r st' Hw.
  destruct (overlay_frame_narrow striped_image false (300 * 512) false overlay_small st'
              r 10 2 (replicate 1024 x11) 20 overlay_small_wf eq_refl eq_refl Hn Hv Hw)
    as [_ H].
  - change (g_sector_count overlay_small) with 300. lia.
  - right. exact Hd.
  - exact (H Hf).
Defined.

(** 257 sectors written to the empty overlay of 256 entries: the write stops
    at a sector that finds no entry. *)
Lemma overlay_exhaustion_narrow_witness :
  valid_range overlay_small 0 257
  /\ exists st' k,
       write_small overlay_small 0 257 (Some (replicate (257 * 512) x11))
       = (CapacityExceeded, st')
       /\ 0 <= k < 257
       /\ overlay_get_or_create striped_image st' (0 + k) = (65535, st').
Proof.
  assert (Hn : g_sector_count overlay_small <= 65535) by (vm_compute; discriminate).
  assert (Hv : valid_range overlay_small 0 257)
    by (apply (valid_small 0 257 300); [reflexivity|lia|lia|lia]).
  split; [exact Hv|].
  assert (Hw : (write_small overlay_small 0 257 (Some (replicate (257 * 512) x11))).1
               = CapacityExceeded)
    by (vm_compute; reflexivity).
  destruct (write_small overlay_small 0 257 (Some (replicate (257 * 512) x11)))
    as [r st'] eqn:E.
  cbn [fst] in Hw. subst r.
  destruct (overlay_exhaustion_narrow striped_image false (300 * 512) false overlay_small
              st' 0 257 (replicate (257 * 512) x11) overlay_small_wf eq_refl eq_refl
              Hn Hv E) as (k & Hk & Hg & _).
  exists st', k. split; [reflexivity|]. split; [exact Hk|exact Hg].
Defined.

(** Two sectors written to the empty overlay, all of whose 256 entries are
    free. *)
Lemma overlay_write_fits_witness :
  (valid_range overlay_small 10 2 /\ 2 <= Z.of_nat (free_entries overlay_small))
  /\ exists st',
       write_small overlay_small 10 2 (Some (replicate 1024 x11)) = (RES_OK, st')
       /\ Z.of_nat (free_entries overlay_small) - 2 <= Z.of_nat (free_entries st')
       /\ overlay_used_count st' + Z.of_nat (free_entries st') = MAX_OVERLAY_SECTORS.
Proof.
  assert (Hn : g_sector_count overlay_small <= 65535) by (vm_compute; discriminate).
  assert (Hv : valid_range overlay_small 10 2)
    by (apply (valid_small 10 2 300); [reflexivity|lia|lia|lia]).
  assert (Hf : 2 <= Z.of_nat (free_entries overlay_small)) by (vm_compute; discriminate).
  split; [exact (conj Hv Hf)|].
  destruct (overlay_write_fits striped_image false (300 * 512) false overlay_small 10 2
              (replicate 1024 x11) overlay_small_wf eq_refl eq_refl Hn Hv Hf)
    as (st' & Hw & Hfree & Hinv).
  exists st'. split; [exact Hw|]. split; [exact Hfree|].
  apply Hinv. vm_compute. reflexivity.
Defined.

(** The earlier driver without a copy: sector 1 written, then read. *)
Lemma old_driver_drops_writes_witness :
  (g_sd_ready old_small = true /\ g_img_ram old_small = None
   /\ valid_range old_small 1 1)
  /\ SDOld.Write_SD_sectors striped_image false 2048 false old_small 1 1
                            (Some (replicate 512 x11)) = (RES_OK, old_small)
  /\ SDOld.Read_SD_sectors striped_image false 2048 false old_small 1 1
                           (Some (replicate 512 x00))
     = (RES_OK, old_small,
        Some (disk_bytes striped_image (1 * SECTOR_SIZE) (1 * SECTOR_SIZE)
              ++ drop (Z.to_nat (1 * SECTOR_SIZE)) (replicate 512 x00))).
Proof.
  assert (Hv : valid_range old_small 1 1)
    by (apply (valid_small 1 1 4); [reflexivity|lia|lia|lia]).
  split; [exact (conj eq_refl (conj eq_refl Hv))|].
  apply (old_driver_drops_writes striped_image false 2048 false old_small 1 1
           (replicate 512 x11) (replicate 512 x00) eq_refl eq_refl).
  - vm_compute. reflexivity.
  - exact Hv.
Defined.

(** A request for 65538 sectors from sector 1 is a request for two. *)
Lemma disk_count_is_cut_witness :
  is_u32 1
  /\ DiskIO.disk_read striped_image false 2048 true copy_small 0
                      (Some (replicate 1030 x00)) 1 (65536 * 1 + 2)
     = Read_SD_sectors striped_image false 2048 true copy_small 1 2
                       (Some (replicate 1030 x00)).
Proof.
  assert (Hs : is_u32 1) by (unfold is_u32; lia).
  split; [exact Hs|].
  destruct (disk_count_is_cut striped_image false 2048 true copy_small 0 1 1 2
              (Some (replicate 1030 x00)) ltac:(lia) ltac:(lia) Hs) as [H _].
  exact H.
Defined.

(** A write of 257 sectors to the empty overlay, which fails, and a read. *)
Lemma calls_keep_the_store_witness :
  (sd_wf overlay_small /\ is_u32 0 /\ is_u16 257)
  /\ (read_small overlay_small 0 257 (Some (replicate (257 * 512) x11))).1.2
     = (ensure_sd_open striped_image false (300 * 512) false overlay_small).2
  /\ (let st' := (write_small overlay_small 0 257 (Some (replicate (257 * 512) x11))).2 in
      sd_wf st'
      /\ g_sector_count st'
         = g_sector_count (ensure_sd_open striped_image false (300 * 512) false
                                          overlay_small).2).
Proof.
  assert (Ha : is_u32 0) by (unfold is_u32; lia).
  assert (Hc : is_u16 257) by (unfold is_u16; lia).
  split; [exact (conj overlay_small_wf (conj Ha Hc))|].
  destruct (calls_keep_the_store striped_image false (300 * 512) false overlay_small
              0 257 (Some (replicate (257 * 512) x11)) overlay_small_wf Ha Hc)
    as (Hr & _ & Hw & Hn & _).
  - intros src E. replace src with (replicate (257 * 512) x11) by congruence.
    vm_compute. discriminate.
  - split; [exact Hr|]. split; [exact Hw|exact Hn].
Defined.

Lemma overlay_one_wf : sd_wf overlay_one.
Proof.
  assert (Hv : valid_range overlay_small 5 1)
    by (apply (valid_small 5 1 300); [reflexivity|lia|lia|lia]).
  unfold overlay_one.
  rewrite (Write_valid striped_image false (300 * 512) false overlay_small 5 1
             (replicate 512 x01) overlay_small_wf eq_refl Hv).
  change (g_img_ram overlay_small) with (@None (list byte)). cbv iota.
  destruct (write_loop striped_image (Z.to_nat 1) 5 (replicate 512 x01) overlay_small)
    as [r st'] eqn:E.
  exact (proj1 (write_loop_frame striped_image (Z.to_nat 1) 5 (replicate 512 x01)
                  overlay_small r st' overlay_small_wf ltac:(lia) ltac:(lia) E)).
Qed.

(** Sectors 10 and 11 written and read back behind the overlay, and sectors
    1 and 2 in the copy. *)
Lemma write_then_read_returns_source_witness :
  ((g_img_ram overlay_small = None /\ g_sector_count overlay_small <= 65535
    /\ valid_range overlay_small 10 2 /\ 2 <= Z.of_nat (free_entries overlay_small))
   /\ exists st',
        write_small overlay_small 10 2 (Some (replicate 1024 x11)) = (RES_OK, st')
        /\ read_small st' 10 2 (Some (replicate 1030 x00))
           = (RES_OK, st',
              Some (take (Z.to_nat (2 * SECTOR_SIZE)) (replicate 1024 x11)
                    ++ drop (Z.to_nat (2 * SECTOR_SIZE)) (replicate 1030 x00))))
  /\ ((g_img_ram copy_small <> None /\ valid_range copy_small 1 2)
      /\ exists st',
           Write_SD_sectors striped_image false 2048 true copy_small 1 2
                            (Some (replicate 1024 x11)) = (RES_OK, st')
           /\ Read_SD_sectors striped_image false 2048 true st' 1 2
                              (Some (replicate 1030 x00))
              = (RES_OK, st',
                 Some (take (Z.to_nat (2 * SECTOR_SIZE)) (replicate 1024 x11)
                       ++ drop (Z.to_nat (2 * SECTOR_SIZE)) (replicate 1030 x00)))).
Proof.
  split.
  - assert (Hn : g_sector_count overlay_small <= 65535) by (vm_compute; discriminate).
    assert (Hv : valid_range overlay_small 10 2)
      by (apply (valid_small 10 2 300); [reflexivity|lia|lia|lia]).
    assert (Hf : 2 <= Z.of_nat (free_entries overlay_small))
      by (vm_compute; discriminate).
    split; [exact (conj eq_refl (conj Hn (conj Hv Hf)))|].
    destruct (write_small overlay_small 10 2 (Some (replicate 1024 x11)))
      as [r st'] eqn:E.
    destruct (write_then_read_returns_source striped_image false (300 * 512) false
                overlay_small st' 10 2 (replicate 1024 x11) (replicate 1030 x00) r
                overlay_small_wf eq_refl (fun _ => Hn) Hv
                ltac:(vm_compute; discriminate) E) as [Hok Hread].
    specialize (Hok (fun _ => Hf)). subst r.
    exists st'. split; [reflexivity|exact (Hread eq_refl)].
  - assert (Hv : valid_range copy_small 1 2)
      by (apply (valid_small 1 2 4); [reflexivity|lia|lia|lia]).
    split; [split; [discriminate|exact Hv]|].
    destruct (Write_SD_sectors striped_image false 2048 true copy_small 1 2
                (Some (replicate 1024 x11))) as [r st'] eqn:E.
    destruct (write_then_read_returns_source striped_image false 2048 true
                copy_small st' 1 2 (replicate 1024 x11) (replicate 1030 x00) r
                copy_small_wf eq_refl ltac:(discriminate) Hv
                ltac:(vm_compute; discriminate) E) as [Hok Hread].
    specialize (Hok ltac:(discriminate)). subst r.
    exists st'. split; [reflexivity|exact (Hread eq_refl)].
Defined.

(** Sector 5 was written with bytes [x01]; then 256 sectors from sector 10
    are written with bytes [x11].  255 entries are free: the write stops at
    its last sector, the first 255 keep the new bytes, and sector 5 still
    reads as the bytes [x01]. *)
Lemma overlay_exhaustion_keeps_accepted_writes_witness :
  (g_img_ram overlay_one = None /\ g_sector_count overlay_one <= 65535
   /\ valid_range overlay_one 10 256)
  /\ exists st',
       write_small overlay_one 10 256 (Some (replicate (256 * 512) x11))
       = (CapacityExceeded, st')
       /\ write_loop striped_image 255 10 (replicate (256 * 512) x11) overlay_one
          = (RES_OK, st')
       /\ overlay_find st' (10 + 255) = 65535 /\ free_entries st' = O
       /\ read_sector striped_image st' (10 + 254) = replicate 512 x11
       /\ read_small st' 5 1 (Some (replicate 512 x00))
          = (RES_OK, st', Some (replicate 512 x01)).
Proof.
  assert (Hn : g_sector_count overlay_one <= 65535) by (vm_compute; discriminate).
  assert (Hv : valid_range overlay_one 10 256)
    by (apply (valid_small 10 256 300); [reflexivity|lia|lia|lia]).
  assert (Hv5 : valid_range overlay_one 5 1)
    by (apply (valid_small 5 1 300); [reflexivity|lia|lia|lia]).
  split; [exact (conj eq_refl (conj Hn Hv))|].
  set (src := replicate (256 * 512) x11).
  assert (Hk : (write_loop striped_image 255 10 src overlay_one).1 = RES_OK)
    by (vm_compute; reflexivity).
  assert (Hmiss : overlay_find (write_loop striped_image 255 10 src overlay_one).2
                               (10 + 255) = 65535)
    by (vm_compute; reflexivity).
  assert (Hfull : free_entries (write_loop striped_image 255 10 src overlay_one).2 = O)
    by (vm_compute; reflexivity).
  assert (Hold : (read_small overlay_one 5 1 (Some (replicate 512 x00))).2
                 = Some (replicate 512 x01))
    by (vm_compute; reflexivity).
  destruct (write_loop striped_image 255 10 src overlay_one) as [rk stk] eqn:Ek.
  cbn [fst snd] in Hk, Hmiss, Hfull. subst rk.
  destruct (write_small overlay_one 10 256 (Some src)) as [r st'] eqn:E.
  destruct (overlay_exhaustion_keeps_accepted_writes striped_image false (300 * 512)
              false overlay_one st' 10 256 src r overlay_one_wf eq_refl eq_refl Hn Hv E)
    as [Hstop _].
  destruct (Hstop 255 stk ltac:(lia) Ek Hmiss Hfull) as (-> & -> & Hnew & _ & _ & Hkeep).
  exists stk. split; [reflexivity|]. split; [reflexivity|].
  split; [exact Hmiss|]. split; [exact Hfull|]. split.
  - rewrite (Hnew 254 ltac:(lia)). vm_compute. reflexivity.
  - rewrite (Hkeep 5 1 (replicate 512 x00) Hv5 ltac:(lia)). rewrite Hold. reflexivity.
Defined.


End SDMore.

(** * More on the in-memory filesystem *)

Module FSMore.
Import FS FSSpec FSFacts.

(** ** Cluster chains and sectors *)

(** X10: for a stored object of [ncl] clusters that starts at [sclust],
    [Get_NextCluster] steps through the clusters one by one: below the start
    it answers the start, inside the chain the next number, and from the last
    cluster on the end mark [0xFFFF]. *)
Theorem next_cluster_walks_chain FSIZE_BITS (st : fs_state) (fs : FATFS)
    (o : FFOBJID) :
  32 <= FSIZE_BITS ->
  g_fs st = Some fs -> 0 < csize fs < 65536 ->
  0 <= objsize o -> objsize o + csize fs * 512 <= 4294967296 ->
  let ncl := Z.max 1 (ceil_div (objsize o) (csize fs * 512)) in
  0 < sclust o -> sclust o + ncl < 4294967296 ->
  (forall c, 0 <= c < sclust o ->
     Get_NextCluster FSIZE_BITS st (Some o) c = sclust o)
  /\ (forall j, 0 <= j < ncl - 1 ->
        Get_NextCluster FSIZE_BITS st (Some o) (sclust o + j) = sclust o + j + 1)
  /\ (forall c, sclust o + ncl - 1 <= c < 4294967296 ->
        Get_NextCluster FSIZE_BITS st (Some o) c = 65535).
Proof.
  intros Hb Hfs Hcs Hs Hsum ncl Hstart Hend.
  assert (Hu : u32 (csize fs * 512) = csize fs * 512) by (apply SDFacts.u32_small; lia).
  assert (Hn : 1 <= ncl) by (unfold ncl; lia).
  assert (E : forall c,
            Get_NextCluster FSIZE_BITS st (Some o) c
            = if c <? sclust o then sclust o
              else if u32 (u32 (c - sclust o) + 1) >=? ncl then 65535
                   else u32 (u32 (sclust o + u32 (c - sclust o)) + 1)).
  { intros c. unfold Get_NextCluster. rewrite Hfs, Hu.
    destruct (Z.eqb_spec (csize fs * 512) 0) as [E0|_]; [lia|].
    rewrite cluster_count_ceil by lia. fold ncl.
    destruct (Z.eqb_spec (sclust o) 0) as [E0|_]; [lia|]. reflexivity. }
  split; [|split].
  - intros c Hc. rewrite E. destruct (Z.ltb_spec c (sclust o)); [reflexivity|lia].
  - intros j Hj. rewrite E.
    destruct (Z.ltb_spec (sclust o + j) (sclust o)); [lia|].
    replace (sclust o + j - sclust o) with j by lia.
    rewrite (SDFacts.u32_small j) by lia.
    rewrite (SDFacts.u32_small (j + 1)) by lia.
    destruct (Z.geb_spec (j + 1) ncl); [lia|].
    rewrite (SDFacts.u32_small (sclust o + j)) by lia.
    apply SDFacts.u32_small. lia.
  - intros c Hc. rewrite E.
    destruct (Z.ltb_spec c (sclust o)); [lia|].
    rewrite (SDFacts.u32_small (c - sclust o)) by lia.
    rewrite (SDFacts.u32_small (c - sclust o + 1)) by lia.
    destruct (Z.geb_spec (c - sclust o + 1) ncl); [reflexivity|lia].
Qed.

Lemma ClustToSect_linear (fs : FATFS) c :
  0 < csize fs < 65536 -> 0 <= database fs -> 2 <= c ->
  database fs + (c - 2) * csize fs < 4294967296 ->
  ClustToSect (Some fs) c = database fs + (c - 2) * csize fs.
Proof.
  intros Hcs Hd Hc Hfit. unfold ClustToSect.
  destruct (Z.ltb_spec c 2); [lia|].
  rewrite (SDFacts.u32_small (csize fs)) by lia.
  destruct (Z.eqb_spec (csize fs) 0); [lia|].
  rewrite (SDFacts.u32_small (database fs)) by nia.
  rewrite (SDFacts.u32_small (c - 2)) by nia.
  rewrite (SDFacts.u32_small ((c - 2) * csize fs)) by nia.
  apply SDFacts.u32_small. nia.
Qed.

(** X11: the sectors [ClustToSect] gives to the clusters of a chain lie one
    behind the other: the cluster [Get_NextCluster] names after [c] starts
    [csize] sectors after [c]; the first data cluster, 2, starts at
    [database], and a cluster number below 2 has sector 0. *)
Theorem chain_sectors_are_contiguous FSIZE_BITS (st : fs_state) (fs : FATFS)
    (o : FFOBJID) (j : Z) :
  32 <= FSIZE_BITS ->
  g_fs st = Some fs -> 0 < csize fs < 65536 -> 0 <= database fs ->
  0 <= objsize o -> objsize o + csize fs * 512 <= 4294967296 ->
  let ncl := Z.max 1 (ceil_div (objsize o) (csize fs * 512)) in
  2 <= sclust o ->
  database fs + (sclust o + ncl) * csize fs < 4294967296 ->
  0 <= j < ncl - 1 ->
  ClustToSect (Some fs) (Get_NextCluster FSIZE_BITS st (Some o) (sclust o + j))
  = ClustToSect (Some fs) (sclust o + j) + csize fs
  /\ ClustToSect (Some fs) 2 = database fs
  /\ (forall c, c < 2 -> ClustToSect (Some fs) c = 0).
Proof.
  intros Hb Hfs Hcs Hd Hs Hsum ncl Hstart Hfit Hj.
  assert (Hn : Get_NextCluster FSIZE_BITS st (Some o) (sclust o + j) = sclust o + j + 1).
  { unfold Get_NextCluster. rewrite Hfs.
    rewrite (SDFacts.u32_small (csize fs * 512)) by lia.
    destruct (Z.eqb_spec (csize fs * 512) 0) as [E0|_]; [lia|].
    rewrite cluster_count_ceil by lia. fold ncl.
    destruct (Z.eqb_spec (sclust o) 0) as [E0|_]; [lia|].
    destruct (Z.ltb_spec (sclust o + j) (sclust o)); [lia|].
    replace (sclust o + j - sclust o) with j by lia.
    rewrite (SDFacts.u32_small j) by nia.
    rewrite (SDFacts.u32_small (j + 1)) by nia.
    destruct (Z.geb_spec (j + 1) ncl); [lia|].
    rewrite (SDFacts.u32_small (sclust o + j)) by nia.
    apply SDFacts.u32_small. nia. }
  rewrite Hn. split; [|split].
  - rewrite !ClustToSect_linear by (try assumption; nia). lia.
  - rewrite ClustToSect_linear by (try assumption; nia). lia.
  - intros c Hc. unfold ClustToSect. destruct (Z.ltb_spec c 2); [reflexivity|lia].
Qed.

(** ** Writing and seeking *)

Lemma update_lookup st i n f :
  g_node_pool st !! i = Some n ->
  update i f st = Done (with_pool (<[i := f n]> (g_node_pool st)) st).
Proof. intros H. unfold update. rewrite H. reflexivity. Qed.

(** A memory block padded with zeros up to [n] bytes. *)
Lemma memset0_tail (d : list byte) (k : nat) (tl : list byte) :
  length tl = k ->
  memset0 (d ++ tl) (Z.of_nat (length d)) (Z.of_nat k)
  = Done (d ++ replicate k x00).
Proof.
  intros Hl. unfold memset0.
  destruct (Z.ltb_spec (Z.of_nat (length (d ++ tl)))
                       (Z.of_nat (length d) + Z.of_nat k)) as [Hbad|_].
  - rewrite length_app in Hbad. lia.
  - rewrite !Nat2Z.id. rewrite take_app_length.
    rewrite drop_ge by (rewrite length_app; lia).
    rewrite app_nil_r. reflexivity.
Qed.

Section Capacity.
Variable FSIZE_BITS : Z.
Variable alloc_ok : bool.
Variable junk : nat -> byte.
Hypothesis Hbits : 32 <= FSIZE_BITS.

Local Abbreviation ensure_capacity := (fs_file_ensure_capacity FSIZE_BITS alloc_ok junk).

(** A file whose buffer holds its [size] bytes: the buffer is kept when it
    is large enough and otherwise grows to [needed] bytes, the new ones
    zero. *)
Lemma ensure_capacity_buffered st i node d needed :
  g_node_pool st !! i = Some node ->
  data node = Some d -> Z.of_nat (length d) = size node ->
  0 <= needed < 4294967296 ->
  (size node < needed -> alloc_ok = true) ->
  exists st',
    ensure_capacity st (Some i) needed = Done (true, st')
    /\ st' = with_pool (<[i := set_data (Some (grown d needed)) node]> (g_node_pool st)) st.
Proof.
  intros Hn Hd Hlen Hneed Halloc. pose proof (pow_bits_ge _ Hbits) as Hp.
  unfold fs_file_ensure_capacity. rewrite (deref_lookup _ _ _ Hn). run_step.
  rewrite Hd. unfold grown.
  destruct (Z.leb_spec needed (size node)) as [Hle|Hgt].
  - eexists. split; [reflexivity|].
    replace (Z.to_nat needed - length d)%nat with O by lia.
    cbn [replicate]. rewrite app_nil_r.
    destruct st as [a b c e f pool u g h]; cbn in *. unfold with_pool; cbn.
    f_equal. symmetry. rewrite <- Hd. destruct node; cbn.
    apply list_insert_id. exact Hn.
  - rewrite (Halloc Hgt). unfold realloc, size_t.
    rewrite (SDFacts.u32_small needed) by lia.
    rewrite fsize_t_small by lia.
    rewrite (SDFacts.u32_small (needed - size node)) by lia.
    rewrite take_ge by lia.
    rewrite <- Hlen.
    replace (needed - Z.of_nat (length d))
      with (Z.of_nat (Z.to_nat needed - length d)) by lia.
    rewrite memset0_tail by (rewrite length_map, length_seq; reflexivity).
    run_step. rewrite (update_lookup _ _ _ _ Hn). run_step.
    eexists. split; reflexivity.
Qed.

Local Abbreviation write := (f_write FSIZE_BITS alloc_ok junk).

Lemma length_grown d n :
  Z.of_nat (length (grown d n)) = Z.max (Z.of_nat (length d)) n.
Proof. unfold grown. rewrite length_app, length_replicate. lia. Qed.

Lemma length_memcpy_at (dst src : list byte) off n :
  0 <= off -> 0 <= n -> off + n <= Z.of_nat (length dst) -> n <= Z.of_nat (length src) ->
  length (memcpy_at dst off src n) = length dst.
Proof.
  intros Ho Hn Hd Hs. unfold memcpy_at, memcpy.
  rewrite !length_app, !length_take, !length_drop. lia.
Qed.

(** [f_write] on a file whose buffer holds its [size] bytes. *)
Lemma f_write_buffered st h i node d src btw bw0 :
  g_mounted st = true -> has_bits (flag h) FA_WRITE = true ->
  dir_ptr h = Some i -> g_node_pool st !! i = Some node ->
  data node = Some d -> Z.of_nat (length d) = size node ->
  0 <= fptr h -> 0 <= btw <= Z.of_nat (length src) ->
  fptr h + btw < 4294967296 ->
  (size node < fptr h + btw -> alloc_ok = true) ->
  let endpos := fptr h + btw in
  let d' := memcpy_at (grown d endpos) (fptr h) src btw in
  let node' := set_size (Z.max (size node) endpos) (set_data (Some d') node) in
  write st (Some h) (Some src) btw (Some bw0)
  = Done (FR_OK, with_pool (<[i := node']> (g_node_pool st)) st,
          Some (if endpos >? size node
                then set_objsize endpos (set_fptr endpos h)
                else set_fptr endpos h),
          Some btw)
  /\ Z.of_nat (length d') = Z.max (size node) endpos.
Proof.
  intros Hm Hw Hp Hn Hd Hlen Hpos Hbtw Hfit Halloc endpos d' node'.
  pose proof (pow_bits_ge _ Hbits) as Hpw.
  assert (Hl' : Z.of_nat (length d') = Z.max (size node) endpos).
  { unfold d'. rewrite length_memcpy_at; rewrite ?length_grown; lia. }
  split; [|exact Hl'].
  unfold f_write. rewrite Hm, Hw, Hp. cbn [negb].
  rewrite fsize_t_small by lia. fold endpos.
  destruct (ensure_capacity_buffered st i node d endpos Hn Hd Hlen ltac:(lia) Halloc)
    as (st1 & He & ->).
  rewrite He. run_step. cbn [negb].
  assert (Hi : (i < length (g_node_pool st))%nat) by (eapply lookup_lt_Some; exact Hn).
  unfold deref. cbn [g_node_pool with_pool].
  rewrite list_lookup_insert_eq by exact Hi. run_step.
  cbn [data set_data].
  destruct (Z.ltb_spec (Z.of_nat (length (grown d endpos))) endpos) as [Hbad|_];
    [rewrite length_grown in Hbad; lia|].
  destruct (Z.ltb_spec (Z.of_nat (length src)) btw) as [Hbad|_]; [lia|].
  cbn [orb]. unfold update. cbn [g_node_pool with_pool].
  rewrite list_lookup_insert_eq by exact Hi. run_step.
  cbn [size set_data]. fold d'.
  destruct (Z.gtb_spec endpos (size node)) as [Hgt|Hle]; run_step;
    cbn [g_node_pool with_pool].
  - rewrite list_lookup_insert_eq by (rewrite length_insert; exact Hi). run_step.
    unfold with_pool, node'. cbn. rewrite !list_insert_insert_eq.
    replace (Z.max (size node) endpos) with endpos by lia.
    destruct node; reflexivity.
  - unfold with_pool, node'. cbn. rewrite !list_insert_insert_eq.
    replace (Z.max (size node) endpos) with (size node) by lia.
    destruct node; reflexivity.
Qed.


(** A file with a size but no buffer: the new block has [needed] bytes,
    the first [size] of them zeroed, which overruns the block when [needed]
    is less. *)
Lemma ensure_capacity_unbuffered st i node needed :
  g_node_pool st !! i = Some node -> data node = None -> alloc_ok = true ->
  0 <= size node < 4294967296 -> 0 <= needed < 4294967296 ->
  ensure_capacity st (Some i) needed
  = if needed <? size node then Undefined
    else Done (true,
               with_pool (<[i := set_data
                                   (Some (replicate (Z.to_nat (size node)) x00
                                          ++ map junk (seq (Z.to_nat (size node))
                                                           (Z.to_nat needed
                                                            - Z.to_nat (size node)))))
                                   node]> (g_node_pool st)) st).
Proof.
  intros Hn Hd Ha Hs Hneed.
  unfold fs_file_ensure_capacity. rewrite (deref_lookup _ _ _ Hn). run_step.
  rewrite Hd. unfold malloc, size_t. rewrite Ha.
  rewrite (SDFacts.u32_small needed) by lia.
  destruct (Z.eqb_spec (size node) 0) as [E0|Hnz].
  - destruct (Z.ltb_spec needed (size node)) as [Hbad|_]; [lia|].
    run_step. rewrite (update_lookup _ _ _ _ Hn). run_step.
    rewrite E0. cbn [Z.to_nat replicate app]. rewrite Nat.sub_0_r. reflexivity.
  - rewrite (SDFacts.u32_small (size node)) by lia. unfold memset0.
    rewrite length_map, length_seq, Z.add_0_l.
    destruct (Z.ltb_spec (Z.of_nat (Z.to_nat needed)) (size node)) as [Hlt|Hge];
      destruct (Z.ltb_spec needed (size node)) as [Hlt'|Hge']; try lia.
    + reflexivity.
    + run_step. rewrite (update_lookup _ _ _ _ Hn). run_step.
      cbn [Z.to_nat take app]. rewrite skipn_map, drop_seq. reflexivity.
Qed.


Lemma bytes_at_memcpy_at (g src : list byte) pos n :
  0 <= pos -> 0 <= n -> pos + n <= Z.of_nat (length g) -> n <= Z.of_nat (length src) ->
  bytes_at (memcpy_at g pos src n) pos n = take (Z.to_nat n) src.
Proof.
  intros Hp Hn Hg Hs. unfold bytes_at, memcpy_at, memcpy.
  rewrite drop_app_length' by (rewrite length_take; lia).
  apply take_app_length'. rewrite length_take. lia.
Qed.

(** [f_read] of bytes that all lie inside the buffer of the file. *)
Lemma f_read_within st h i node d dst btr br0 :
  g_mounted st = true -> dir_ptr h = Some i -> g_node_pool st !! i = Some node ->
  data node = Some d -> size node <= Z.of_nat (length d) ->
  0 <= fptr h -> 0 < btr -> fptr h + btr <= size node -> size node < 4294967296 ->
  btr <= Z.of_nat (length dst) ->
  f_read FSIZE_BITS st (Some h) (Some dst) btr (Some br0)
  = Done (FR_OK, Some (set_fptr (fptr h + btr) h),
          Some (bytes_at d (fptr h) btr ++ drop (Z.to_nat btr) dst), Some btr).
Proof.
  intros Hm Hp Hn Hd Hlen Hpos Hbtr Hin Hs Hdst.
  pose proof (pow_bits_ge _ Hbits) as Hpw.
  unfold f_read. rewrite Hm, Hp. cbn [negb].
  rewrite (deref_lookup _ _ _ Hn). run_step.
  destruct (Z.geb_spec (fptr h) (size node)) as [Hge|_]; [lia|].
  rewrite fsize_t_small by lia.
  destruct (Z.gtb_spec btr (size node - fptr h)) as [Hgt|_]; [lia|].
  destruct (Z.ltb_spec (Z.of_nat (length dst)) btr) as [Hbad|_]; [lia|].
  rewrite Hd.
  destruct (Z.ltb_spec (Z.of_nat (length d)) (fptr h + btr)) as [Hbad|_]; [lia|].
  run_step. rewrite fsize_t_small by lia.
  unfold memcpy. rewrite take_ge; [reflexivity|].
  unfold bytes_at. rewrite length_take, length_drop. lia.
Qed.

(** X12: bytes written are the bytes read back.  On a file whose buffer
    holds its [size] bytes, [f_write] of [btw] bytes at the cursor returns
    [FR_OK], counts [btw] bytes and moves the cursor behind them; after
    [f_lseek] back to where the write began, [f_read] of [btw] bytes returns
    the bytes written.  [f_read] does not ask for [FA_READ]. *)
Theorem f_write_read_back (st : fs_state) (h : FIL) (i : nat) (node : FsNode)
    (d src dst : list byte) (btw bw0 br0 : Z) :
  g_mounted st = true -> has_bits (flag h) FA_WRITE = true ->
  dir_ptr h = Some i -> g_node_pool st !! i = Some node ->
  data node = Some d -> Z.of_nat (length d) = size node ->
  0 <= fptr h -> 0 < btw <= Z.of_nat (length src) ->
  fptr h + btw < 4294967296 ->
  (size node < fptr h + btw -> alloc_ok = true) ->
  size node < 4294967296 -> btw <= Z.of_nat (length dst) ->
  exists st' h' h'',
    write st (Some h) (Some src) btw (Some bw0) = Done (FR_OK, st', Some h', Some btw)
    /\ fptr h' = fptr h + btw
    /\ f_lseek st' (Some h') (fptr h) = Done (FR_OK, Some h'')
    /\ f_read FSIZE_BITS st' (Some h'') (Some dst) btw (Some br0)
       = Done (FR_OK, Some (set_fptr (fptr h + btw) h''),
               Some (take (Z.to_nat btw) src ++ drop (Z.to_nat btw) dst), Some btw).
Proof.
  intros Hm Hw Hp Hn Hd Hlen Hpos Hbtw Hfit Halloc Hsmall Hdst.
  destruct (f_write_buffered st h i node d src btw bw0 Hm Hw Hp Hn Hd Hlen Hpos
              ltac:(lia) Hfit Halloc) as [E Hl'].
  cbv zeta in E, Hl'.
  set (endpos := fptr h + btw) in *.
  set (d' := memcpy_at (grown d endpos) (fptr h) src btw) in *.
  set (node' := set_size (Z.max (size node) endpos) (set_data (Some d') node)) in *.
  set (st' := with_pool (<[i := node']> (g_node_pool st)) st) in *.
  set (h' := if endpos >? size node
             then set_objsize endpos (set_fptr endpos h) else set_fptr endpos h) in *.
  assert (Hi : (i < length (g_node_pool st))%nat) by (eapply lookup_lt_Some; exact Hn).
  assert (Hn' : g_node_pool st' !! i = Some node').
  { unfold st'. cbn [g_node_pool with_pool]. apply list_lookup_insert_eq. exact Hi. }
  assert (Hf' : fptr h' = endpos) by (unfold h'; destruct (endpos >? size node); reflexivity).
  assert (Hp' : dir_ptr h' = Some i)
    by (unfold h'; destruct (endpos >? size node); exact Hp).
  exists st', h', (set_fptr (fptr h) h').
  split; [exact E|]. split; [exact Hf'|]. split.
  - unfold f_lseek. cbn [g_mounted st' with_pool]. rewrite Hm, Hp'. cbn [negb].
    rewrite (deref_lookup _ _ _ Hn'). run_step.
    destruct (Z.gtb_spec (fptr h) (size node')) as [Hbad|_]; [|reflexivity].
    unfold node' in Hbad. cbn [size set_size] in Hbad. lia.
  - assert (Hsz : size node' = Z.max (size node) endpos) by reflexivity.
    rewrite (f_read_within st' (set_fptr (fptr h) h') i node' d' dst btw br0 Hm Hp' Hn'
               eq_refl ltac:(lia) Hpos ltac:(lia)
               ltac:(cbn [fptr set_fptr]; lia) ltac:(lia) Hdst).
    cbn [fptr set_fptr]. unfold d'.
    rewrite bytes_at_memcpy_at; rewrite ?length_grown; try lia.
    reflexivity.
Qed.

(** X13: what a write leaves alone.  On a file whose buffer holds its
    [size] bytes, [f_write] makes the size the larger of the old size and the
    end of the write, keeps the buffer as long as the size, leaves every byte
    of the old content outside the written range as it was, fills what lies
    between the old end and the start of the write with zeros, and changes no
    other node nor the name, attributes and links of this one. *)
Theorem f_write_keeps_the_rest (st : fs_state) (h : FIL) (i : nat) (node : FsNode)
    (d src : list byte) (btw bw0 : Z) :
  g_mounted st = true -> has_bits (flag h) FA_WRITE = true ->
  dir_ptr h = Some i -> g_node_pool st !! i = Some node ->
  data node = Some d -> Z.of_nat (length d) = size node ->
  0 <= fptr h -> 0 <= btw <= Z.of_nat (length src) ->
  fptr h + btw < 4294967296 ->
  (size node < fptr h + btw -> alloc_ok = true) ->
  exists st' h' node' d',
    write st (Some h) (Some src) btw (Some bw0) = Done (FR_OK, st', Some h', Some btw)
    /\ g_node_pool st' !! i = Some node' /\ data node' = Some d'
    /\ size node' = Z.max (size node) (fptr h + btw)
    /\ Z.of_nat (length d') = size node'
    /\ (forall k : nat, Z.of_nat k < size node ->
          Z.of_nat k < fptr h \/ fptr h + btw <= Z.of_nat k -> d' !! k = d !! k)
    /\ (forall k : nat, size node <= Z.of_nat k < fptr h -> d' !! k = Some x00)
    /\ (forall j, j <> i -> g_node_pool st' !! j = g_node_pool st !! j)
    /\ name node' = name node /\ attr node' = attr node /\ parent node' = parent node
    /\ firstChild node' = firstChild node /\ nextSibling node' = nextSibling node.
Proof.
  intros Hm Hw Hp Hn Hd Hlen Hpos Hbtw Hfit Halloc.
  destruct (f_write_buffered st h i node d src btw bw0 Hm Hw Hp Hn Hd Hlen Hpos
              Hbtw Hfit Halloc) as [E Hl'].
  cbv zeta in E, Hl'.
  set (endpos := fptr h + btw) in *.
  set (d' := memcpy_at (grown d endpos) (fptr h) src btw) in *.
  assert (Hi : (i < length (g_node_pool st))%nat) by (eapply lookup_lt_Some; exact Hn).
  assert (Hother : forall k : nat,
            Z.of_nat k < fptr h \/ fptr h + btw <= Z.of_nat k ->
            d' !! k = grown d endpos !! k).
  { intros k Hk. unfold d'.
    apply SDMore.memcpy_at_lookup_other; rewrite ?length_grown; lia. }
  eexists _, _, _, d'. split; [exact E|].
  cbn [g_node_pool with_pool]. rewrite list_lookup_insert_eq by exact Hi.
  split; [reflexivity|]. split; [reflexivity|]. split; [reflexivity|].
  split; [exact Hl'|]. split; [|split; [|split]].
  - intros k Hk Hout. rewrite Hother by exact Hout.
    unfold grown. apply lookup_app_l. lia.
  - intros k Hk. rewrite Hother by lia. unfold grown.
    rewrite lookup_app_r by lia. apply lookup_replicate_2. unfold endpos. lia.
  - intros j Hj. apply list_lookup_insert_ne. congruence.
  - repeat split.
Qed.

(** X14: a file with a size but no buffer, as the files of the default
    layout are.  [f_write] allocates as many bytes as the write ends at and
    then zeroes [size] bytes of them: a write that ends before the old size
    overruns the new block; one that ends at or behind it is accepted, the
    bytes below the old size read as zeros, and the bytes between the old
    size and the start of the write are whatever the block held. *)
Theorem f_write_without_buffer (st : fs_state) (h : FIL) (i : nat) (node : FsNode)
    (src : list byte) (btw bw0 : Z) :
  g_mounted st = true -> has_bits (flag h) FA_WRITE = true ->
  dir_ptr h = Some i -> g_node_pool st !! i = Some node ->
  data node = None -> alloc_ok = true -> 0 <= size node < 4294967296 ->
  0 <= fptr h -> 0 <= btw <= Z.of_nat (length src) ->
  fptr h + btw < 4294967296 ->
  (fptr h + btw < size node ->
     write st (Some h) (Some src) btw (Some bw0) = Undefined)
  /\ (size node <= fptr h + btw ->
      exists st' h' node' d',
        write st (Some h) (Some src) btw (Some bw0)
        = Done (FR_OK, st', Some h', Some btw)
        /\ g_node_pool st' !! i = Some node' /\ data node' = Some d'
        /\ size node' = fptr h + btw /\ Z.of_nat (length d') = size node'
        /\ bytes_at d' (fptr h) btw = take (Z.to_nat btw) src
        /\ (forall k : nat, Z.of_nat k < size node -> Z.of_nat k < fptr h ->
              d' !! k = Some x00)
        /\ (forall k : nat, size node <= Z.of_nat k < fptr h ->
              d' !! k = Some (junk k))).
Proof.
  intros Hm Hw Hp Hn Hd Ha Hs Hpos Hbtw Hfit.
  pose proof (pow_bits_ge _ Hbits) as Hpw.
  assert (Hi : (i < length (g_node_pool st))%nat) by (eapply lookup_lt_Some; exact Hn).
  set (endpos := fptr h + btw).
  assert (E : write st (Some h) (Some src) btw (Some bw0)
              = '(ok, st1) ← ensure_capacity st (Some i) endpos;
                if negb ok then Done (FR_INT_ERR, st1, Some h, Some 0)
                else
                  nd ← deref st1 (Some i);
                  match data nd with
                  | None => Undefined
                  | Some d =>
                    if (Z.of_nat (length d) <? fptr h + btw)
                       || (Z.of_nat (length src) <? btw)
                    then Undefined
                    else
                      st2 ← update i (set_data (Some (memcpy_at d (fptr h) src btw))) st1;
                      let h1 := set_fptr endpos h in
                      '(st3, h2) ← (if endpos >? size nd
                                    then st3 ← update i (set_size endpos) st2;
                                         Done (st3, set_objsize endpos h1)
                                    else Done (st2, h1));
                      Done (FR_OK, st3, Some h2, Some btw)
                  end).
  { unfold f_write. rewrite Hm, Hw, Hp. cbn [negb].
    rewrite fsize_t_small by lia. reflexivity. }
  rewrite E. clear E.
  rewrite (ensure_capacity_unbuffered st i node endpos Hn Hd Ha) by (unfold endpos; lia).
  split.
  - intros Hlt. destruct (Z.ltb_spec endpos (size node)); [reflexivity|lia].
  - intros Hge. destruct (Z.ltb_spec endpos (size node)) as [Hbad|_]; [lia|].
    run_step. cbn [negb]. unfold deref. cbn [g_node_pool with_pool].
    rewrite list_lookup_insert_eq by exact Hi. run_step. cbn [data set_data].
    set (blk := replicate (Z.to_nat (size node)) x00
                ++ map junk (seq (Z.to_nat (size node))
                                 (Z.to_nat endpos - Z.to_nat (size node)))).
    assert (Hblk : Z.of_nat (length blk) = endpos).
    { unfold blk. rewrite length_app, length_replicate, length_map, length_seq. lia. }
    destruct (Z.ltb_spec (Z.of_nat (length blk)) (fptr h + btw)) as [Hbad|_];
      [unfold endpos in Hblk; lia|].
    destruct (Z.ltb_spec (Z.of_nat (length src)) btw) as [Hbad|_]; [lia|].
    cbn [orb]. unfold update. cbn [g_node_pool with_pool].
    rewrite list_lookup_insert_eq by exact Hi. run_step.
    cbn [size set_data].
    set (d' := memcpy_at blk (fptr h) src btw).
    assert (Hl' : Z.of_nat (length d') = endpos).
    { unfold d'. rewrite length_memcpy_at; unfold endpos in *; lia. }
    assert (Hother : forall k : nat, Z.of_nat k < fptr h -> d' !! k = blk !! k).
    { intros k Hk. unfold d'.
      apply SDMore.memcpy_at_lookup_other; unfold endpos in *; lia. }
    assert (Hrt : bytes_at d' (fptr h) btw = take (Z.to_nat btw) src).
    { unfold d'. apply bytes_at_memcpy_at; unfold endpos in *; lia. }
    assert (Hz : forall k : nat, Z.of_nat k < size node -> Z.of_nat k < fptr h ->
                 d' !! k = Some x00).
    { intros k Hk Hk'. rewrite Hother by exact Hk'. unfold blk.
      rewrite lookup_app_l by (rewrite length_replicate; lia).
      apply lookup_replicate_2. lia. }
    assert (Hj : forall k : nat, size node <= Z.of_nat k < fptr h ->
                 d' !! k = Some (junk k)).
    { intros k Hk. rewrite Hother by lia. unfold blk.
      rewrite lookup_app_r by (rewrite length_replicate; lia).
      rewrite length_replicate, list_lookup_fmap.
      rewrite lookup_seq_lt by (unfold endpos; lia).
      cbn. do 2 f_equal. lia. }
    destruct (Z.gtb_spec endpos (size node)) as [Hgt|Hle]; run_step;
      cbn [g_node_pool with_pool].
    + rewrite list_lookup_insert_eq by (rewrite length_insert; exact Hi). run_step.
      eexists _, _, _, d'. split; [reflexivity|].
      cbn [g_node_pool with_pool].
      rewrite list_lookup_insert_eq by (rewrite !length_insert; exact Hi).
      split; [reflexivity|]. split; [reflexivity|]. split; [reflexivity|].
      split; [exact Hl'|]. split; [exact Hrt|]. split; [exact Hz|exact Hj].
    + eexists _, _, _, d'. split; [reflexivity|].
      cbn [g_node_pool with_pool].
      rewrite list_lookup_insert_eq by (rewrite !length_insert; exact Hi).
      split; [reflexivity|]. split; [reflexivity|].
      split; [cbn [size set_data]; unfold endpos in *; lia|].
      split; [cbn [size set_data]; unfold endpos in *; lia|].
      split; [exact Hrt|]. split; [exact Hz|exact Hj].
Qed.

End Capacity.

(** X15: seeking past the end.  On a handle without [FA_WRITE], [f_lseek]
    to an offset behind the end puts the cursor at the end, and the [f_read]
    that follows returns [FR_OK] with no byte; on a handle with [FA_WRITE]
    the cursor goes where it was asked to go. *)
Theorem f_lseek_past_the_end FSIZE_BITS (st : fs_state) (h : FIL) (i : nat)
    (node : FsNode) (ofs btr br0 : Z) (dst : list byte) :
  g_mounted st = true -> dir_ptr h = Some i -> g_node_pool st !! i = Some node ->
  size node < ofs ->
  (has_bits (flag h) FA_WRITE = false ->
     f_lseek st (Some h) ofs = Done (FR_OK, Some (set_fptr (size node) h))
     /\ f_read FSIZE_BITS st (Some (set_fptr (size node) h)) (Some dst) btr (Some br0)
        = Done (FR_OK, Some (set_fptr (size node) h), Some dst, Some 0))
  /\ (has_bits (flag h) FA_WRITE = true ->
      f_lseek st (Some h) ofs = Done (FR_OK, Some (set_fptr ofs h))).
Proof.
  intros Hm Hp Hn Hofs.
  assert (E : f_lseek st (Some h) ofs
              = Done (FR_OK,
                      Some (set_fptr (if negb (has_bits (flag h) FA_WRITE)
                                      then size node else ofs) h))).
  { unfold f_lseek. rewrite Hm, Hp. cbn [negb].
    rewrite (deref_lookup _ _ _ Hn). run_step.
    destruct (Z.gtb_spec ofs (size node)) as [_|Hbad]; [|lia]. reflexivity. }
  split; intros Hw; rewrite E, Hw; cbn [negb]; [|reflexivity].
  split; [reflexivity|].
  unfold f_read. rewrite Hm. cbn [negb dir_ptr set_fptr]. rewrite Hp.
  rewrite (deref_lookup _ _ _ Hn). run_step. cbn [fptr set_fptr].
  destruct (Z.geb_spec (size node) (size node)) as [_|Hbad]; [reflexivity|lia].
Qed.

(** ** Reading a line *)

Section Gets.
Variable FSIZE_BITS : Z.
Hypothesis Hbits : 32 <= FSIZE_BITS.

(** The loop of [f_gets] over a buffer that holds the file. *)
Lemma gets_loop_buffered k d sz pos :
  0 <= pos <= sz -> sz <= Z.of_nat (length d) -> sz < 4294967296 ->
  exists line,
    gets_loop FSIZE_BITS k (Some d) sz pos = Done (line, pos + Z.of_nat (length line))
    /\ line = take (length line) (drop (Z.to_nat pos) d)
    /\ (length line <= k)%nat /\ pos + Z.of_nat (length line) <= sz
    /\ (forall j, (S j < length line)%nat -> line !! j <> Some x0a)
    /\ (last line = Some x0a \/ length line = k \/ pos + Z.of_nat (length line) = sz).
Proof.
  pose proof (pow_bits_ge _ Hbits) as Hpw.
  revert pos. induction k as [|k IH]; intros pos Hpos Hlen Hsz; cbn [gets_loop].
  - exists []. cbn [length]. rewrite Z.add_0_r.
    split; [reflexivity|]. split; [reflexivity|]. split; [lia|]. split; [lia|].
    split; [intros j Hj; lia|]. right. left. reflexivity.
  - destruct (Z.ltb_spec pos sz) as [Hlt|Hge].
    + destruct (d !! Z.to_nat pos) as [c|] eqn:Ec;
        [|apply lookup_ge_None in Ec; lia].
      run_step. rewrite fsize_t_small by lia.
      assert (Hd : drop (Z.to_nat pos) d = c :: drop (Z.to_nat (pos + 1)) d).
      { replace (Z.to_nat (pos + 1)) with (S (Z.to_nat pos)) by lia.
        apply drop_S. exact Ec. }
      destruct (Byte.eqb c x0a) eqn:Enl.
      * exists [c]. cbn [length]. split; [reflexivity|].
        split; [rewrite Hd; reflexivity|].
        split; [lia|]. split; [lia|]. split.
        -- intros j Hj. cbn [length] in Hj. lia.
        -- left. apply Byte.byte_dec_bl in Enl. subst c. reflexivity.
      * destruct (IH (pos + 1) ltac:(lia) Hlen Hsz)
          as (rest & Hloop & Hpre & Hk & Hin & Hnl & Hstop).
        rewrite Hloop. run_step. exists (c :: rest). cbn [length].
        split; [do 2 f_equal; lia|].
        split; [rewrite Hd; cbn [take]; f_equal; exact Hpre|].
        split; [lia|]. split; [lia|]. split.
        -- intros [|j] Hj; cbn [lookup list_lookup].
           ++ intros [= ->]. discriminate Enl.
           ++ apply Hnl. cbn [length] in Hj. lia.
        -- destruct Hstop as [Hl|[Hl|Hl]].
           ++ left. destruct rest as [|c' rest']; [discriminate Hl|]. exact Hl.
           ++ right. left. lia.
           ++ right. right. lia.
    + exists []. cbn [length]. rewrite Z.add_0_r.
      split; [reflexivity|]. split; [reflexivity|]. split; [lia|]. split; [lia|].
      split; [intros j Hj; lia|]. right. right. lia.
Qed.

(** X16: [f_gets] reads a line.  Before the end of a file whose buffer holds
    it, [f_gets] with room for [len] bytes returns the bytes from the cursor
    up to and including the first newline, but no more than [len - 1] bytes
    and none from behind the end, and moves the cursor behind them; at or
    behind the end it returns the null pointer and moves nothing. *)
Theorem f_gets_reads_a_line (st : fs_state) (h : FIL) (i : nat) (node : FsNode)
    (d : list byte) (len : Z) :
  g_mounted st = true -> dir_ptr h = Some i -> g_node_pool st !! i = Some node ->
  data node = Some d -> size node <= Z.of_nat (length d) ->
  size node < 4294967296 -> 0 <= fptr h -> 0 < len ->
  (fptr h < size node ->
     exists line,
       f_gets FSIZE_BITS st true len (Some h)
       = Done (Some line, Some (set_fptr (fptr h + Z.of_nat (length line)) h))
       /\ line = take (length line) (drop (Z.to_nat (fptr h)) d)
       /\ Z.of_nat (length line) <= len - 1
       /\ fptr h + Z.of_nat (length line) <= size node
       /\ (forall j, (S j < length line)%nat -> line !! j <> Some x0a)
       /\ (last line = Some x0a \/ Z.of_nat (length line) = len - 1
           \/ fptr h + Z.of_nat (length line) = size node))
  /\ (size node <= fptr h ->
      f_gets FSIZE_BITS st true len (Some h) = Done (None, Some h)).
Proof.
  intros Hm Hp Hn Hd Hlen Hsz Hpos Hl.
  assert (E : f_gets FSIZE_BITS st true len (Some h)
              = if fptr h >=? size node then Done (None, Some h)
                else
                  '(bytes, pos) ← gets_loop FSIZE_BITS (Z.to_nat (len - 1)) (Some d)
                                            (size node) (fptr h);
                  Done (Some bytes, Some (set_fptr pos h))).
  { unfold f_gets. rewrite Hm, Hp. cbn [negb orb].
    destruct (Z.leb_spec len 0) as [Hbad|_]; [lia|].
    rewrite (deref_lookup _ _ _ Hn). run_step. rewrite Hd. reflexivity. }
  rewrite E. split.
  - intros Hlt. destruct (Z.geb_spec (fptr h) (size node)) as [Hbad|_]; [lia|].
    destruct (gets_loop_buffered (Z.to_nat (len - 1)) d (size node) (fptr h)
                ltac:(lia) Hlen Hsz)
      as (line & Hloop & Hpre & Hk & Hin & Hnl & Hstop).
    rewrite Hloop. run_step. exists line.
    split; [reflexivity|]. split; [exact Hpre|]. split; [lia|].
    split; [exact Hin|]. split; [exact Hnl|].
    destruct Hstop as [Hs|[Hs|Hs]]; [left; exact Hs|right; left; lia|right; right; exact Hs].
  - intros Hge. destruct (Z.geb_spec (fptr h) (size node)) as [_|Hbad]; [reflexivity|lia].
Qed.

(** The loop of [f_gets] on a file without buffer: every byte is NUL. *)
Lemma gets_loop_unbuffered k sz pos :
  0 <= pos <= sz -> sz < 4294967296 ->
  gets_loop FSIZE_BITS k None sz pos
  = Done (replicate (Nat.min k (Z.to_nat (sz - pos))) x00,
          pos + Z.of_nat (Nat.min k (Z.to_nat (sz - pos)))).
Proof.
  pose proof (pow_bits_ge _ Hbits) as Hpw.
  revert pos. induction k as [|k IH]; intros pos Hpos Hsz; cbn [gets_loop].
  - cbn [Nat.min replicate]. rewrite Z.add_0_r. reflexivity.
  - destruct (Z.ltb_spec pos sz) as [Hlt|Hge].
    + run_step. rewrite fsize_t_small by lia.
      change (Byte.eqb x00 x0a) with false. cbv iota.
      rewrite IH by lia. run_step.
      replace (Z.to_nat (sz - pos)) with (S (Z.to_nat (sz - (pos + 1)))) by lia.
      cbn [Nat.min replicate]. do 2 f_equal. lia.
    + replace (Z.to_nat (sz - pos)) with O by lia.
      rewrite Nat.min_0_r. cbn [replicate]. rewrite Z.add_0_r. reflexivity.
Qed.

(** X17: [f_gets] on a file that has a size but no buffer, as the files of
    the default layout: every byte reads as NUL, so the buffer holds the
    empty string although the cursor moved by [len - 1] bytes, or to the end
    if that is nearer. *)
Theorem f_gets_without_buffer (st : fs_state) (h : FIL) (i : nat) (node : FsNode)
    (len : Z) :
  g_mounted st = true -> dir_ptr h = Some i -> g_node_pool st !! i = Some node ->
  data node = None -> size node < 4294967296 -> 0 <= fptr h < size node -> 0 < len ->
  let n := Z.min (len - 1) (size node - fptr h) in
  f_gets FSIZE_BITS st true len (Some h)
  = Done (Some (replicate (Z.to_nat n) x00), Some (set_fptr (fptr h + n) h)).
Proof.
  intros Hm Hp Hn Hd Hsz Hpos Hl n.
  unfold f_gets. rewrite Hm, Hp. cbn [negb orb].
  destruct (Z.leb_spec len 0) as [Hbad|_]; [lia|].
  rewrite (deref_lookup _ _ _ Hn). run_step. rewrite Hd.
  destruct (Z.geb_spec (fptr h) (size node)) as [Hbad|_]; [lia|].
  rewrite gets_loop_unbuffered by lia. run_step.
  replace (Nat.min (Z.to_nat (len - 1)) (Z.to_nat (size node - fptr h)))
    with (Z.to_nat n) by (unfold n; lia).
  rewrite Z2Nat.id by (unfold n; lia). reflexivity.
Qed.

End Gets.

(** ** The node pool *)

Ltac fs_proj :=
  cbn [g_fs g_root g_cwd g_nextCluster g_mounted g_node_pool g_node_used g_iter_dir
       g_iter_next with_pool with_used with_nextCluster with_root with_cwd with_iter]
    in *.

(** What the scan of [fs_alloc_node] returns. *)
Lemma scan_free_spec pool k used :
  match scan_free pool k used with
  | Some j =>
    (k <= j < k + used)%nat
    /\ exists n, pool !! (j - k)%nat = Some n /\ is_free n = true
  | None =>
    forall j n, (j < used)%nat -> pool !! j = Some n -> is_free n = false
  end.
Proof.
  revert k used. induction pool as [|m pool IH]; intros k used.
  - destruct used; cbn [scan_free]; intros j n _ Hn; rewrite lookup_nil in Hn;
      discriminate.
  - destruct used as [|used]; cbn [scan_free]; [intros j n Hj; lia|].
    destruct (is_free m) eqn:Em.
    + split; [lia|]. exists m. rewrite Nat.sub_diag. split; [reflexivity|exact Em].
    + specialize (IH (S k) used). destruct (scan_free pool (S k) used) as [j|].
      * destruct IH as (Hj & n & Hn & Hf). split; [lia|]. exists n.
        replace (j - k)%nat with (S (j - S k)) by lia. split; assumption.
      * intros [|j] n Hj Hn; [cbn in Hn; congruence|].
        apply (IH j n); [lia|exact Hn].
Qed.

(** What [fs_new_node] returns and leaves. *)
Lemma new_node_spec st nm a r st' :
  length (g_node_pool st) = FS_MAX_NODES -> (g_node_used st <= FS_MAX_NODES)%nat ->
  fs_new_node st nm a = (r, st') ->
  match r with
  | Some i =>
    (i < FS_MAX_NODES)%nat
    /\ g_node_pool st' !! i = Some (mk_node (strncpy nm 99) a None None None None 0 2)
    /\ (forall j, j <> i -> g_node_pool st' !! j = g_node_pool st !! j)
    /\ (((i < g_node_used st)%nat
         /\ (is_free <$> g_node_pool st !! i) = Some true
         /\ g_node_used st' = g_node_used st)
        \/ (i = g_node_used st /\ g_node_used st' = S (g_node_used st)))
    /\ (g_node_used st' <= FS_MAX_NODES)%nat
    /\ with_used (g_node_used st) (with_pool (g_node_pool st) st') = st
  | None =>
    st' = st /\ g_node_used st = FS_MAX_NODES
    /\ forall j n, g_node_pool st !! j = Some n -> is_free n = false
  end.
Proof.
  intros Hlen Hused. unfold fs_new_node, fs_alloc_node.
  pose proof (scan_free_spec (g_node_pool st) 0 (g_node_used st)) as Hscan.
  destruct (scan_free (g_node_pool st) 0 (g_node_used st)) as [i|].
  - destruct Hscan as (Hi & n & Hn & Hf). rewrite Nat.sub_0_r in Hn.
    intros [= <- <-]. fs_proj. rewrite list_insert_insert_eq.
    split; [lia|]. split; [apply list_lookup_insert_eq; rewrite Hlen; lia|].
    split; [intros j Hj; apply list_lookup_insert_ne; congruence|].
    split; [left; split; [lia|]; split; [rewrite Hn; cbn; rewrite Hf|]; reflexivity|].
    split; [exact Hused|]. destruct st; reflexivity.
  - destruct (Nat.leb_spec FS_MAX_NODES (g_node_used st)) as [Hfull|Hroom].
    + intros [= <- <-]. split; [reflexivity|]. split; [lia|].
      intros j n Hn. apply (Hscan j n); [|exact Hn].
      apply lookup_lt_Some in Hn. lia.
    + intros [= <- <-]. fs_proj. rewrite list_insert_insert_eq.
      split; [lia|]. split; [apply list_lookup_insert_eq; rewrite Hlen; lia|].
      split; [intros j Hj; apply list_lookup_insert_ne; congruence|].
      split; [right; split; reflexivity|].
      split; [lia|]. destruct st; reflexivity.
Qed.

(** X18: [fs_new_node] never hands out a slot that is in use.  The slot it
    returns is a used one that was free, or the first one never used; it
    holds the new node, with at most 99 characters of the name, no links, no
    content and start cluster 2, and every other slot is as before.  It
    fails only when all [FS_MAX_NODES] slots were handed out and none of them
    is free, and then nothing changes. *)
Theorem fs_new_node_takes_a_free_slot (st : fs_state) (nm : string) (a : Z) :
  length (g_node_pool st) = FS_MAX_NODES -> (g_node_used st <= FS_MAX_NODES)%nat ->
  match fs_new_node st nm a with
  | (Some i, st') =>
    (i < FS_MAX_NODES)%nat
    /\ g_node_pool st' !! i = Some (mk_node (strncpy nm 99) a None None None None 0 2)
    /\ (forall j, j <> i -> g_node_pool st' !! j = g_node_pool st !! j)
    /\ (((i < g_node_used st)%nat
         /\ (is_free <$> g_node_pool st !! i) = Some true
         /\ g_node_used st' = g_node_used st)
        \/ (i = g_node_used st /\ g_node_used st' = S (g_node_used st)))
    /\ (g_node_used st' <= FS_MAX_NODES)%nat
    /\ with_used (g_node_used st) (with_pool (g_node_pool st) st') = st
  | (None, st') =>
    st' = st /\ g_node_used st = FS_MAX_NODES
    /\ forall j n, g_node_pool st !! j = Some n -> is_free n = false
  end.
Proof.
  intros Hlen Hused. destruct (fs_new_node st nm a) as [r st'] eqn:E.
  exact (new_node_spec st nm a r st' Hlen Hused E).
Qed.

(** ** Child lists *)

Lemma snoc_case {A} (l : list A) : l = [] \/ exists l0 x, l = l0 ++ [x].
Proof.
  induction l as [|x l0 _] using rev_ind; [left; reflexivity|].
  right. exists l0, x. reflexivity.
Qed.

Lemma chain_app_last pool s l x :
  chain pool s (l ++ [x]) ->
  exists n, pool !! x = Some n /\ nextSibling n = None.
Proof.
  revert s. induction l as [|y l IH]; intros s H.
  - destruct H as [_ (n & Hn & Hr)]. exists n. split; [exact Hn|exact Hr].
  - destruct H as [_ (n & _ & Hr)]. eapply IH. exact Hr.
Qed.

(** The walk of [fs_add_child] ends on the last node of the list. *)
Lemma last_sibling_chain st fuel f l x :
  chain (g_node_pool st) (Some f) (l ++ [x]) -> (length l < fuel)%nat ->
  last_sibling fuel st f = Done x.
Proof.
  revert fuel f. induction l as [|y l IH]; intros fuel f H Hf.
  - destruct H as [[= ->] (n & Hn & Hr)]. cbn in Hr.
    destruct fuel as [|fuel]; [cbn in Hf; lia|]. cbn [last_sibling].
    rewrite (deref_lookup _ _ _ Hn). run_step. rewrite Hr. reflexivity.
  - destruct H as [[= ->] (n & Hn & Hr)].
    destruct fuel as [|fuel]; [cbn in Hf; lia|]. cbn [last_sibling].
    rewrite (deref_lookup _ _ _ Hn). run_step.
    assert (Hz : exists z, nextSibling n = Some z).
    { destruct l as [|z l']; destruct Hr as [Hz _]; eexists; exact Hz. }
    destruct Hz as [z Hz]. rewrite Hz. rewrite Hz in Hr.
    apply IH; [exact Hr|cbn in Hf; lia].
Qed.

(** A list whose last node gets [c] as its next sibling, [c] having none. *)
Lemma chain_snoc pool pool' s l x c nx' nc' :
  chain pool s (l ++ [x]) -> c ∉ l ++ [x] ->
  pool' !! x = Some nx' -> nextSibling nx' = Some c ->
  pool' !! c = Some nc' -> nextSibling nc' = None ->
  (forall y n, y ∈ l -> pool !! y = Some n ->
     exists n', pool' !! y = Some n' /\ nextSibling n' = nextSibling n) ->
  chain pool' s ((l ++ [x]) ++ [c]).
Proof.
  revert s. induction l as [|y l IH]; intros s H Hc Hx Hxn Hcc Hcn Hsame.
  - destruct H as [-> _]. split; [reflexivity|].
    exists nx'. split; [exact Hx|]. rewrite Hxn. split; [reflexivity|].
    exists nc'. split; [exact Hcc|exact Hcn].
  - destruct H as [-> (n & Hn & Hr)]. split; [reflexivity|].
    destruct (Hsame y n ltac:(left) Hn) as (n' & Hn' & E).
    exists n'. split; [exact Hn'|]. rewrite E. apply IH; try assumption.
    + intros Hin. apply Hc. right. exact Hin.
    + intros z m Hz Hm. apply Hsame; [right; exact Hz|exact Hm].
Qed.

Lemma with_pool_with_pool p q st : with_pool p (with_pool q st) = with_pool p st.
Proof. reflexivity. Qed.

(** What [fs_add_child] does to the pool: the child gets its parent and loses
    its sibling, and the directory, or the last child it had, points to it. *)
Lemma fs_add_child_pool st di c dn cn l :
  g_node_pool st !! di = Some dn -> g_node_pool st !! c = Some cn ->
  chain (g_node_pool st) (firstChild dn) l -> c ∉ l -> c <> di ->
  let cn' := set_nextSibling None (set_parent (Some di) cn) in
  let pool1 := <[c := cn']> (g_node_pool st) in
  exists pool',
    fs_add_child st (Some di) (Some c) = Done (with_pool pool' st)
    /\ match last l with
       | None => pool' = <[di := set_firstChild (Some c) dn]> pool1
       | Some x =>
         exists nx, g_node_pool st !! x = Some nx /\ x <> c
                    /\ pool' = <[x := set_nextSibling (Some c) nx]> pool1
       end
    /\ chain pool' (match last l with
                    | None => Some c
                    | Some _ => firstChild dn
                    end) (l ++ [c]).
Proof.
  intros Hd Hc Hl Hcl Hcd cn' pool1.
  assert (Hci : (c < length (g_node_pool st))%nat) by (eapply lookup_lt_Some; exact Hc).
  assert (Hdi : (di < length (g_node_pool st))%nat) by (eapply lookup_lt_Some; exact Hd).
  assert (Hc1 : pool1 !! c = Some cn') by (apply list_lookup_insert_eq; exact Hci).
  assert (Hd1 : pool1 !! di = Some dn)
    by (unfold pool1; rewrite list_lookup_insert_ne by congruence; exact Hd).
  assert (E : fs_add_child st (Some di) (Some c)
              = match firstChild dn with
                | None => update di (set_firstChild (Some c)) (with_pool pool1 st)
                | Some f =>
                  x ← last_sibling (walk_fuel (with_pool pool1 st)) (with_pool pool1 st) f;
                  update x (set_nextSibling (Some c)) (with_pool pool1 st)
                end).
  { unfold fs_add_child. rewrite (update_lookup _ _ _ _ Hc). run_step.
    rewrite (update_lookup _ c (set_parent (Some di) cn))
      by (apply list_lookup_insert_eq; exact Hci).
    run_step. rewrite with_pool_with_pool. cbn [g_node_pool with_pool].
    rewrite list_insert_insert_eq. fold cn'. fold pool1.
    rewrite (deref_lookup (with_pool pool1 st) di dn Hd1). run_step. reflexivity. }
  rewrite E. clear E.
  assert (Hchain1 : chain pool1 (firstChild dn) l).
  { eapply chain_ext; [exact Hl|]. intros x n Hx Hn. exists n. split; [|reflexivity].
    unfold pool1. rewrite list_lookup_insert_ne; [exact Hn|]. intros ->. contradiction. }
  destruct (snoc_case l) as [->|(l0 & x & ->)].
  - cbn in Hl. rewrite Hl. cbn [last].
    unfold update. fs_proj. rewrite Hd1. run_step.
    eexists. split; [reflexivity|]. split; [reflexivity|].
    cbn [app]. split; [reflexivity|]. exists cn'. split; [|reflexivity].
    rewrite list_lookup_insert_ne by congruence. exact Hc1.
  - rewrite last_snoc.
    destruct (chain_app_last _ _ _ _ Hl) as (nx & Hnx & Hnxn).
    assert (Hxc : x <> c) by (intros ->; apply Hcl, elem_of_app; right; left).
    assert (Hx1 : pool1 !! x = Some nx)
      by (unfold pool1; rewrite list_lookup_insert_ne by congruence; exact Hnx).
    destruct (firstChild dn) as [f|] eqn:Ef;
      [|destruct l0; destruct Hl as [Hl _]; discriminate].
    rewrite (last_sibling_chain (with_pool pool1 st) _ f l0 x).
    + run_step. unfold update. fs_proj. rewrite Hx1. run_step.
      eexists. split; [reflexivity|].
      split; [exists nx; split; [exact Hnx|]; split; [exact Hxc|reflexivity]|].
      eapply (chain_snoc pool1 _ (Some f) l0 x c).
      * exact Hchain1.
      * exact Hcl.
      * apply list_lookup_insert_eq. eapply lookup_lt_Some. exact Hx1.
      * reflexivity.
      * rewrite list_lookup_insert_ne by exact Hxc. exact Hc1.
      * reflexivity.
      * intros y n Hy Hn. exists n. split; [|reflexivity].
        rewrite list_lookup_insert_ne; [exact Hn|].
        intros ->. pose proof (chain_NoDup _ _ _ Hchain1) as Hnd.
        apply NoDup_app in Hnd as (_ & Hnd & _). apply (Hnd y Hy). left.
    + fs_proj. exact Hchain1.
    + unfold walk_fuel. fs_proj.
      pose proof (chain_length _ _ _ Hchain1) as Hle.
      rewrite length_app in Hle. cbn in Hle. lia.
Qed.

(** [fs_add_child], as its callers need it. *)
Lemma add_child_spec st di c dn cn l :
  g_node_pool st !! di = Some dn -> g_node_pool st !! c = Some cn ->
  chain (g_node_pool st) (firstChild dn) l -> c ∉ l -> c <> di ->
  exists st' dn' cn',
    fs_add_child st (Some di) (Some c) = Done st'
    /\ with_pool (g_node_pool st) st' = st
    /\ g_node_pool st' !! di = Some dn'
    /\ chain (g_node_pool st') (firstChild dn') (l ++ [c])
    /\ g_node_pool st' !! c = Some cn'
    /\ parent cn' = Some di /\ nextSibling cn' = None
    /\ firstChild cn' = firstChild cn
    /\ (forall j n, g_node_pool st !! j = Some n ->
          exists n', g_node_pool st' !! j = Some n' /\ same_entry n n'
                     /\ (j <> c -> parent n' = parent n)
                     /\ (j <> di -> firstChild n' = firstChild n)).
Proof.
  intros Hd Hc Hl Hcl Hcd.
  destruct (fs_add_child_pool st di c dn cn l Hd Hc Hl Hcl Hcd)
    as (pool' & E & Hpool & Hchain).
  cbv zeta in Hpool.
  set (cn' := set_nextSibling None (set_parent (Some di) cn)) in *.
  set (pool1 := <[c := cn']> (g_node_pool st)) in *.
  assert (Hci : (c < length (g_node_pool st))%nat) by (eapply lookup_lt_Some; exact Hc).
  assert (Hdi : (di < length (g_node_pool st))%nat) by (eapply lookup_lt_Some; exact Hd).
  assert (Hc1 : pool1 !! c = Some cn') by (apply list_lookup_insert_eq; exact Hci).
  assert (Hframe1 : forall j n, g_node_pool st !! j = Some n ->
            exists n1, pool1 !! j = Some n1 /\ same_entry n n1
                       /\ (j <> c -> n1 = n) /\ firstChild n1 = firstChild n).
  { intros j n Hn. destruct (decide (j = c)) as [->|Hj].
    - exists cn'. split; [exact Hc1|]. rewrite Hc in Hn. injection Hn as <-.
      split; [repeat split|]. split; [congruence|reflexivity].
    - exists n. unfold pool1. rewrite list_lookup_insert_ne by congruence.
      split; [exact Hn|]. split; [repeat split|]. split; reflexivity. }
  exists (with_pool pool' st).
  destruct (last l) as [x|] eqn:El.
  - destruct Hpool as (nx & Hnx & Hxc & ->).
    assert (Hx1 : pool1 !! x = Some nx)
      by (unfold pool1; rewrite list_lookup_insert_ne by congruence; exact Hnx).
    assert (Hxi : (x < length pool1)%nat) by (eapply lookup_lt_Some; exact Hx1).
    assert (Hdn' : exists dn', <[x := set_nextSibling (Some c) nx]> pool1 !! di = Some dn'
                               /\ firstChild dn' = firstChild dn).
    { destruct (decide (x = di)) as [->|Hxd].
      - rewrite list_lookup_insert_eq by exact Hxi. eexists. split; [reflexivity|].
        rewrite Hd in Hnx. injection Hnx as <-. reflexivity.
      - rewrite list_lookup_insert_ne by exact Hxd. exists dn.
        split; [|reflexivity]. unfold pool1.
        rewrite list_lookup_insert_ne by congruence. exact Hd. }
    destruct Hdn' as (dn' & Hdn' & Hfc).
    exists dn', cn'. split; [exact E|]. split; [destruct st; reflexivity|].
    cbn [g_node_pool with_pool]. split; [exact Hdn'|].
    split; [rewrite Hfc; exact Hchain|].
    split; [rewrite list_lookup_insert_ne by exact Hxc; exact Hc1|].
    split; [reflexivity|]. split; [reflexivity|]. split; [reflexivity|].
    intros j n Hn. destruct (Hframe1 j n Hn) as (n1 & Hn1 & Hsame & Heq & Hfc1).
    destruct (decide (j = x)) as [->|Hjx].
    + rewrite list_lookup_insert_eq by exact Hxi. eexists. split; [reflexivity|].
      rewrite Hnx in Hn. injection Hn as <-.
      split; [repeat split|]. split; reflexivity.
    + rewrite list_lookup_insert_ne by congruence. exists n1.
      split; [exact Hn1|]. split; [exact Hsame|].
      split; [intros Hj; rewrite (Heq Hj); reflexivity|intros _; exact Hfc1].
  - subst pool'.
    assert (Hd1 : pool1 !! di = Some dn)
      by (unfold pool1; rewrite list_lookup_insert_ne by congruence; exact Hd).
    assert (Hdi1 : (di < length pool1)%nat) by (eapply lookup_lt_Some; exact Hd1).
    exists (set_firstChild (Some c) dn), cn'.
    split; [exact E|]. split; [destruct st; reflexivity|].
    cbn [g_node_pool with_pool].
    split; [apply list_lookup_insert_eq; exact Hdi1|].
    split; [exact Hchain|].
    split; [rewrite list_lookup_insert_ne by congruence; exact Hc1|].
    split; [reflexivity|]. split; [reflexivity|]. split; [reflexivity|].
    intros j n Hn. destruct (Hframe1 j n Hn) as (n1 & Hn1 & Hsame & Heq & Hfc1).
    destruct (decide (j = di)) as [->|Hjd].
    + rewrite list_lookup_insert_eq by exact Hdi1. eexists. split; [reflexivity|].
      rewrite Hd in Hn. injection Hn as <-.
      split; [repeat split|]. split; [reflexivity|congruence].
    + rewrite list_lookup_insert_ne by congruence. exists n1.
      split; [exact Hn1|]. split; [exact Hsame|].
      split; [intros Hj; rewrite (Heq Hj); reflexivity|intros _; exact Hfc1].
Qed.

(** X19: [fs_add_child] appends.  For a directory whose children form the
    list [l] and a node that is neither in it nor the directory itself, the
    children afterwards are [l] followed by the node, the node has the
    directory as its parent and no next sibling, and every node keeps its
    name, attributes, content and size. *)
Theorem fs_add_child_appends (st : fs_state) (di c : nat) (dn cn : FsNode)
    (l : list nat) :
  g_node_pool st !! di = Some dn -> g_node_pool st !! c = Some cn ->
  chain (g_node_pool st) (firstChild dn) l -> c ∉ l -> c <> di ->
  exists st' dn' cn',
    fs_add_child st (Some di) (Some c) = Done st'
    /\ g_node_pool st' !! di = Some dn'
    /\ chain (g_node_pool st') (firstChild dn') (l ++ [c])
    /\ g_node_pool st' !! c = Some cn'
    /\ parent cn' = Some di /\ nextSibling cn' = None
    /\ (forall j n, g_node_pool st !! j = Some n ->
          exists n', g_node_pool st' !! j = Some n' /\ same_entry n n').
Proof.
  intros Hd Hc Hl Hcl Hcd.
  destruct (add_child_spec st di c dn cn l Hd Hc Hl Hcl Hcd)
    as (st' & dn' & cn' & E & _ & Hdn & Hch & Hcn & Hp & Hs & _ & Hframe).
  exists st', dn', cn'. split; [exact E|]. split; [exact Hdn|]. split; [exact Hch|].
  split; [exact Hcn|]. split; [exact Hp|]. split; [exact Hs|].
  intros j n Hn. destruct (Hframe j n Hn) as (n' & Hn' & Hsame & _).
  exists n'. split; assumption.
Qed.

(** ** Looking a name up *)

Lemma find_loop_chain_hit st fuel s l1 x l2 nx nm :
  chain (g_node_pool st) s (l1 ++ x :: l2) -> (length l1 < fuel)%nat ->
  (forall y n, y ∈ l1 -> g_node_pool st !! y = Some n ->
     strcasecmp_eq (name n) nm = false) ->
  g_node_pool st !! x = Some nx -> strcasecmp_eq (name nx) nm = true ->
  find_loop fuel st s nm = Done (Some x).
Proof.
  revert fuel s. induction l1 as [|y l1 IH]; intros fuel s H Hf Hno Hx Hm.
  - destruct H as [-> _]. destruct fuel as [|fuel]; [lia|]. cbn [find_loop].
    rewrite (deref_lookup _ _ _ Hx). run_step. rewrite Hm. reflexivity.
  - destruct H as [-> (n & Hn & Hr)]. destruct fuel as [|fuel]; [cbn in Hf; lia|].
    cbn [find_loop]. rewrite (deref_lookup _ _ _ Hn). run_step.
    rewrite (Hno y n ltac:(left) Hn).
    apply IH; try assumption; [cbn in Hf; lia|].
    intros z m Hz Hzm. apply (Hno z m); [right; exact Hz|exact Hzm].
Qed.

Lemma find_loop_chain_none st fuel s l nm :
  chain (g_node_pool st) s l -> (length l <= fuel)%nat ->
  (forall y n, y ∈ l -> g_node_pool st !! y = Some n ->
     strcasecmp_eq (name n) nm = false) ->
  find_loop fuel st s nm = Done None.
Proof.
  revert fuel s. induction l as [|y l IH]; intros fuel s H Hf Hno.
  - cbn in H. subst s. destruct fuel; reflexivity.
  - destruct H as [-> (n & Hn & Hr)]. destruct fuel as [|fuel]; [cbn in Hf; lia|].
    cbn [find_loop]. rewrite (deref_lookup _ _ _ Hn). run_step.
    rewrite (Hno y n ltac:(left) Hn).
    apply IH; [exact Hr|cbn in Hf; lia|].
    intros z m Hz Hzm. apply (Hno z m); [right; exact Hz|exact Hzm].
Qed.

Lemma find_loop_none_inv st fuel s l nm :
  chain (g_node_pool st) s l -> find_loop fuel st s nm = Done None ->
  forall y n, y ∈ l -> g_node_pool st !! y = Some n ->
    strcasecmp_eq (name n) nm = false.
Proof.
  revert fuel s. induction l as [|y l IH]; intros fuel s H Hfind z m Hz Hm.
  - inversion Hz.
  - destruct H as [-> (n & Hn & Hr)].
    destruct fuel as [|fuel]; [discriminate Hfind|]. cbn [find_loop] in Hfind.
    rewrite (deref_lookup _ _ _ Hn) in Hfind. cbn [mbind run_bind] in Hfind.
    destruct (strcasecmp_eq (name n) nm) eqn:En; [discriminate Hfind|].
    apply elem_of_cons in Hz as [->|Hz].
    + rewrite Hn in Hm. injection Hm as <-. exact En.
    + eapply IH; eassumption.
Qed.

(** ** Paths of one segment *)

Lemma str_app_cons x a b : String x a +:+ b = String x (a +:+ b).
Proof. reflexivity. Qed.
Lemma str_app_assoc a b c : (a +:+ b) +:+ c = a +:+ (b +:+ c).
Proof. induction a as [|x a IH]; [reflexivity|]. rewrite !str_app_cons, IH. reflexivity. Qed.
Lemma str_length_app a b :
  String.length (a +:+ b) = (String.length a + String.length b)%nat.
Proof. induction a as [|c a IH]; [reflexivity|]. rewrite str_app_cons. cbn [String.length]. rewrite IH. reflexivity. Qed.
Lemma str_app_nil_r a : a +:+ "" = a.
Proof. induction a as [|x a IH]; [reflexivity|]. rewrite str_app_cons, IH. reflexivity. Qed.

Lemma str_take_all n s : (String.length s <= n)%nat -> str_take n s = s.
Proof.
  revert n. induction s as [|c s IH]; intros n H; destruct n; cbn in *;
    try reflexivity; [lia|]. rewrite IH by lia. reflexivity.
Qed.

Lemma cstr_plain s : plain_chars s = true -> cstr s = s.
Proof.
  induction s as [|c s IH]; cbn; [reflexivity|]. intros H.
  apply andb_prop in H as [H Hs]. apply andb_prop in H as [_ Hn].
  destruct (Ascii.eqb c NUL); [discriminate Hn|]. rewrite IH by exact Hs. reflexivity.
Qed.

Lemma strcasecmp_eq_refl s : strcasecmp_eq s s = true.
Proof. unfold strcasecmp_eq. apply String.eqb_refl. Qed.

(** Both walks read a run of plain characters into the segment buffer. *)
Lemma resolve_walk_plain st nm seg cur :
  plain_chars nm = true -> (String.length seg + String.length nm <= 255)%nat ->
  resolve_walk st nm seg cur
  = if String.eqb (seg +:+ nm) "" then Done (Some cur)
    else resolve_seg st cur (seg +:+ nm).
Proof.
  revert seg. induction nm as [|c nm IH]; intros seg Hp Hl; cbn [resolve_walk].
  - rewrite str_app_nil_r. reflexivity.
  - cbn [plain_chars] in Hp. apply andb_prop in Hp as [Hp Hs].
    apply andb_prop in Hp as [Hsl _].
    destruct (Ascii.eqb c SLASH); [discriminate Hsl|].
    cbn [String.length] in Hl.
    destruct (Nat.eqb_spec (String.length seg) 255) as [E|_]; [lia|].
    rewrite IH; [|exact Hs|rewrite str_length_app; cbn; lia].
    rewrite str_app_assoc. reflexivity.
Qed.

Lemma ensure_walk_plain st nm seg cur :
  plain_chars nm = true -> (String.length seg + String.length nm <= 255)%nat ->
  ensure_walk st nm seg cur
  = if String.eqb (seg +:+ nm) "" then Done (cur, st)
    else ensure_seg st cur (seg +:+ nm).
Proof.
  revert seg. induction nm as [|c nm IH]; intros seg Hp Hl; cbn [ensure_walk].
  - rewrite str_app_nil_r. reflexivity.
  - cbn [plain_chars] in Hp. apply andb_prop in Hp as [Hp Hs].
    apply andb_prop in Hp as [Hsl _].
    destruct (Ascii.eqb c SLASH); [discriminate Hsl|].
    cbn [String.length] in Hl.
    destruct (Nat.eqb_spec (String.length seg) 255) as [E|_]; [lia|].
    rewrite IH; [|exact Hs|rewrite str_length_app; cbn; lia].
    rewrite str_app_assoc. reflexivity.
Qed.

Lemma plain_first nm :
  plain_chars nm = true -> nm <> EmptyString ->
  exists c r, nm = String c r /\ Ascii.eqb c SLASH = false.
Proof.
  intros Hp Hne. destruct nm as [|c r]; [congruence|].
  exists c, r. split; [reflexivity|]. cbn in Hp.
  destruct (Ascii.eqb c SLASH); [discriminate Hp|reflexivity].
Qed.

(** A path of one segment resolves to the child of that name of the current
    directory, and [fs_ensure_dir] looks the same child up before it makes
    one. *)
Lemma fs_resolve_segment st r nm :
  g_root st = Some r -> plain_chars nm = true ->
  nm <> EmptyString -> nm <> "."%string -> nm <> ".."%string ->
  (String.length nm <= 255)%nat ->
  fs_resolve st nm
  = fs_find_child st (Some (match g_cwd st with Some c => c | None => r end)) nm.
Proof.
  intros Hr Hp Hne Hd Hdd Hl.
  destruct (plain_first nm Hp Hne) as (c & rest & E & Hc).
  unfold fs_resolve. rewrite (cstr_plain nm Hp), Hr. rewrite E at 1. rewrite Hc.
  rewrite resolve_walk_plain by (try exact Hp; cbn; lia).
  change ("" +:+ nm) with nm.
  destruct (String.eqb_spec nm "") as [E0|_]; [congruence|].
  unfold resolve_seg.
  destruct (String.eqb_spec nm ".") as [E0|_]; [congruence|].
  destruct (String.eqb_spec nm "..") as [E0|_]; [congruence|]. reflexivity.
Qed.

Lemma fs_ensure_dir_segment st r nm :
  g_root st = Some r -> plain_chars nm = true ->
  nm <> EmptyString -> nm <> "."%string -> nm <> ".."%string ->
  (String.length nm <= 255)%nat ->
  fs_ensure_dir st nm
  = let here := Some (match g_cwd st with Some c => c | None => r end) in
    nxt ← fs_find_child st here nm;
    match nxt with
    | Some _ => Done (nxt, st)
    | None =>
      let '(nxt, st) := fs_new_node st nm AM_DIR in
      st ← fs_add_child st here nxt;
      Done (nxt, st)
    end.
Proof.
  intros Hr Hp Hne Hd Hdd Hl.
  destruct (plain_first nm Hp Hne) as (c & rest & E & Hc).
  unfold fs_ensure_dir. rewrite (cstr_plain nm Hp), Hr. rewrite E at 1. rewrite Hc.
  rewrite ensure_walk_plain by (try exact Hp; cbn; lia).
  change ("" +:+ nm) with nm.
  destruct (String.eqb_spec nm "") as [E0|_]; [congruence|].
  unfold ensure_seg.
  destruct (String.eqb_spec nm ".") as [E0|_]; [congruence|].
  destruct (String.eqb_spec nm "..") as [E0|_]; [congruence|]. reflexivity.
Qed.

Lemma fs_resolve_plain st r nm :
  g_root st = Some r -> plain_name nm ->
  fs_resolve st nm
  = fs_find_child st (Some (match g_cwd st with Some c => c | None => r end)) nm.
Proof.
  intros Hr (Hp & Hne & Hd & Hdd & Hl). apply fs_resolve_segment; try assumption. lia.
Qed.

Lemma fs_ensure_dir_plain st r nm :
  g_root st = Some r -> plain_name nm ->
  fs_ensure_dir st nm
  = let here := Some (match g_cwd st with Some c => c | None => r end) in
    nxt ← fs_find_child st here nm;
    match nxt with
    | Some _ => Done (nxt, st)
    | None =>
      let '(nxt, st) := fs_new_node st nm AM_DIR in
      st ← fs_add_child st here nxt;
      Done (nxt, st)
    end.
Proof.
  intros Hr (Hp & Hne & Hd & Hdd & Hl). apply fs_ensure_dir_segment; try assumption. lia.
Qed.

(** ** Making a directory *)

Lemma live_not_taken st nm a c st1 x :
  length (g_node_pool st) = FS_MAX_NODES -> (g_node_used st <= FS_MAX_NODES)%nat ->
  fs_new_node st nm a = (Some c, st1) -> live st x -> x <> c.
Proof.
  intros Hlen Hused E (Hx & n & Hn & Hf) ->.
  pose proof (new_node_spec st nm a _ _ Hlen Hused E) as (_ & _ & _ & Hslot & _).
  destruct Hslot as [(_ & Hfree & _)|[-> _]]; [|lia].
  rewrite Hn in Hfree. cbn in Hfree. congruence.
Qed.

(** A new node attached to the current directory: [fs_new_node] followed by
    [fs_add_child], as [fs_ensure_dir] and [f_open] make them. *)
Lemma create_child st here hn l nm a :
  length (g_node_pool st) = FS_MAX_NODES -> (g_node_used st < FS_MAX_NODES)%nat ->
  g_node_pool st !! here = Some hn -> live st here ->
  chain (g_node_pool st) (firstChild hn) l -> (forall x, x ∈ l -> live st x) ->
  exists c st1,
    fs_new_node st nm a = (Some c, st1)
    /\ g_node_pool st1 !! c = Some (mk_node (strncpy nm 99) a None None None None 0 2)
    /\ g_node_pool st1 !! here = Some hn
    /\ chain (g_node_pool st1) (firstChild hn) l
    /\ (c ∉ l) /\ c <> here
    /\ (forall j, j <> c -> g_node_pool st1 !! j = g_node_pool st !! j)
    /\ with_used (g_node_used st) (with_pool (g_node_pool st) st1) = st
    /\ length (g_node_pool st1) = FS_MAX_NODES
    /\ (g_node_used st1 <= FS_MAX_NODES)%nat.
Proof.
  intros Hlen Hroom Hh Hlive Hl Hall.
  destruct (fs_new_node st nm a) as [r st1] eqn:E.
  pose proof (new_node_spec st nm a r st1 Hlen ltac:(lia) E) as Hspec.
  destruct r as [c|]; [|destruct Hspec as (_ & Hfull & _); lia].
  destruct Hspec as (Hc & Hnew & Hother & Hslot & Hused' & Hglob).
  assert (Hch : c <> here)
    by (intros ->; exact (live_not_taken st nm a here st1 here Hlen ltac:(lia) E Hlive
                            eq_refl)).
  assert (Hcl : c ∉ l).
  { intros Hin. exact (live_not_taken st nm a c st1 c Hlen ltac:(lia) E (Hall c Hin)
                         eq_refl). }
  exists c, st1. split; [reflexivity|]. split; [exact Hnew|].
  split; [rewrite Hother by congruence; exact Hh|].
  split.
  { eapply chain_ext; [exact Hl|]. intros x n Hx Hn. exists n. split; [|reflexivity].
    rewrite Hother; [exact Hn|]. intros ->. contradiction. }
  split; [exact Hcl|]. split; [exact Hch|]. split; [exact Hother|].
  split; [exact Hglob|]. split; [|exact Hused'].
  apply (f_equal (fun s => length (g_node_pool s))) in Hglob. cbn in Hglob.
  assert (Hci : (c < length (g_node_pool st1))%nat) by (eapply lookup_lt_Some; exact Hnew).
  destruct (decide (length (g_node_pool st1) = FS_MAX_NODES)) as [Hok|Hbad]; [exact Hok|].
  exfalso.
  destruct (Nat.lt_ge_cases (length (g_node_pool st1)) FS_MAX_NODES) as [Hlt|Hge].
  - pose proof (Hother (length (g_node_pool st1)) ltac:(lia)) as Hx.
    rewrite (lookup_ge_None_2 (g_node_pool st1)) in Hx by lia.
    symmetry in Hx. apply lookup_ge_None in Hx. lia.
  - pose proof (Hother (length (g_node_pool st)) ltac:(lia)) as Hx.
    rewrite (lookup_ge_None_2 (g_node_pool st)) in Hx by lia.
    apply lookup_ge_None in Hx. lia.
Qed.

Lemma globals_of_new_node st st1 :
  with_used (g_node_used st) (with_pool (g_node_pool st) st1) = st ->
  g_root st1 = g_root st /\ g_cwd st1 = g_cwd st /\ g_mounted st1 = g_mounted st
  /\ g_fs st1 = g_fs st /\ g_nextCluster st1 = g_nextCluster st.
Proof. intros <-. repeat split. Qed.

Lemma globals_of_add_child st st1 :
  with_pool (g_node_pool st) st1 = st ->
  g_root st1 = g_root st /\ g_cwd st1 = g_cwd st /\ g_mounted st1 = g_mounted st
  /\ g_fs st1 = g_fs st /\ g_nextCluster st1 = g_nextCluster st
  /\ g_node_used st1 = g_node_used st.
Proof. intros <-. repeat split. Qed.

(** A plain name resolves to the node that was appended to the children of
    the current directory under that name, when no older child has it. *)
Lemma resolve_appended st r here hn l c cn nm :
  g_root st = Some r -> here = match g_cwd st with Some x => x | None => r end ->
  plain_name nm ->
  g_node_pool st !! here = Some hn -> has_bits (attr hn) AM_DIR = true ->
  chain (g_node_pool st) (firstChild hn) (l ++ [c]) ->
  (forall y n, y ∈ l -> g_node_pool st !! y = Some n ->
     strcasecmp_eq (name n) nm = false) ->
  g_node_pool st !! c = Some cn -> name cn = nm ->
  fs_resolve st nm = Done (Some c).
Proof.
  intros Hr Hhere Hpl Hh Hdir Hl Hno Hc Hnm.
  rewrite (fs_resolve_plain st r nm Hr Hpl), <- Hhere. unfold fs_find_child.
  rewrite (deref_lookup _ _ _ Hh). run_step. rewrite Hdir. cbn [negb].
  apply (find_loop_chain_hit st _ _ l c [] cn nm).
  - exact Hl.
  - unfold walk_fuel. pose proof (chain_length _ _ _ Hl) as Hle.
    rewrite length_app in Hle. cbn in Hle. lia.
  - exact Hno.
  - exact Hc.
  - rewrite Hnm. apply strcasecmp_eq_refl.
Qed.

(** The names of the old children after a node was created and attached. *)
Lemma old_names_kept st st1 st' (l : list nat) c nm :
  (forall x, x ∈ l -> live st x) -> c ∉ l ->
  (forall j, j <> c -> g_node_pool st1 !! j = g_node_pool st !! j) ->
  (forall j n, g_node_pool st1 !! j = Some n ->
     exists n', g_node_pool st' !! j = Some n' /\ name n' = name n) ->
  (forall y n, y ∈ l -> g_node_pool st !! y = Some n ->
     strcasecmp_eq (name n) nm = false) ->
  forall y n, y ∈ l -> g_node_pool st' !! y = Some n ->
    strcasecmp_eq (name n) nm = false.
Proof.
  intros Hall Hcl Hother Hframe Hno y n Hy Hn.
  destruct (Hall y Hy) as (_ & n0 & Hn0 & _).
  assert (Hyc : y <> c) by (intros ->; contradiction).
  pose proof Hn0 as Hn1. rewrite <- (Hother y Hyc) in Hn1.
  destruct (Hframe y n0 Hn1) as (n' & Hn' & Hname').
  rewrite Hn in Hn'. injection Hn' as <-. rewrite Hname'.
  exact (Hno y n0 Hy Hn0).
Qed.

(** X20: [f_mkdir] of a plain name that does not resolve makes a directory
    that does.  In a current directory whose children are the list [l], with
    a slot left in the pool, it returns [FR_OK]; the name then resolves to
    the new node, an empty directory of that name whose parent is the current
    directory and which is the last of its children; and a second [f_mkdir]
    of the name returns [FR_EXIST] and changes nothing. *)
Theorem f_mkdir_then_found (st : fs_state) (r here : nat) (hn : FsNode)
    (l : list nat) (nm : string) :
  g_mounted st = true -> g_root st = Some r ->
  here = match g_cwd st with Some c => c | None => r end ->
  plain_name nm ->
  length (g_node_pool st) = FS_MAX_NODES -> (g_node_used st < FS_MAX_NODES)%nat ->
  g_node_pool st !! here = Some hn -> has_bits (attr hn) AM_DIR = true ->
  live st here ->
  chain (g_node_pool st) (firstChild hn) l -> (forall x, x ∈ l -> live st x) ->
  fs_resolve st nm = Done None ->
  exists st' c hn' cn,
    f_mkdir st nm = Done (FR_OK, st')
    /\ fs_resolve st' nm = Done (Some c)
    /\ f_mkdir st' nm = Done (FR_EXIST, st')
    /\ g_node_pool st' !! c = Some cn
    /\ name cn = nm /\ attr cn = AM_DIR /\ parent cn = Some here
    /\ firstChild cn = None
    /\ g_node_pool st' !! here = Some hn'
    /\ chain (g_node_pool st') (firstChild hn') (l ++ [c]).
Proof.
  intros Hm Hr Hhere Hpl Hlen Hroom Hh Hdir Hlive Hl Hall Hres.
  pose proof Hpl as (Hp & Hne & Hd & Hdd & Hnl).
  rewrite (fs_resolve_plain st r nm Hr Hpl), <- Hhere in Hres.
  assert (Hfc : fs_find_child st (Some here) nm
                = find_loop (walk_fuel st) st (firstChild hn) nm).
  { unfold fs_find_child. rewrite (deref_lookup _ _ _ Hh). run_step.
    rewrite Hdir. reflexivity. }
  rewrite Hfc in Hres.
  pose proof (find_loop_none_inv st _ _ l nm Hl Hres) as Hno.
  destruct (create_child st here hn l nm AM_DIR Hlen Hroom Hh Hlive Hl Hall)
    as (c & st1 & Enew & Hnew & Hh1 & Hl1 & Hcl & Hch & Hother & Hglob1 & Hlen1 & _).
  destruct (add_child_spec st1 here c hn _ l Hh1 Hnew Hl1 Hcl Hch)
    as (st' & hn' & cn & Eadd & Hglob2 & Hh' & Hl' & Hc' & Hpar & _ & Hfc' & Hframe).
  destruct (globals_of_new_node _ _ Hglob1) as (Hr1 & Hc1 & Hm1 & _).
  destruct (globals_of_add_child _ _ Hglob2) as (Hr2 & Hc2 & Hm2 & _).
  destruct (Hframe c _ Hnew) as (cn0 & Hcn0 & (Hname & Hattr & _) & _).
  rewrite Hc' in Hcn0. injection Hcn0 as <-.
  cbn [name attr firstChild] in Hname, Hattr, Hfc'.
  assert (Hnm : name cn = nm) by (rewrite Hname; apply str_take_all; exact Hnl).
  assert (Emk : f_mkdir st nm = Done (FR_OK, st')).
  { unfold f_mkdir. rewrite Hm. cbn [negb].
    rewrite (fs_resolve_plain st r nm Hr Hpl), <- Hhere, Hfc, Hres. run_step.
    rewrite (fs_ensure_dir_plain st r nm Hr Hpl). cbv zeta. rewrite <- Hhere, Hfc, Hres.
    run_step. rewrite Enew, Eadd. reflexivity. }
  assert (Eres : fs_resolve st' nm = Done (Some c)).
  { destruct (Hframe here hn Hh1) as (hn0 & Hhn0 & (_ & Hattr0 & _) & _).
    rewrite Hh' in Hhn0. injection Hhn0 as <-.
    apply (resolve_appended st' r here hn' l c cn nm ltac:(congruence)
             ltac:(rewrite Hc2, Hc1; exact Hhere) Hpl Hh'
             ltac:(rewrite Hattr0; exact Hdir) Hl'); [|exact Hc'|exact Hnm].
    apply (old_names_kept st st1 st' l c nm Hall Hcl Hother); [|exact Hno].
    intros j n Hn. destruct (Hframe j n Hn) as (n' & Hn' & (Hname' & _) & _).
    exists n'. split; assumption. }
  exists st', c, hn', cn.
  split; [exact Emk|]. split; [exact Eres|].
  split; [unfold f_mkdir; rewrite Hm2, Hm1, Hm; cbn [negb]; rewrite Eres; reflexivity|].
  split; [exact Hc'|]. split; [exact Hnm|]. split; [exact Hattr|].
  split; [exact Hpar|]. split; [exact Hfc'|]. split; [exact Hh'|exact Hl'].
Qed.

(** ** Creating a file *)

Lemma strrchr_slash_plain s : plain_chars s = true -> strrchr_slash s = None.
Proof.
  induction s as [|c s IH]; [reflexivity|]. cbn [plain_chars strrchr_slash].
  intros H. apply andb_prop in H as [H Hs]. apply andb_prop in H as [Hsl _].
  rewrite (IH Hs). destruct (Ascii.eqb c SLASH); [discriminate Hsl|reflexivity].
Qed.

Lemma fs_ensure_dir_dot st r :
  g_root st = Some r ->
  fs_ensure_dir st "."
  = Done (Some (match g_cwd st with Some c => c | None => r end), st).
Proof. intros Hr. unfold fs_ensure_dir. rewrite Hr. reflexivity. Qed.

Lemma cluster_count_empty bits csb :
  0 <= bits -> 0 < csb -> cluster_count bits 0 csb = 1.
Proof.
  intros Hb Hc. unfold cluster_count, fsize_t.
  assert (Hpow : 0 < 2 ^ bits) by (apply Z.pow_pos_nonneg; lia).
  pose proof (Z.mod_pos_bound (0 + csb - 1) (2 ^ bits) Hpow) as Hm.
  pose proof (Z.mod_le (0 + csb - 1) (2 ^ bits) ltac:(lia) Hpow) as Hle.
  rewrite Z.div_small by lia. reflexivity.
Qed.

Section Create.
Variable FSIZE_BITS : Z.
Hypothesis Hbits : 32 <= FSIZE_BITS.

(** X21: [f_open] with a creation flag on a plain name that does not
    resolve makes an empty file.  With a slot left in the pool it returns
    [FR_OK] and a handle with the cursor at 0 on a new node: a file of that
    name, of size 0 and without buffer, the last child of the current
    directory, which the name resolves to from then on.  The file gets the
    cluster the counter stood at, and the counter moves on by one. *)
Theorem f_open_creates_a_file (st : fs_state) (fs : FATFS) (r here : nat)
    (hn : FsNode) (l : list nat) (nm : string) (h0 : FIL) (mode : Z) :
  g_mounted st = true -> g_fs st = Some fs -> 0 < csize fs < 65536 ->
  g_root st = Some r ->
  here = match g_cwd st with Some c => c | None => r end ->
  plain_name nm ->
  has_bits mode (Z.lor (Z.lor FA_CREATE_ALWAYS FA_OPEN_ALWAYS) FA_CREATE_NEW) = true ->
  length (g_node_pool st) = FS_MAX_NODES -> (g_node_used st < FS_MAX_NODES)%nat ->
  g_node_pool st !! here = Some hn -> has_bits (attr hn) AM_DIR = true ->
  live st here ->
  chain (g_node_pool st) (firstChild hn) l -> (forall x, x ∈ l -> live st x) ->
  fs_resolve st nm = Done None ->
  exists st' c h hn' cn,
    f_open FSIZE_BITS st (Some h0) nm mode = Done (FR_OK, st', Some h)
    /\ dir_ptr h = Some c /\ fptr h = 0 /\ flag h = mode
    /\ objsize (obj h) = 0 /\ sclust (obj h) = g_nextCluster st
    /\ g_nextCluster st' = u32 (g_nextCluster st + 1)
    /\ g_node_pool st' !! c = Some cn
    /\ name cn = nm /\ attr cn = AM_ARC /\ size cn = 0 /\ data cn = None
    /\ parent cn = Some here
    /\ g_node_pool st' !! here = Some hn'
    /\ chain (g_node_pool st') (firstChild hn') (l ++ [c])
    /\ fs_resolve st' nm = Done (Some c).
Proof.
  intros Hm Hfs Hcs Hr Hhere Hpl Hmode Hlen Hroom Hh Hdir Hlive Hl Hall Hres.
  pose proof Hpl as (Hp & Hne & Hd & Hdd & Hnl).
  pose proof Hres as Hres0.
  rewrite (fs_resolve_plain st r nm Hr Hpl), <- Hhere in Hres.
  assert (Hfc : fs_find_child st (Some here) nm
                = find_loop (walk_fuel st) st (firstChild hn) nm).
  { unfold fs_find_child. rewrite (deref_lookup _ _ _ Hh). run_step.
    rewrite Hdir. reflexivity. }
  pose proof Hres as Hfind. rewrite Hfc in Hfind.
  pose proof (find_loop_none_inv st _ _ l nm Hl Hfind) as Hno.
  assert (Hnm99 : strncpy nm 99 = nm) by (apply str_take_all; exact Hnl).
  destruct (create_child st here hn l nm AM_ARC Hlen Hroom Hh Hlive Hl Hall)
    as (c & st1 & Enew & Hnew & Hh1 & Hl1 & Hcl & Hch & Hother & Hglob1 & Hlen1 & _).
  destruct (globals_of_new_node _ _ Hglob1) as (Hr1 & Hc1 & Hm1 & Hfs1 & Hnc1).
  rewrite Hnm99 in Hnew.
  set (new := mk_node nm AM_ARC None None None None 0 2) in *.
  set (cn2 := set_startCluster (g_nextCluster st) new).
  set (st2 := with_nextCluster (u32 (g_nextCluster st + 1))
                (with_pool (<[c := cn2]> (g_node_pool st1)) st1)).
  assert (Hci : (c < length (g_node_pool st1))%nat) by (eapply lookup_lt_Some; exact Hnew).
  assert (Hc2 : g_node_pool st2 !! c = Some cn2)
    by (apply list_lookup_insert_eq; exact Hci).
  assert (Hother2 : forall j, j <> c -> g_node_pool st2 !! j = g_node_pool st1 !! j).
  { intros j Hj. unfold st2. cbn [g_node_pool with_pool with_nextCluster].
    apply list_lookup_insert_ne. congruence. }
  assert (Hh2 : g_node_pool st2 !! here = Some hn)
    by (rewrite Hother2 by congruence; exact Hh1).
  assert (Hl2 : chain (g_node_pool st2) (firstChild hn) l).
  { eapply chain_ext; [exact Hl1|]. intros x n Hx Hn. exists n. split; [|reflexivity].
    rewrite Hother2; [exact Hn|]. intros ->. contradiction. }
  destruct (add_child_spec st2 here c hn cn2 l Hh2 Hc2 Hl2 Hcl Hch)
    as (st' & hn' & cn & Eadd & Hglob2 & Hh' & Hl' & Hc' & Hpar & _ & _ & Hframe).
  destruct (globals_of_add_child _ _ Hglob2) as (Hr2 & Hcw2 & Hm2 & Hfs2 & Hnc2 & _).
  destruct (Hframe c _ Hc2) as (cn0 & Hcn0 & (Hname & Hattr & Hdata & Hsize & Hsc) & _).
  rewrite Hc' in Hcn0. injection Hcn0 as <-.
  cbn [name attr data size startCluster cn2 new set_startCluster] in Hname, Hattr, Hdata,
    Hsize, Hsc.
  destruct (Hframe here hn Hh2) as (hn0 & Hhn0 & (_ & Hattr0 & _) & _).
  rewrite Hh' in Hhn0. injection Hhn0 as <-.
  assert (Eres : fs_resolve st' nm = Done (Some c)).
  { apply (resolve_appended st' r here hn' l c cn nm
             ltac:(rewrite Hr2; cbn; congruence)
             ltac:(rewrite Hcw2; cbn; rewrite Hc1; exact Hhere) Hpl Hh'
             ltac:(rewrite Hattr0; exact Hdir) Hl'); [|exact Hc'|exact Hname].
    apply (old_names_kept st st1 st' l c nm Hall Hcl Hother); [|exact Hno].
    intros j n Hn. destruct (decide (j = c)) as [->|Hj].
    - rewrite Hnew in Hn. injection Hn as <-. exists cn. split; [exact Hc'|exact Hname].
    - rewrite <- (Hother2 j Hj) in Hn.
      destruct (Hframe j n Hn) as (n' & Hn' & (Hname' & _) & _).
      exists n'. split; assumption. }
  assert (E : f_open FSIZE_BITS st (Some h0) nm mode
              = Done (FR_OK, st',
                      Some (mk_fil (mk_obj (g_fs st') (id fs) (attr cn) (startCluster cn)
                                           (size cn))
                                   mode FR_OK 0 (startCluster cn) 0 (Some c)))).
  { unfold f_open. rewrite (cstr_plain nm Hp), Hm. cbn [negb].
    rewrite Hres0. run_step. rewrite Hmode.
    rewrite (strrchr_slash_plain nm Hp), Hnm99.
    rewrite (fs_ensure_dir_dot st r Hr), <- Hhere. run_step.
    rewrite (deref_lookup _ _ _ Hh). run_step. rewrite Hdir. cbn [negb].
    rewrite Hres. destruct (has_bits mode FA_CREATE_NEW); run_step.
    all: rewrite Enew; unfold update_ptr.
    all: rewrite (update_lookup _ _ _ _ Hnew); run_step.
    all: rewrite (update_lookup _ c (set_size 0 new))
           by (apply list_lookup_insert_eq; exact Hci); run_step.
    all: rewrite with_pool_with_pool; cbn [g_node_pool with_pool].
    all: rewrite list_insert_insert_eq.
    all: change (set_data None (set_size 0 new)) with new.
    all: rewrite (list_insert_id _ _ _ Hnew).
    all: replace (with_pool (g_node_pool st1) st1) with st1 by (destruct st1; reflexivity).
    all: unfold fs_assign_clusters; rewrite (deref_lookup _ _ _ Hnew); run_step.
    all: change (has_bits (attr new) AM_DIR) with false; cbv iota.
    all: rewrite Hfs1, Hfs, (SDFacts.u32_small (csize fs * 512)) by lia.
    all: destruct (Z.eqb_spec (csize fs * 512) 0) as [E0|_]; [lia|].
    all: rewrite (update_lookup _ _ _ _ Hnew); run_step.
    all: change (size new) with 0.
    all: rewrite cluster_count_empty by lia.
    all: rewrite Hnc1; fold cn2; fold st2.
    all: rewrite Eadd; run_step.
    all: rewrite (deref_lookup _ _ _ Hc'); run_step.
    all: rewrite Hattr; change (has_bits AM_ARC AM_DIR) with false; cbv iota.
    all: rewrite Hfs2; change (g_fs st2) with (g_fs st1); rewrite Hfs1, Hfs.
    all: reflexivity. }
  eexists st', c, _, hn', cn. split; [exact E|].
  cbn [dir_ptr fptr flag obj objsize sclust].
  split; [reflexivity|]. split; [reflexivity|]. split; [reflexivity|].
  split; [exact Hsize|]. split; [exact Hsc|].
  split; [rewrite Hnc2; reflexivity|].
  split; [exact Hc'|]. split; [exact Hname|]. split; [exact Hattr|].
  split; [exact Hsize|]. split; [exact Hdata|]. split; [exact Hpar|].
  split; [exact Hh'|]. split; [exact Hl'|exact Eres].
Qed.

End Create.

(** ** Listing a directory *)

Section Listing.
Variable FNAME_LEN : nat.

Lemma read_entries_chain st d l :
  g_mounted st = true -> dir d <> 0 ->
  chain (g_node_pool st) (g_iter_next st) l ->
  exists nodes,
    Forall2 (fun x n => g_node_pool st !! x = Some n) l nodes
    /\ read_entries FNAME_LEN (length l) st d
       = Done (map (fill_info FNAME_LEN) nodes, with_iter (g_iter_dir st) None st).
Proof.
  intros Hm Hd. revert st Hm. induction l as [|x l IH]; intros st Hm Hl.
  - cbn in Hl. exists []. split; [constructor|]. cbn [length read_entries map].
    rewrite <- Hl. destruct st; reflexivity.
  - destruct Hl as [Hx (n & Hn & Hr)].
    set (st1 := with_iter (g_iter_dir st) (nextSibling n) st).
    destruct (IH st1 Hm Hr) as (nodes & Hnodes & Hrest).
    exists (n :: nodes). split; [constructor; assumption|].
    cbn [length read_entries map]. unfold f_readdir. rewrite Hm. cbn [negb].
    destruct (Z.eqb_spec (dir d) 0) as [E|_]; [contradiction|].
    rewrite Hx. rewrite (deref_lookup _ _ _ Hn). run_step. fold st1.
    rewrite Hrest. run_step. reflexivity.
Qed.

(** X22: a listing yields the children in order.  After [f_opendir] of a
    path that resolves to a directory whose children are the list [l], as
    many calls of [f_readdir] as [l] has nodes store the entries of these
    nodes, in the order of the list; every further call returns [FR_OK] with
    an empty name and changes nothing. *)
Theorem f_readdir_lists_the_children (st : fs_state) (dp : DIR) (path : string)
    (di : nat) (dn : FsNode) (l : list nat) :
  g_mounted st = true -> cstr path <> EmptyString ->
  fs_resolve st path = Done (Some di) ->
  g_node_pool st !! di = Some dn -> has_bits (attr dn) AM_DIR = true ->
  chain (g_node_pool st) (firstChild dn) l ->
  exists st1 nodes st2,
    f_opendir st (Some dp) path = Done (FR_OK, st1, Some (mk_dir 1))
    /\ Forall2 (fun x n => g_node_pool st !! x = Some n) l nodes
    /\ read_entries FNAME_LEN (length l) st1 (mk_dir 1)
       = Done (map (fill_info FNAME_LEN) nodes, st2)
    /\ forall info,
         f_readdir FNAME_LEN st2 (Some (mk_dir 1)) (Some info)
         = Done (FR_OK, st2, Some (clear_fname info)).
Proof.
  intros Hm Hp Hres Hn Hdir Hl.
  set (st1 := with_iter (Some di) (firstChild dn) st).
  destruct (read_entries_chain st1 (mk_dir 1) l Hm ltac:(discriminate) Hl)
    as (nodes & Hnodes & Hread).
  exists st1, nodes, (with_iter (Some di) None st).
  split; [|split; [exact Hnodes|split; [exact Hread|]]].
  - unfold f_opendir. rewrite Hm. cbn [negb].
    destruct (String.eqb_spec (cstr path) "") as [E|_]; [contradiction|].
    rewrite fs_resolve_cstr, Hres. run_step.
    rewrite (deref_lookup _ _ _ Hn). run_step. rewrite Hdir. reflexivity.
  - intros info. unfold f_readdir. cbn [g_mounted with_iter]. rewrite Hm. reflexivity.
Qed.

End Listing.

(** ** Existing paths *)

Lemma ensure_seg_of_resolve st cur seg c :
  resolve_seg st cur seg = Done (Some c) ->
  ensure_seg st (Some cur) seg = Done (Some c, st).
Proof.
  unfold resolve_seg, ensure_seg.
  destruct (String.eqb seg "."); [intros [= <-]; reflexivity|].
  destruct (String.eqb seg "..").
  - destruct (deref st (Some cur)) as [n|]; [|discriminate]. run_step.
    intros [= <-]. destruct (parent n); reflexivity.
  - intros ->. reflexivity.
Qed.

Lemma ensure_walk_of_resolve st p seg cur i :
  resolve_walk st p seg cur = Done (Some i) ->
  ensure_walk st p seg (Some cur) = Done (Some i, st).
Proof.
  revert seg cur. induction p as [|c p IH]; intros seg cur;
    cbn [resolve_walk ensure_walk].
  - destruct (String.eqb seg ""); [intros [= <-]; reflexivity|].
    apply ensure_seg_of_resolve.
  - destruct (Ascii.eqb c SLASH).
    + destruct (String.eqb seg ""); [apply IH|].
      destruct (resolve_seg st cur seg) as [[c'|]|] eqn:E; try discriminate.
      run_step. rewrite (ensure_seg_of_resolve _ _ _ _ E). run_step. apply IH.
    + destruct (String.length seg =? 255)%nat; [|apply IH].
      destruct (resolve_seg st cur seg) as [[c'|]|] eqn:E; try discriminate.
      run_step. rewrite (ensure_seg_of_resolve _ _ _ _ E). run_step. apply IH.
Qed.

(** X23: [fs_ensure_dir] creates nothing on a path that exists.  A
    non-empty path that resolves gives the node it resolves to, be it a
    directory or a file, and leaves the filesystem as it is; the empty path
    gives the root, where [fs_resolve] gives the current directory. *)
Theorem fs_ensure_dir_finds_existing (st : fs_state) (path : string) :
  (forall i, cstr path <> EmptyString -> fs_resolve st path = Done (Some i) ->
     fs_ensure_dir st path = Done (Some i, st))
  /\ (forall r, cstr path = EmptyString -> g_root st = Some r ->
        fs_ensure_dir st path = Done (Some r, st)
        /\ fs_resolve st path
           = Done (Some (match g_cwd st with Some c => c | None => r end))).
Proof.
  split.
  - intros i Hne. unfold fs_resolve, fs_ensure_dir.
    destruct (g_root st) as [r|]; [|discriminate].
    destruct (cstr path) as [|c rest]; [contradiction|].
    destruct (Ascii.eqb c SLASH); apply ensure_walk_of_resolve.
  - intros r He Hr. unfold fs_resolve, fs_ensure_dir. rewrite Hr, He.
    split; reflexivity.
Qed.

(** ** Letter case *)

Lemma tolower_slash c : tolower c = SLASH -> c = SLASH.
Proof.
  destruct c as [[] [] [] [] [] [] [] []]; vm_compute; intros H;
    first [reflexivity | discriminate H].
Qed.

Lemma tolower_nul c : tolower c = NUL -> c = NUL.
Proof.
  destruct c as [[] [] [] [] [] [] [] []]; vm_compute; intros H;
    first [reflexivity | discriminate H].
Qed.

Lemma tolower_dot c : tolower c = "."%char -> c = "."%char.
Proof.
  destruct c as [[] [] [] [] [] [] [] []]; vm_compute; intros H;
    first [reflexivity | discriminate H].
Qed.

Lemma eqb_of_tolower (x c c' : ascii) :
  (forall a, tolower a = x -> a = x) -> tolower x = x ->
  tolower c = tolower c' -> Ascii.eqb c x = Ascii.eqb c' x.
Proof.
  intros Hinv Hfix E.
  destruct (Ascii.eqb_spec c x) as [->|Hc]; destruct (Ascii.eqb_spec c' x) as [->|Hc'];
    try reflexivity.
  - exfalso. apply Hc'. apply Hinv. rewrite <- E. exact Hfix.
  - exfalso. apply Hc. apply Hinv. rewrite E. exact Hfix.
Qed.

Lemma str_lower_length s : String.length (str_lower s) = String.length s.
Proof. induction s as [|c s IH]; cbn; [reflexivity|]. rewrite IH. reflexivity. Qed.

Lemma str_lower_app a b : str_lower (a +:+ b) = str_lower a +:+ str_lower b.
Proof.
  induction a as [|c a IH]; [reflexivity|].
  rewrite str_app_cons. cbn [str_lower]. rewrite str_app_cons, IH. reflexivity.
Qed.

Lemma str_lower_eqb_nil a b :
  str_lower a = str_lower b -> String.eqb a "" = String.eqb b "".
Proof. destruct a, b; cbn; intros H; first [reflexivity | discriminate H]. Qed.

Lemma str_lower_eqb_dot a b :
  str_lower a = str_lower b -> String.eqb a "." = String.eqb b ".".
Proof.
  intros E.
  assert (H : forall s, str_lower s = "."%string -> s = "."%string).
  { intros [|c [|c' s]]; cbn; intros H; try discriminate H.
    injection H as H. rewrite (tolower_dot c H). reflexivity. }
  destruct (String.eqb_spec a ".") as [->|Ha]; destruct (String.eqb_spec b ".") as [->|Hb];
    try reflexivity.
  - exfalso. apply Hb, H. rewrite <- E. reflexivity.
  - exfalso. apply Ha, H. rewrite E. reflexivity.
Qed.

Lemma str_lower_eqb_dotdot a b :
  str_lower a = str_lower b -> String.eqb a ".." = String.eqb b "..".
Proof.
  intros E.
  assert (H : forall s, str_lower s = ".."%string -> s = ".."%string).
  { intros [|c [|c' [|c'' s]]]; cbn; intros H; try discriminate H.
    injection H as H H'. rewrite (tolower_dot c H), (tolower_dot c' H'). reflexivity. }
  destruct (String.eqb_spec a "..") as [->|Ha];
    destruct (String.eqb_spec b "..") as [->|Hb]; try reflexivity.
  - exfalso. apply Hb, H. rewrite <- E. reflexivity.
  - exfalso. apply Ha, H. rewrite E. reflexivity.
Qed.

Lemma find_loop_lower st fuel it a b :
  str_lower a = str_lower b -> find_loop fuel st it a = find_loop fuel st it b.
Proof.
  intros E. revert it. induction fuel as [|fuel IH]; intros it; [reflexivity|].
  cbn [find_loop]. destruct it as [i|]; [|reflexivity].
  destruct (deref st (Some i)) as [n|]; [|reflexivity]. run_step.
  unfold strcasecmp_eq. rewrite E. destruct (String.eqb _ _); [reflexivity|apply IH].
Qed.

Lemma resolve_seg_lower st cur a b :
  str_lower a = str_lower b -> resolve_seg st cur a = resolve_seg st cur b.
Proof.
  intros E. unfold resolve_seg.
  rewrite (str_lower_eqb_dot a b E), (str_lower_eqb_dotdot a b E).
  destruct (String.eqb b "."); [reflexivity|].
  destruct (String.eqb b ".."); [reflexivity|].
  unfold fs_find_child. destruct (deref st (Some cur)) as [n|]; [|reflexivity].
  run_step. destruct (negb _); [reflexivity|]. apply find_loop_lower. exact E.
Qed.

Lemma resolve_walk_lower st p q seg seg' cur :
  str_lower p = str_lower q -> str_lower seg = str_lower seg' ->
  resolve_walk st p seg cur = resolve_walk st q seg' cur.
Proof.
  revert q seg seg' cur. induction p as [|c p IH]; intros [|c' q] seg seg' cur Hp Hs;
    try discriminate Hp; cbn [resolve_walk].
  - rewrite (str_lower_eqb_nil _ _ Hs), (resolve_seg_lower st cur _ _ Hs). reflexivity.
  - cbn [str_lower] in Hp. injection Hp as Hc Hp.
    rewrite (eqb_of_tolower SLASH c c' tolower_slash eq_refl Hc).
    rewrite (str_lower_eqb_nil _ _ Hs), (resolve_seg_lower st cur _ _ Hs).
    assert (Hlen : String.length seg = String.length seg')
      by (rewrite <- (str_lower_length seg), Hs; apply str_lower_length).
    rewrite Hlen.
    assert (Hs' : str_lower (seg +:+ String c "") = str_lower (seg' +:+ String c' ""))
      by (rewrite !str_lower_app, Hs; cbn [str_lower]; rewrite Hc; reflexivity).
    assert (Hc1 : str_lower (String c "") = str_lower (String c' ""))
      by (cbn [str_lower]; rewrite Hc; reflexivity).
    destruct (Ascii.eqb c' SLASH).
    + destruct (String.eqb seg' ""); [apply IH; [exact Hp|reflexivity]|].
      destruct (resolve_seg st cur seg') as [[x|]|]; run_step; try reflexivity.
      apply IH; [exact Hp|reflexivity].
    + destruct (String.length seg' =? 255)%nat; [|apply IH; assumption].
      destruct (resolve_seg st cur seg') as [[x|]|]; run_step; try reflexivity.
      apply IH; assumption.
Qed.

Lemma cstr_lower p q :
  str_lower p = str_lower q -> str_lower (cstr p) = str_lower (cstr q).
Proof.
  revert q. induction p as [|c p IH]; intros [|c' q] H; try discriminate H;
    [reflexivity|].
  cbn [str_lower] in H. injection H as Hc Hp. cbn [cstr].
  rewrite (eqb_of_tolower NUL c c' tolower_nul eq_refl Hc).
  destruct (Ascii.eqb c' NUL); [reflexivity|].
  cbn [str_lower]. rewrite Hc, (IH q Hp). reflexivity.
Qed.

(** X24: paths are looked up without regard to letter case.  Two paths
    that differ only in the case of their letters resolve to the same
    node. *)
Theorem fs_resolve_ignores_case (st : fs_state) (p q : string) :
  str_lower p = str_lower q -> fs_resolve st p = fs_resolve st q.
Proof.
  intros E. apply cstr_lower in E. unfold fs_resolve.
  destruct (g_root st) as [r|]; [|reflexivity].
  destruct (cstr p) as [|c p']; destruct (cstr q) as [|c' q']; try discriminate E;
    [reflexivity|].
  pose proof E as E0. cbn [str_lower] in E. injection E as Hc Hp.
  rewrite (eqb_of_tolower SLASH c c' tolower_slash eq_refl Hc).
  destruct (Ascii.eqb c' SLASH); apply resolve_walk_lower;
    first [assumption | reflexivity].
Qed.

(** ** The current directory as a path *)

Lemma path_length_cons nm names :
  path_length (nm :: names) = (S (String.length nm) + path_length names)%nat.
Proof. reflexivity. Qed.

Lemma length_le_path_length names : (length names <= path_length names)%nat.
Proof.
  induction names as [|nm names IH]; [reflexivity|].
  rewrite path_length_cons. cbn [length]. lia.
Qed.

Lemma getcwd_loop_ancestry st names : forall fuel it acc,
  ancestry (g_node_pool st) (g_root st) it names ->
  (length names <= fuel)%nat ->
  (path_length names + String.length acc <= 509)%nat ->
  getcwd_loop fuel st it acc
  = Done (g_root st,
          fold_left (fun acc nm => String SLASH (nm +:+ acc)) names acc).
Proof.
  induction names as [|nm names IH]; intros fuel it acc Ha Hf Hl.
  - cbn in Ha. subst it. cbn [fold_left].
    destruct fuel; cbn [getcwd_loop]; destruct (g_root st) as [r|]; try reflexivity;
      rewrite bool_decide_eq_true_2 by reflexivity; reflexivity.
  - destruct Ha as (Hne & i & n & -> & Hn & Hnm & Hrest).
    destruct fuel as [|fuel]; [cbn in Hf; lia|]. cbn [getcwd_loop].
    rewrite bool_decide_eq_false_2 by exact Hne.
    rewrite (deref_lookup _ _ _ Hn). run_step. rewrite Hnm.
    rewrite path_length_cons in Hl.
    destruct (Nat.ltb_spec (511 - String.length acc) (String.length nm + 2)) as [Hbad|_];
      [lia|].
    cbn [fold_left]. apply IH; [exact Hrest|cbn in Hf; lia|].
    cbn [String.length]. rewrite str_length_app. lia.
Qed.

Lemma fold_path_shape names : forall acc,
  names <> [] ->
  exists rest,
    fold_left (fun acc nm => String SLASH (nm +:+ acc)) names acc = String SLASH rest
    /\ String.length (String SLASH rest) = (path_length names + String.length acc)%nat.
Proof.
  induction names as [|nm names IH]; intros acc Hne; [contradiction|].
  cbn [fold_left]. rewrite path_length_cons.
  destruct names as [|nm' names'].
  - cbn [fold_left]. eexists. split; [reflexivity|].
    cbn [String.length]. rewrite str_length_app.
    change (path_length []) with O. lia.
  - destruct (IH (String SLASH (nm +:+ acc)) ltac:(discriminate)) as (rest & E & Hl).
    exists rest. split; [exact E|]. rewrite Hl. cbn [String.length].
    rewrite str_length_app. lia.
Qed.

(** X25: [f_getcwd] spells the way from the root.  When the parents of the
    current directory lead to the root through nodes whose names take no
    more than 509 characters, a slash before each counted, the buffer gets
    the path made of these names, the outermost first, and [/] for the root
    itself, cut to [len - 1] characters. *)
Theorem f_getcwd_spells_the_path (st : fs_state) (names : list string) (len : Z) :
  g_mounted st = true -> 0 < len ->
  ancestry (g_node_pool st) (g_root st)
           (match g_cwd st with Some _ => g_cwd st | None => g_root st end) names ->
  (path_length names <= 509)%nat ->
  f_getcwd st true len
  = Done (FR_OK, Some (str_take (Z.to_nat (len - 1)) (cwd_path names))).
Proof.
  intros Hm Hlen Ha Hl. unfold f_getcwd. rewrite Hm. cbn [negb orb].
  destruct (Z.eqb_spec len 0) as [E|_]; [lia|].
  set (it := match g_cwd st with Some _ => g_cwd st | None => g_root st end) in *.
  destruct names as [|nm names].
  - cbn in Ha. rewrite bool_decide_eq_true_2 by exact Ha. reflexivity.
  - pose proof Ha as (Hne & _).
    rewrite bool_decide_eq_false_2 by exact Hne.
    assert (Hn : (length (nm :: names) <= 512)%nat)
      by (pose proof (length_le_path_length (nm :: names)); lia).
    rewrite (getcwd_loop_ancestry st (nm :: names) 512 it EmptyString Ha Hn)
      by (cbn [String.length]; lia).
    run_step.
    destruct (fold_path_shape (nm :: names) EmptyString ltac:(discriminate))
      as (rest & E & Hlen').
    unfold cwd_path. rewrite E.
    rewrite bool_decide_eq_true_2 by reflexivity.
    destruct (Nat.eqb_spec (String.length (String SLASH rest)) 511) as [Hbad|_];
      [cbn [String.length] in Hlen', Hbad; lia|].
    rewrite Ascii.eqb_refl. reflexivity.
Qed.

(** ** Mounting again *)

(** X26: [f_mount] builds the default layout whatever was there before.  It
    starts handing out slots from the first again, so the 12 nodes of the
    layout take the first 12 slots and the filesystem is the one of a first
    mount, except that the slots behind them keep what they held. *)
Theorem f_mount_resets_the_layout (bits : Z) (st : fs_state) :
  bits = 32 \/ bits = 64 ->
  length (g_node_pool st) = FS_MAX_NODES ->
  f_mount bits st true
  = Done (FR_OK,
          with_pool (take 12 (g_node_pool mounted) ++ drop 12 (g_node_pool st))
                    mounted).
Proof.
  intros Hb Hlen. destruct st as [fs root cwd nc m pool used idir inext].
  cbn [g_node_pool] in *.
  do 64 (destruct pool as [|? pool]; [discriminate Hlen|]).
  destruct pool; [|discriminate Hlen].
  destruct Hb as [-> | ->]; vm_compute; reflexivity.
Qed.

(** ** Renaming *)

(** Taking [i] out of the children of [p]. *)
Lemma detach_from_spec st p pn i ni l1 l2 :
  g_node_pool st !! p = Some pn -> g_node_pool st !! i = Some ni -> p <> i ->
  chain (g_node_pool st) (firstChild pn) (l1 ++ i :: l2) ->
  exists st1 pn1,
    detach_from st p i = Done st1
    /\ with_pool (g_node_pool st) st1 = st
    /\ g_node_pool st1 !! p = Some pn1
    /\ chain (g_node_pool st1) (firstChild pn1) (l1 ++ l2)
    /\ (i ∉ l1 ++ l2)
    /\ g_node_pool st1 !! i = Some ni
    /\ (forall j n, g_node_pool st !! j = Some n ->
          exists n', g_node_pool st1 !! j = Some n' /\ same_entry n n'
                     /\ parent n' = parent n).
Proof.
  intros Hpn Hn Hpi Hch.
  pose proof (chain_NoDup _ _ _ Hch) as Hnd.
  destruct (NoDup_around _ _ _ Hnd) as (Hi1 & Hi2 & Hi12).
  pose proof (chain_length _ _ _ Hch) as Hlen. rewrite length_app in Hlen.
  assert (Hpl : (p < length (g_node_pool st))%nat) by (eapply lookup_lt_Some; exact Hpn).
  unfold detach_from. rewrite (deref_lookup _ _ _ Hpn). run_step.
  rewrite (detach_scan_chain st (walk_fuel st) None _ l1 i l2 Hch Hi1)
    by (unfold walk_fuel; lia).
  run_step. rewrite (deref_lookup _ _ _ Hn). run_step.
  destruct (last l1) as [q|] eqn:El.
  - apply last_Some in El as [l1' ->].
    rewrite <- app_assoc in Hch, Hnd. cbn [app] in Hch, Hnd.
    assert (Hq : q ∈ l1' ++ q :: i :: l2) by (apply elem_of_app; right; left).
    pose proof (chain_bound _ _ _ _ Hch Hq) as Hql.
    destruct (lookup_lt_is_Some_2 _ _ Hql) as [nq Hnq].
    assert (Hqi : q <> i) by (intros ->; apply Hi1, elem_of_app; right; left).
    set (pool' := <[q := set_nextSibling (nextSibling ni) nq]> (g_node_pool st)).
    assert (Hother : forall x, x <> q -> pool' !! x = g_node_pool st !! x)
      by (intros x Hx; apply list_lookup_insert_ne; congruence).
    assert (Hq' : pool' !! q = Some (set_nextSibling (nextSibling ni) nq))
      by (apply list_lookup_insert_eq; exact Hql).
    assert (Hch' : chain pool' (firstChild pn) ((l1' ++ [q]) ++ l2)).
    { rewrite <- app_assoc. cbn [app].
      eapply (chain_splice _ pool' _ l1' q i l2 ni); try eassumption; [reflexivity|].
      intros x n Hx Hxn. exists n. split; [|reflexivity].
      rewrite Hother; [exact Hxn|].
      intros ->. apply NoDup_app in Hnd as (_ & Hd1 & Hd2).
      apply NoDup_cons in Hd2 as [Hd2 Hd3].
      apply elem_of_app in Hx as [Hx|Hx].
      + apply (Hd1 q Hx). left.
      + apply Hd2. right. exact Hx. }
    assert (Hp' : exists pn', pool' !! p = Some pn' /\ firstChild pn' = firstChild pn).
    { destruct (decide (p = q)) as [->|Hpq].
      - rewrite Hnq in Hpn. injection Hpn as ->. eexists. split; [exact Hq'|reflexivity].
      - exists pn. split; [|reflexivity]. rewrite Hother by congruence. exact Hpn. }
    destruct Hp' as (pn' & Hpn' & Hfc).
    exists (with_pool pool' st), pn'.
    split; [rewrite (update_lookup _ _ _ _ Hnq); reflexivity|].
    split; [destruct st; reflexivity|]. cbn [g_node_pool with_pool].
    split; [exact Hpn'|]. split; [rewrite Hfc; exact Hch'|].
    split; [exact Hi12|]. split; [rewrite Hother by congruence; exact Hn|].
    intros j n Hj. destruct (decide (j = q)) as [->|Hjq].
    + rewrite Hnq in Hj. injection Hj as <-. eexists. split; [exact Hq'|].
      split; [repeat split|reflexivity].
    + exists n. rewrite Hother by exact Hjq. split; [exact Hj|].
      split; [repeat split|reflexivity].
  - apply last_None in El. subst l1. cbn [app] in *.
    destruct Hch as [Hfc (nd' & Hnd' & Hrest)].
    rewrite Hn in Hnd'. injection Hnd' as <-.
    set (pool' := <[p := set_firstChild (nextSibling ni) pn]> (g_node_pool st)).
    assert (Hother : forall x, x <> p -> pool' !! x = g_node_pool st !! x)
      by (intros x Hx; apply list_lookup_insert_ne; congruence).
    assert (Hp' : pool' !! p = Some (set_firstChild (nextSibling ni) pn))
      by (apply list_lookup_insert_eq; exact Hpl).
    assert (Hch' : chain pool' (nextSibling ni) l2).
    { eapply chain_ext; [exact Hrest|]. intros x n Hx Hxn.
      destruct (decide (x = p)) as [->|Hxp].
      - rewrite Hpn in Hxn. injection Hxn as <-.
        eexists. split; [exact Hp'|reflexivity].
      - exists n. split; [|reflexivity]. rewrite Hother by exact Hxp. exact Hxn. }
    exists (with_pool pool' st), (set_firstChild (nextSibling ni) pn).
    split; [rewrite (update_lookup _ _ _ _ Hpn); reflexivity|].
    split; [destruct st; reflexivity|]. cbn [g_node_pool with_pool].
    split; [exact Hp'|]. split; [exact Hch'|]. split; [exact Hi2|].
    split; [rewrite Hother by congruence; exact Hn|].
    intros j n Hj. destruct (decide (j = p)) as [->|Hjp].
    + rewrite Hpn in Hj. injection Hj as <-. eexists. split; [exact Hp'|].
      split; [repeat split|reflexivity].
    + exists n. rewrite Hother by exact Hjp. split; [exact Hj|].
      split; [repeat split|reflexivity].
Qed.

(** X27: [f_rename] within the current directory keeps the node.  For a
    plain old name that resolves to a child of the current directory and a
    plain new name that no other child has, it returns [FR_OK]; the node
    keeps its slot, attributes, content, size and children, has the new
    name, and is now the last child of the directory, the other children in
    their old order before it; the new name resolves to it. *)
Theorem f_rename_keeps_the_node (st : fs_state) (r here i : nat) (hn ni : FsNode)
    (l1 l2 : list nat) (old new : string) :
  g_root st = Some r -> g_cwd st = Some here ->
  plain_name new ->
  fs_resolve st old = Done (Some i) ->
  g_node_pool st !! here = Some hn -> has_bits (attr hn) AM_DIR = true ->
  g_node_pool st !! i = Some ni -> parent ni = Some here -> here <> i ->
  chain (g_node_pool st) (firstChild hn) (l1 ++ i :: l2) ->
  (forall y n, y ∈ l1 ++ l2 -> g_node_pool st !! y = Some n ->
     strcasecmp_eq (name n) new = false) ->
  exists st' hn' ni',
    f_rename st old new = Done (FR_OK, st')
    /\ g_node_pool st' !! here = Some hn'
    /\ chain (g_node_pool st') (firstChild hn') ((l1 ++ l2) ++ [i])
    /\ g_node_pool st' !! i = Some ni'
    /\ name ni' = new /\ parent ni' = Some here
    /\ attr ni' = attr ni /\ data ni' = data ni /\ size ni' = size ni
    /\ firstChild ni' = firstChild ni
    /\ fs_resolve st' new = Done (Some i).
Proof.
  intros Hr Hcwd Hpl Hres Hh Hdir Hn Hpar Hhi Hch Hno.
  pose proof Hpl as (Hp & Hne & Hd & Hdd & Hnl).
  assert (Hnm99 : strncpy new 99 = new) by (apply str_take_all; exact Hnl).
  destruct (detach_from_spec st here hn i ni l1 l2 Hh Hn Hhi Hch)
    as (st1 & hn1 & Edet & Hglob1 & Hh1 & Hch1 & Hi12 & Hn1 & Hframe1).
  destruct (globals_of_add_child _ _ Hglob1) as (Hr1 & Hc1 & _).
  set (ni2 := set_parent None (set_nextSibling None (set_name new ni))).
  set (st2 := with_pool (<[i := ni2]> (g_node_pool st1)) st1).
  assert (Hii : (i < length (g_node_pool st1))%nat) by (eapply lookup_lt_Some; exact Hn1).
  assert (Hn2 : g_node_pool st2 !! i = Some ni2)
    by (apply list_lookup_insert_eq; exact Hii).
  assert (Hother2 : forall j, j <> i -> g_node_pool st2 !! j = g_node_pool st1 !! j)
    by (intros j Hj; apply list_lookup_insert_ne; congruence).
  assert (Hh2 : g_node_pool st2 !! here = Some hn1)
    by (rewrite Hother2 by congruence; exact Hh1).
  assert (Hch2 : chain (g_node_pool st2) (firstChild hn1) (l1 ++ l2)).
  { eapply chain_ext; [exact Hch1|]. intros x n Hx Hxn. exists n. split; [|reflexivity].
    rewrite Hother2; [exact Hxn|]. intros ->. contradiction. }
  destruct (add_child_spec st2 here i hn1 ni2 (l1 ++ l2) Hh2 Hn2 Hch2 Hi12
              ltac:(congruence))
    as (st' & hn' & ni' & Eadd & Hglob2 & Hh' & Hch' & Hn' & Hpar' & _ & Hfc' & Hframe2).
  destruct (globals_of_add_child _ _ Hglob2) as (Hr2 & Hc2 & _).
  destruct (Hframe2 i ni2 Hn2) as (x & Hx & (Hname & Hattr & Hdata & Hsize & _) & _).
  rewrite Hn' in Hx. injection Hx as <-.
  cbn [name attr data size firstChild ni2 set_parent set_nextSibling set_name]
    in Hname, Hattr, Hdata, Hsize, Hfc'.
  destruct (Hframe1 here hn Hh) as (y & Hy & (_ & Hattr1 & _) & _).
  rewrite Hh1 in Hy. injection Hy as <-.
  destruct (Hframe2 here hn1 Hh2) as (y & Hy & (_ & Hattr2 & _) & _).
  rewrite Hh' in Hy. injection Hy as <-.
  assert (E : f_rename st old new = Done (FR_OK, st')).
  { unfold f_rename. rewrite Hres. run_step.
    rewrite (cstr_plain new Hp), (strrchr_slash_plain new Hp), Hnm99, Hcwd. run_step.
    rewrite (deref_lookup _ _ _ Hh). run_step. rewrite Hdir. cbn [negb].
    rewrite (deref_lookup _ _ _ Hn). run_step. rewrite Hpar, Edet. run_step.
    rewrite (update_lookup _ _ _ _ Hn1). run_step.
    rewrite (update_lookup _ i (set_name new ni))
      by (apply list_lookup_insert_eq; exact Hii).
    run_step.
    rewrite (update_lookup _ i (set_nextSibling None (set_name new ni)))
      by (cbn [g_node_pool with_pool]; apply list_lookup_insert_eq;
          rewrite ?length_insert; exact Hii).
    run_step. rewrite !with_pool_with_pool. cbn [g_node_pool with_pool].
    rewrite !list_insert_insert_eq. fold ni2. fold st2. rewrite Eadd. reflexivity. }
  exists st', hn', ni'. split; [exact E|]. split; [exact Hh'|]. split; [exact Hch'|].
  split; [exact Hn'|]. split; [exact Hname|]. split; [exact Hpar'|].
  split; [exact Hattr|]. split; [exact Hdata|]. split; [exact Hsize|].
  split; [exact Hfc'|].
  apply (resolve_appended st' r here hn' (l1 ++ l2) i ni' new
           ltac:(rewrite Hr2; cbn; congruence)
           ltac:(rewrite Hc2; cbn; rewrite Hc1, Hcwd; reflexivity) Hpl Hh'
           ltac:(rewrite Hattr2, Hattr1; exact Hdir) Hch'); [|exact Hn'|exact Hname].
  intros y n Hy Hyn.
  assert (Hyi : y <> i) by (intros ->; contradiction).
  assert (Hy0 : exists n0, g_node_pool st !! y = Some n0).
  { apply lookup_lt_is_Some_2. eapply (chain_bound _ _ _ _ Hch).
    apply elem_of_app in Hy as [Hy|Hy]; apply elem_of_app;
      [left; exact Hy|right; right; exact Hy]. }
  destruct Hy0 as (n0 & Hn0).
  destruct (Hframe1 y n0 Hn0) as (n1 & Hy1 & (Hname1 & _) & _).
  rewrite <- (Hother2 y Hyi) in Hy1.
  destruct (Hframe2 y n1 Hy1) as (n2 & Hy2 & (Hname2 & _) & _).
  rewrite Hyn in Hy2. injection Hy2 as <-. rewrite Hname2, Hname1.
  exact (Hno y n0 Hy Hn0).
Qed.

(** ** Paths do not depend on content *)

Lemma deref_same_tree st st' p :
  same_tree st st' ->
  match deref st p with
  | Done n =>
    exists n', deref st' p = Done n'
               /\ name n' = name n /\ attr n' = attr n /\ parent n' = parent n
               /\ firstChild n' = firstChild n /\ nextSibling n' = nextSibling n
  | Undefined => deref st' p = Undefined
  end.
Proof.
  intros (_ & _ & Hlen & Hsame). destruct p as [i|]; [|reflexivity]. unfold deref.
  destruct (g_node_pool st !! i) as [n|] eqn:E.
  - destruct (Hsame i n E) as (n' & -> & H). exists n'. split; [reflexivity|exact H].
  - apply lookup_ge_None in E. rewrite lookup_ge_None_2 by lia. reflexivity.
Qed.

Lemma find_loop_same_tree st st' fuel it nm :
  same_tree st st' -> find_loop fuel st it nm = find_loop fuel st' it nm.
Proof.
  intros Ht. revert it. induction fuel as [|fuel IH]; intros it; [reflexivity|].
  cbn [find_loop]. destruct it as [i|]; [|reflexivity].
  pose proof (deref_same_tree st st' (Some i) Ht) as Hd.
  destruct (deref st (Some i)) as [n|].
  - destruct Hd as (n' & -> & Hnm & _ & _ & _ & Hns). run_step.
    rewrite Hnm, Hns. destruct (strcasecmp_eq _ _); [reflexivity|apply IH].
  - rewrite Hd. reflexivity.
Qed.

Lemma resolve_seg_same_tree st st' cur seg :
  same_tree st st' -> resolve_seg st cur seg = resolve_seg st' cur seg.
Proof.
  intros Ht. unfold resolve_seg, fs_find_child.
  pose proof (deref_same_tree st st' (Some cur) Ht) as Hd.
  destruct (String.eqb seg "."); [reflexivity|].
  destruct (deref st (Some cur)) as [n|].
  - destruct Hd as (n' & -> & _ & Ha & Hp & Hf & _). run_step.
    rewrite Ha, Hp, Hf. destruct (String.eqb seg ".."); [reflexivity|].
    destruct (negb _); [reflexivity|].
    unfold walk_fuel. pose proof Ht as (_ & _ & Hlen & _). rewrite Hlen.
    apply find_loop_same_tree. exact Ht.
  - rewrite Hd. reflexivity.
Qed.

Lemma resolve_walk_same_tree st st' p seg cur :
  same_tree st st' -> resolve_walk st p seg cur = resolve_walk st' p seg cur.
Proof.
  intros Ht. revert seg cur. induction p as [|c p IH]; intros seg cur;
    cbn [resolve_walk]; rewrite (resolve_seg_same_tree st st' cur seg Ht).
  - reflexivity.
  - destruct (Ascii.eqb c SLASH).
    + destruct (String.eqb seg ""); [apply IH|].
      destruct (resolve_seg st' cur seg) as [[x|]|]; run_step; try reflexivity. apply IH.
    + destruct (String.length seg =? 255)%nat; [|apply IH].
      destruct (resolve_seg st' cur seg) as [[x|]|]; run_step; try reflexivity. apply IH.
Qed.

Lemma fs_resolve_same_tree st st' path :
  same_tree st st' -> fs_resolve st path = fs_resolve st' path.
Proof.
  intros Ht. pose proof Ht as (Hr & Hc & _). unfold fs_resolve. rewrite Hr, Hc.
  destruct (g_root st) as [r|]; [|reflexivity].
  destruct (cstr path) as [|c rest]; [reflexivity|].
  destruct (Ascii.eqb c SLASH); apply resolve_walk_same_tree; exact Ht.
Qed.

(** Replacing content and size of one node keeps the tree. *)
Lemma same_tree_content st i node d z :
  g_node_pool st !! i = Some node ->
  same_tree st (with_pool (<[i := set_size z (set_data d node)]> (g_node_pool st)) st).
Proof.
  intros Hn. split; [reflexivity|]. split; [reflexivity|].
  cbn [g_node_pool with_pool]. split; [apply length_insert|].
  intros j n Hj. destruct (decide (j = i)) as [->|Hji].
  - rewrite list_lookup_insert_eq by (eapply lookup_lt_Some; exact Hn).
    rewrite Hn in Hj. injection Hj as <-. eexists. split; [reflexivity|]. repeat split.
  - rewrite list_lookup_insert_ne by congruence. exists n. split; [exact Hj|].
    repeat split.
Qed.

Section Stat.
Variable FSIZE_BITS : Z.
Variable FNAME_LEN : nat.
Variable alloc_ok : bool.
Variable junk : nat -> byte.
Hypothesis Hbits : 32 <= FSIZE_BITS.

(** X28: what was written shows in [f_stat].  After a write through a
    handle on the file that a path resolves to, the path still resolves to
    it, and [f_stat] of the path reports the name and attributes as before
    and as size the larger of the old size and the end of the write. *)
Theorem f_stat_sees_the_write (st : fs_state) (path : string) (h : FIL) (i : nat)
    (node : FsNode) (d src : list byte) (btw bw0 : Z) (fno : FILINFO) :
  g_mounted st = true -> has_bits (flag h) FA_WRITE = true ->
  fs_resolve st path = Done (Some i) ->
  dir_ptr h = Some i -> g_node_pool st !! i = Some node ->
  has_bits (attr node) AM_DIR = false ->
  data node = Some d -> Z.of_nat (length d) = size node ->
  0 <= fptr h -> 0 <= btw <= Z.of_nat (length src) ->
  fptr h + btw < 4294967296 ->
  (size node < fptr h + btw -> alloc_ok = true) ->
  exists st' h',
    f_write FSIZE_BITS alloc_ok junk st (Some h) (Some src) btw (Some bw0)
    = Done (FR_OK, st', Some h', Some btw)
    /\ fs_resolve st' path = Done (Some i)
    /\ f_stat FNAME_LEN st' path (Some fno)
       = Done (FR_OK,
               Some (mk_filinfo (strncpy (name node) FNAME_LEN) (attr node)
                                (Z.max (size node) (fptr h + btw)))).
Proof.
  intros Hm Hw Hres Hp Hn Hfile Hd Hlen Hpos Hbtw Hfit Halloc.
  destruct (f_write_buffered FSIZE_BITS alloc_ok junk Hbits st h i node d src btw bw0
              Hm Hw Hp Hn Hd Hlen Hpos Hbtw Hfit Halloc) as [E _].
  cbv zeta in E.
  set (node' := set_size (Z.max (size node) (fptr h + btw))
                  (set_data (Some (memcpy_at (grown d (fptr h + btw)) (fptr h) src btw))
                            node)) in *.
  set (st' := with_pool (<[i := node']> (g_node_pool st)) st) in *.
  assert (Ht : same_tree st st') by (apply same_tree_content; exact Hn).
  assert (Hres' : fs_resolve st' path = Done (Some i))
    by (rewrite <- (fs_resolve_same_tree st st' path Ht); exact Hres).
  eexists st', _. split; [exact E|]. split; [exact Hres'|].
  unfold f_stat. cbn [g_mounted st' with_pool]. rewrite Hm. cbn [negb].
  rewrite Hres'. run_step. unfold deref. cbn [g_node_pool st' with_pool].
  rewrite list_lookup_insert_eq by (eapply lookup_lt_Some; exact Hn). run_step.
  unfold fill_info. cbn [name attr size node' set_size set_data].
  rewrite Hfile. reflexivity.
Qed.

End Stat.

(** ** Names longer than the name field *)

Lemma str_take_length n s : String.length (str_take n s) = Nat.min n (String.length s).
Proof.
  revert n. induction s as [|c s IH]; intros [|n]; cbn; try reflexivity.
  rewrite IH. reflexivity.
Qed.

Lemma strcasecmp_eq_length a b :
  String.length a <> String.length b -> strcasecmp_eq a b = false.
Proof.
  intros H. unfold strcasecmp_eq. apply String.eqb_neq. intros E.
  apply H. rewrite <- (str_lower_length a), E. apply str_lower_length.
Qed.

(** X30: a name longer than 99 characters is made but not found.  For a
    single segment of 100 to 255 characters that does not resolve, with a
    slot left in the pool, [f_mkdir] returns [FR_OK] and appends a directory
    that carries the first 99 characters of the name; the name itself still
    does not resolve afterwards. *)
Theorem f_mkdir_long_name_is_lost (st : fs_state) (r here : nat) (hn : FsNode)
    (l : list nat) (nm : string) :
  g_mounted st = true -> g_root st = Some r ->
  here = match g_cwd st with Some c => c | None => r end ->
  plain_chars nm = true -> (99 < String.length nm <= 255)%nat ->
  length (g_node_pool st) = FS_MAX_NODES -> (g_node_used st < FS_MAX_NODES)%nat ->
  g_node_pool st !! here = Some hn -> has_bits (attr hn) AM_DIR = true ->
  live st here ->
  chain (g_node_pool st) (firstChild hn) l -> (forall x, x ∈ l -> live st x) ->
  fs_resolve st nm = Done None ->
  exists st' c hn' cn,
    f_mkdir st nm = Done (FR_OK, st')
    /\ g_node_pool st' !! here = Some hn'
    /\ chain (g_node_pool st') (firstChild hn') (l ++ [c])
    /\ g_node_pool st' !! c = Some cn
    /\ name cn = str_take 99 nm /\ attr cn = AM_DIR
    /\ fs_resolve st' nm = Done None.
Proof.
  intros Hm Hr Hhere Hp Hlen99 Hlen Hroom Hh Hdir Hlive Hl Hall Hres.
  assert (Hne : nm <> EmptyString) by (intros ->; cbn in Hlen99; lia).
  assert (Hd : nm <> "."%string) by (intros ->; cbn in Hlen99; lia).
  assert (Hdd : nm <> ".."%string) by (intros ->; cbn in Hlen99; lia).
  assert (Hseg : forall s, g_root s = Some r ->
            fs_resolve s nm
            = fs_find_child s (Some (match g_cwd s with Some c => c | None => r end)) nm)
    by (intros s Hs; apply fs_resolve_segment; try assumption; lia).
  rewrite (Hseg st Hr), <- Hhere in Hres.
  assert (Hfc : fs_find_child st (Some here) nm
                = find_loop (walk_fuel st) st (firstChild hn) nm).
  { unfold fs_find_child. rewrite (deref_lookup _ _ _ Hh). run_step.
    rewrite Hdir. reflexivity. }
  rewrite Hfc in Hres.
  pose proof (find_loop_none_inv st _ _ l nm Hl Hres) as Hno.
  destruct (create_child st here hn l nm AM_DIR Hlen Hroom Hh Hlive Hl Hall)
    as (c & st1 & Enew & Hnew & Hh1 & Hl1 & Hcl & Hch & Hother & Hglob1 & Hlen1 & _).
  destruct (add_child_spec st1 here c hn _ l Hh1 Hnew Hl1 Hcl Hch)
    as (st' & hn' & cn & Eadd & Hglob2 & Hh' & Hl' & Hc' & Hpar & _ & Hfc' & Hframe).
  destruct (globals_of_new_node _ _ Hglob1) as (Hr1 & Hc1 & Hm1 & _).
  destruct (globals_of_add_child _ _ Hglob2) as (Hr2 & Hc2 & Hm2 & _).
  destruct (Hframe c _ Hnew) as (cn0 & Hcn0 & (Hname & Hattr & _) & _).
  rewrite Hc' in Hcn0. injection Hcn0 as <-.
  cbn [name attr] in Hname, Hattr. unfold strncpy in Hname.
  destruct (Hframe here hn Hh1) as (hn0 & Hhn0 & (_ & Hattr0 & _) & _).
  rewrite Hh' in Hhn0. injection Hhn0 as <-.
  exists st', c, hn', cn.
  split.
  { unfold f_mkdir. rewrite Hm. cbn [negb].
    rewrite (Hseg st Hr), <- Hhere, Hfc, Hres. run_step.
    rewrite (fs_ensure_dir_segment st r nm Hr Hp Hne Hd Hdd ltac:(lia)). cbv zeta.
    rewrite <- Hhere, Hfc, Hres. run_step. rewrite Enew, Eadd. reflexivity. }
  split; [exact Hh'|]. split; [exact Hl'|]. split; [exact Hc'|].
  split; [exact Hname|]. split; [exact Hattr|].
  rewrite (Hseg st') by congruence. rewrite Hc2, Hc1, <- Hhere.
  unfold fs_find_child. rewrite (deref_lookup _ _ _ Hh'). run_step.
  rewrite Hattr0, Hdir. cbn [negb].
  apply (find_loop_chain_none st' _ _ (l ++ [c]) nm Hl').
  - unfold walk_fuel. pose proof (chain_length _ _ _ Hl'). lia.
  - intros y n Hy Hn. apply elem_of_app in Hy as [Hy|Hy].
    + revert y n Hy Hn.
      apply (old_names_kept st st1 st' l c nm Hall Hcl Hother); [|exact Hno].
      intros j m Hj. destruct (Hframe j m Hj) as (m' & Hm' & (Hname' & _) & _).
      exists m'. split; assumption.
    + apply list_elem_of_singleton in Hy. subst y.
      rewrite Hc' in Hn. injection Hn as <-. rewrite Hname.
      apply strcasecmp_eq_length. rewrite str_take_length. lia.
Qed.

(** ** The theorems at work on the default layout *)

Ltac chain_steps :=
  vm_compute; repeat (split; [reflexivity|]; eexists; split; [reflexivity|]);
  reflexivity.

Ltac live_steps :=
  let x := fresh "x" in
  let Hx := fresh "Hx" in
  intros x Hx;
  repeat (apply elem_of_cons in Hx as [->|Hx];
          [split; [vm_compute; lia|eexists; split; reflexivity]|]);
  inversion Hx.

Lemma plain_saves : plain_name "SAVES".
Proof.
  split; [reflexivity|]. split; [discriminate|]. split; [discriminate|].
  split; [discriminate|]. vm_compute. lia.
Qed.

Lemma plain_note : plain_name "NOTE.TXT".
Proof.
  split; [reflexivity|]. split; [discriminate|]. split; [discriminate|].
  split; [discriminate|]. vm_compute. lia.
Qed.

Lemma root_chain :
  chain (g_node_pool mounted) (firstChild (node_at mounted 0)) root_children.
Proof. chain_steps. Qed.

Lemma root_live : live mounted 0.
Proof. split; [vm_compute; lia|eexists; split; reflexivity]. Qed.

Lemma root_children_live : forall x, x ∈ root_children -> live mounted x.
Proof. live_steps. Qed.

(** The chain of a file of two clusters that starts at cluster 12419. *)
Lemma next_cluster_walks_chain_witness :
  let o := mk_obj None 0 AM_ARC 12419 4096 in
  (g_fs mounted = Some default_fatfs /\ 0 < sclust o)
  /\ Get_NextCluster 32 mounted (Some o) 5 = 12419
  /\ Get_NextCluster 32 mounted (Some o) (12419 + 0) = 12419 + 0 + 1
  /\ Get_NextCluster 32 mounted (Some o) 12420 = 65535.
Proof.
  intros o. split; [split; [reflexivity|unfold o; cbn; lia]|].
  destruct (next_cluster_walks_chain 32 mounted default_fatfs o ltac:(lia) eq_refl
              ltac:(vm_compute; split; reflexivity) ltac:(unfold o; cbn; lia)
              ltac:(vm_compute; discriminate) ltac:(unfold o; cbn; lia)
              ltac:(vm_compute; reflexivity))
    as (Hlow & Hin & Hend).
  split; [apply Hlow; unfold o; cbn; lia|].
  split; [apply Hin; vm_compute; split; [discriminate|reflexivity]|].
  apply Hend. vm_compute. split; [discriminate|reflexivity].
Defined.

(** The second cluster of that file starts four sectors behind the first. *)
Lemma chain_sectors_are_contiguous_witness :
  let o := mk_obj None 0 AM_ARC 12419 4096 in
  (0 <= database default_fatfs /\ 2 <= sclust o)
  /\ ClustToSect (Some default_fatfs) (Get_NextCluster 32 mounted (Some o) (12419 + 0))
     = ClustToSect (Some default_fatfs) (12419 + 0) + csize default_fatfs.
Proof.
  intros o.
  assert (Hd : 0 <= database default_fatfs) by (vm_compute; discriminate).
  assert (Hs : 2 <= sclust o) by (vm_compute; discriminate).
  split; [exact (conj Hd Hs)|].
  destruct (chain_sectors_are_contiguous 32 mounted default_fatfs o 0 ltac:(lia) eq_refl
              ltac:(vm_compute; split; reflexivity) Hd
              ltac:(vm_compute; discriminate) ltac:(vm_compute; discriminate) Hs
              ltac:(vm_compute; reflexivity)
              ltac:(vm_compute; split; [discriminate|reflexivity]))
    as (H & _).
  exact H.
Defined.

(** Two bytes written over [i] and the newline of [NOTE.TXT], and read
    back. *)
Lemma f_write_read_back_witness :
  (has_bits (flag (note_handle 1)) FA_WRITE = true
   /\ data (node_at noted 12) = Some note_bytes)
  /\ exists st' h' h'',
       f_write 32 true junk_ee noted (Some (note_handle 1)) (Some [x41; x42]) 2 (Some 0)
       = Done (FR_OK, st', Some h', Some 2)
       /\ fptr h' = 1 + 2
       /\ f_lseek st' (Some h') 1 = Done (FR_OK, Some h'')
       /\ f_read 32 st' (Some h'') (Some [x00; x00; x00]) 2 (Some 0)
          = Done (FR_OK, Some (set_fptr (1 + 2) h''), Some [x41; x42; x00], Some 2).
Proof.
  split; [split; reflexivity|].
  apply (f_write_read_back 32 true junk_ee ltac:(lia) noted (note_handle 1) 12
           (node_at noted 12) note_bytes [x41; x42] [x00; x00; x00] 2 0 0
           eq_refl eq_refl eq_refl eq_refl eq_refl eq_refl).
  - vm_compute. discriminate.
  - vm_compute. split; [reflexivity|discriminate].
  - vm_compute. reflexivity.
  - intros _. reflexivity.
  - vm_compute. reflexivity.
  - vm_compute. discriminate.
Defined.

(** Two bytes written at offset 7 of the five bytes of [NOTE.TXT]: the file
    grows to nine bytes, and the two bytes in between are zero. *)
Lemma f_write_keeps_the_rest_witness :
  (size (node_at noted 12) = 5 /\ fptr (note_handle 7) = 7)
  /\ exists st' h' node' d',
       f_write 32 true junk_ee noted (Some (note_handle 7)) (Some [x41; x42]) 2 (Some 0)
       = Done (FR_OK, st', Some h', Some 2)
       /\ g_node_pool st' !! 12%nat = Some node' /\ data node' = Some d'
       /\ size node' = 9
       /\ d' !! 0%nat = Some x68
       /\ d' !! 5%nat = Some x00 /\ d' !! 6%nat = Some x00.
Proof.
  split; [split; reflexivity|].
  destruct (f_write_keeps_the_rest 32 true junk_ee ltac:(lia) noted (note_handle 7) 12
              (node_at noted 12) note_bytes [x41; x42] 2 0
              eq_refl eq_refl eq_refl eq_refl eq_refl eq_refl
              ltac:(vm_compute; discriminate)
              ltac:(vm_compute; split; discriminate)
              ltac:(vm_compute; reflexivity) ltac:(intros _; reflexivity))
    as (st' & h' & node' & d' & E & Hn & Hd & Hs & _ & Hold & Hgap & _).
  exists st', h', node', d'. split; [exact E|]. split; [exact Hn|]. split; [exact Hd|].
  split; [exact Hs|]. split.
  - rewrite (Hold 0%nat); [reflexivity|vm_compute; reflexivity|left; vm_compute; reflexivity].
  - split; apply Hgap; vm_compute; split; first [discriminate | reflexivity].
Defined.

(** Ten bytes written at the start of [/Readme.txt], which has 2048 bytes
    and no buffer. *)
Lemma f_write_without_buffer_witness :
  (data (node_at mounted 8) = None /\ size (node_at mounted 8) = 2048)
  /\ f_write 32 true junk_ee mounted (Some readme_writer) (Some (replicate 10 x41)) 10
             (Some 0)
     = Undefined.
Proof.
  split; [split; reflexivity|].
  destruct (f_write_without_buffer 32 true junk_ee ltac:(lia) mounted readme_writer 8
              (node_at mounted 8) (replicate 10 x41) 10 0
              eq_refl eq_refl eq_refl eq_refl eq_refl eq_refl
              ltac:(vm_compute; split; [discriminate|reflexivity])
              ltac:(vm_compute; discriminate)
              ltac:(vm_compute; split; discriminate)
              ltac:(vm_compute; reflexivity))
    as [H _].
  apply H. vm_compute. reflexivity.
Defined.

(** A seek to offset 5000 of [/Readme.txt] through a handle that may only
    read. *)
Lemma f_lseek_past_the_end_witness :
  (size (node_at mounted 8) < 5000 /\ has_bits (flag readme_handle) FA_WRITE = false)
  /\ f_lseek mounted (Some readme_handle) 5000
     = Done (FR_OK, Some (set_fptr 2048 readme_handle))
  /\ f_read 32 mounted (Some (set_fptr 2048 readme_handle)) (Some [x11]) 1 (Some 7)
     = Done (FR_OK, Some (set_fptr 2048 readme_handle), Some [x11], Some 0).
Proof.
  assert (Hs : size (node_at mounted 8) < 5000) by (vm_compute; reflexivity).
  split; [split; [exact Hs|reflexivity]|].
  destruct (f_lseek_past_the_end 32 mounted readme_handle 8 (node_at mounted 8) 5000 1 7
              [x11] eq_refl eq_refl eq_refl Hs) as [H _].
  exact (H eq_refl).
Defined.

(** The first line of [NOTE.TXT]. *)
Lemma f_gets_reads_a_line_witness :
  (fptr (note_handle 0) < size (node_at noted 12))
  /\ exists line,
       f_gets 32 noted true 80 (Some (note_handle 0))
       = Done (Some line,
               Some (set_fptr (fptr (note_handle 0) + Z.of_nat (length line))
                              (note_handle 0)))
       /\ line = take (length line) note_bytes
       /\ (forall j, (S j < length line)%nat -> line !! j <> Some x0a).
Proof.
  assert (Hlt : fptr (note_handle 0) < size (node_at noted 12)) by (vm_compute; reflexivity).
  split; [exact Hlt|].
  destruct (f_gets_reads_a_line 32 ltac:(lia) noted (note_handle 0) 12 (node_at noted 12)
              note_bytes 80 eq_refl eq_refl eq_refl eq_refl
              ltac:(vm_compute; discriminate) ltac:(vm_compute; reflexivity)
              ltac:(vm_compute; discriminate) ltac:(lia)) as [H _].
  destruct (H Hlt) as (line & E & Hpre & _ & _ & Hnl & _).
  exists line. split; [exact E|]. split; [exact Hpre|exact Hnl].
Defined.

(** A line of at most nine bytes asked for 48 bytes before the end of
    [/Readme.txt], which has no buffer. *)
Lemma f_gets_without_buffer_witness :
  (data (node_at mounted 8) = None /\ 0 <= fptr readme_handle < size (node_at mounted 8))
  /\ f_gets 32 mounted true 10 (Some readme_handle)
     = Done (Some (replicate 9 x00), Some (set_fptr 2009 readme_handle)).
Proof.
  assert (Hp : 0 <= fptr readme_handle < size (node_at mounted 8))
    by (vm_compute; split; [discriminate|reflexivity]).
  split; [split; [reflexivity|exact Hp]|].
  apply (f_gets_without_buffer 32 ltac:(lia) mounted readme_handle 8 (node_at mounted 8)
           10 eq_refl eq_refl eq_refl eq_refl ltac:(vm_compute; reflexivity) Hp
           ltac:(lia)).
Defined.

(** A node allocated on the default layout, which uses 12 slots. *)
Lemma fs_new_node_takes_a_free_slot_witness :
  (length (g_node_pool mounted) = FS_MAX_NODES /\ (g_node_used mounted <= FS_MAX_NODES)%nat)
  /\ match fs_new_node mounted "X" AM_ARC with
     | (Some i, st') =>
       (i < FS_MAX_NODES)%nat
       /\ g_node_pool st' !! i = Some (mk_node (strncpy "X" 99) AM_ARC None None None None 0 2)
       /\ (forall j, j <> i -> g_node_pool st' !! j = g_node_pool mounted !! j)
       /\ (((i < g_node_used mounted)%nat
            /\ (is_free <$> g_node_pool mounted !! i) = Some true
            /\ g_node_used st' = g_node_used mounted)
           \/ (i = g_node_used mounted /\ g_node_used st' = S (g_node_used mounted)))
       /\ (g_node_used st' <= FS_MAX_NODES)%nat
       /\ with_used (g_node_used mounted) (with_pool (g_node_pool mounted) st') = mounted
     | (None, st') =>
       st' = mounted /\ g_node_used mounted = FS_MAX_NODES
       /\ forall j n, g_node_pool mounted !! j = Some n -> is_free n = false
     end.
Proof.
  assert (Hl : length (g_node_pool mounted) = FS_MAX_NODES) by reflexivity.
  assert (Hu : (g_node_used mounted <= FS_MAX_NODES)%nat) by (vm_compute; lia).
  split; [exact (conj Hl Hu)|].
  exact (fs_new_node_takes_a_free_slot mounted "X" AM_ARC Hl Hu).
Defined.

(** Slot 12, holding a node without links, attached to the root. *)
Lemma fs_add_child_appends_witness :
  let st := (fs_new_node mounted "X" AM_ARC).2 in
  (chain (g_node_pool st) (firstChild (node_at st 0)) root_children
   /\ (12%nat ∉ root_children))
  /\ exists st' dn' cn',
       fs_add_child st (Some 0%nat) (Some 12%nat) = Done st'
       /\ g_node_pool st' !! 0%nat = Some dn'
       /\ chain (g_node_pool st') (firstChild dn') (root_children ++ [12%nat])
       /\ g_node_pool st' !! 12%nat = Some cn'
       /\ parent cn' = Some 0%nat /\ nextSibling cn' = None.
Proof.
  intros st.
  assert (Hc : chain (g_node_pool st) (firstChild (node_at st 0)) root_children)
    by chain_steps.
  assert (Hn : 12%nat ∉ root_children).
  { intros Hx. repeat (apply elem_of_cons in Hx as [Hx|Hx]; [discriminate Hx|]).
    inversion Hx. }
  split; [exact (conj Hc Hn)|].
  destruct (fs_add_child_appends st 0 12 (node_at st 0) (node_at st 12) root_children
              eq_refl eq_refl Hc Hn ltac:(discriminate))
    as (st' & dn' & cn' & E & Hd & Hch & Hcn & Hp & Hs & _).
  exists st', dn', cn'. split; [exact E|]. split; [exact Hd|]. split; [exact Hch|].
  split; [exact Hcn|]. split; [exact Hp|exact Hs].
Defined.

(** The directory [SAVES] made in the root of the default layout. *)
Lemma f_mkdir_then_found_witness :
  (plain_name "SAVES" /\ fs_resolve mounted "SAVES" = Done None)
  /\ exists st' c,
       f_mkdir mounted "SAVES" = Done (FR_OK, st')
       /\ fs_resolve st' "SAVES" = Done (Some c)
       /\ f_mkdir st' "SAVES" = Done (FR_EXIST, st').
Proof.
  split; [split; [exact plain_saves|reflexivity]|].
  destruct (f_mkdir_then_found mounted 0 0 (node_at mounted 0) root_children "SAVES"
              eq_refl eq_refl eq_refl plain_saves eq_refl ltac:(vm_compute; lia)
              eq_refl eq_refl root_live root_chain root_children_live eq_refl)
    as (st' & c & hn' & cn & E & Hr & Hx & _).
  exists st', c. split; [exact E|]. split; [exact Hr|exact Hx].
Defined.

(** [NOTE.TXT] created in the root of the default layout, whose cluster
    counter stands at 36996. *)
Lemma f_open_creates_a_file_witness :
  (plain_name "NOTE.TXT" /\ fs_resolve mounted "NOTE.TXT" = Done None
   /\ g_nextCluster mounted = 36996)
  /\ exists st' c h,
       f_open 32 mounted (Some zero_FIL) "NOTE.TXT" (Z.lor FA_WRITE FA_CREATE_ALWAYS)
       = Done (FR_OK, st', Some h)
       /\ dir_ptr h = Some c /\ fptr h = 0 /\ objsize (obj h) = 0
       /\ sclust (obj h) = 36996
       /\ g_nextCluster st' = u32 (36996 + 1)
       /\ fs_resolve st' "NOTE.TXT" = Done (Some c).
Proof.
  split; [split; [exact plain_note|split; reflexivity]|].
  destruct (f_open_creates_a_file 32 ltac:(lia) mounted default_fatfs 0 0
              (node_at mounted 0) root_children "NOTE.TXT" zero_FIL
              (Z.lor FA_WRITE FA_CREATE_ALWAYS)
              eq_refl eq_refl ltac:(vm_compute; split; reflexivity) eq_refl eq_refl
              plain_note eq_refl eq_refl ltac:(vm_compute; lia) eq_refl eq_refl
              root_live root_chain root_children_live eq_refl)
    as (st' & c & h & hn' & cn & E & Hd & Hf & _ & Ho & Hs & Hn & _ & _ & _ & _ & _ & _
        & _ & _ & Hr).
  exists st', c, h. split; [exact E|]. split; [exact Hd|]. split; [exact Hf|].
  split; [exact Ho|]. split; [exact Hs|]. split; [exact Hn|exact Hr].
Defined.

(** The listing of [/SYSTEM]. *)
Lemma f_readdir_lists_the_children_witness :
  (fs_resolve mounted "/SYSTEM" = Done (Some 1%nat)
   /\ chain (g_node_pool mounted) (firstChild (node_at mounted 1)) [2; 3; 4]%nat)
  /\ exists st1 nodes st2,
       f_opendir mounted (Some (mk_dir 0)) "/SYSTEM" = Done (FR_OK, st1, Some (mk_dir 1))
       /\ Forall2 (fun x n => g_node_pool mounted !! x = Some n) [2; 3; 4]%nat nodes
       /\ read_entries 255 (length [2; 3; 4]%nat) st1 (mk_dir 1)
          = Done (map (fill_info 255) nodes, st2)
       /\ forall info,
            f_readdir 255 st2 (Some (mk_dir 1)) (Some info)
            = Done (FR_OK, st2, Some (clear_fname info)).
Proof.
  assert (Hc : chain (g_node_pool mounted) (firstChild (node_at mounted 1)) [2; 3; 4]%nat)
    by chain_steps.
  split; [split; [reflexivity|exact Hc]|].
  apply (f_readdir_lists_the_children 255 mounted (mk_dir 0) "/SYSTEM" 1
           (node_at mounted 1) [2; 3; 4]%nat eq_refl ltac:(discriminate) eq_refl
           eq_refl eq_refl Hc).
Defined.

(** [/SYSTEM/PLUG] exists, and the empty path names the root. *)
Lemma fs_ensure_dir_finds_existing_witness :
  fs_resolve mounted "/SYSTEM/PLUG" = Done (Some 3%nat)
  /\ fs_ensure_dir mounted "/SYSTEM/PLUG" = Done (Some 3%nat, mounted)
  /\ fs_ensure_dir in_plug "" = Done (Some 0%nat, in_plug)
  /\ fs_resolve in_plug "" = Done (Some 3%nat).
Proof.
  split; [reflexivity|].
  destruct (fs_ensure_dir_finds_existing mounted "/SYSTEM/PLUG") as [H _].
  split; [apply H; [discriminate|reflexivity]|].
  destruct (fs_ensure_dir_finds_existing in_plug "") as [_ H'].
  exact (H' 0%nat eq_refl eq_refl).
Defined.

(** [/SYSTEM/plug] and [/system/PLUG]. *)
Lemma fs_resolve_ignores_case_witness :
  str_lower "/SYSTEM/plug" = str_lower "/system/PLUG"
  /\ fs_resolve mounted "/SYSTEM/plug" = fs_resolve mounted "/system/PLUG".
Proof.
  assert (H : str_lower "/SYSTEM/plug" = str_lower "/system/PLUG") by reflexivity.
  split; [exact H|]. exact (fs_resolve_ignores_case mounted _ _ H).
Defined.

(** The current directory [/SYSTEM/PLUG]. *)
Lemma f_getcwd_spells_the_path_witness :
  ancestry (g_node_pool in_plug) (g_root in_plug) (g_cwd in_plug)
           ["PLUG"%string; "SYSTEM"%string]
  /\ f_getcwd in_plug true 64
     = Done (FR_OK,
             Some (str_take (Z.to_nat (64 - 1))
                            (cwd_path ["PLUG"%string; "SYSTEM"%string]))).
Proof.
  assert (Ha : ancestry (g_node_pool in_plug) (g_root in_plug) (g_cwd in_plug)
                        ["PLUG"%string; "SYSTEM"%string]).
  { vm_compute. split; [discriminate|]. eexists _, _.
    split; [reflexivity|]. split; [reflexivity|]. split; [reflexivity|].
    split; [discriminate|]. eexists _, _.
    split; [reflexivity|]. split; [reflexivity|]. split; reflexivity. }
  split; [exact Ha|].
  apply (f_getcwd_spells_the_path in_plug ["PLUG"%string; "SYSTEM"%string] 64 eq_refl
           ltac:(lia) Ha).
  vm_compute. lia.
Defined.

(** Mounting again after [NOTE.TXT] was made: slot 12 keeps the node, and
    the name no longer resolves. *)
Lemma f_mount_resets_the_layout_witness :
  length (g_node_pool noted) = FS_MAX_NODES
  /\ f_mount 32 noted true
     = Done (FR_OK,
             with_pool (take 12 (g_node_pool mounted) ++ drop 12 (g_node_pool noted))
                       mounted).
Proof.
  split; [reflexivity|].
  exact (f_mount_resets_the_layout 32 noted (or_introl eq_refl) eq_refl).
Defined.

(** [Readme.txt] renamed to [NOTES.TXT] in the root. *)
Lemma f_rename_keeps_the_node_witness :
  (fs_resolve mounted "Readme.txt" = Done (Some 8%nat)
   /\ chain (g_node_pool mounted) (firstChild (node_at mounted 0))
            ([1; 5; 6; 7] ++ 8 :: [9])%nat)
  /\ exists st' ni',
       f_rename mounted "Readme.txt" "NOTES.TXT" = Done (FR_OK, st')
       /\ g_node_pool st' !! 8%nat = Some ni'
       /\ name ni' = "NOTES.TXT"%string /\ size ni' = 2048
       /\ fs_resolve st' "NOTES.TXT" = Done (Some 8%nat).
Proof.
  assert (Hc : chain (g_node_pool mounted) (firstChild (node_at mounted 0))
                     ([1; 5; 6; 7] ++ 8 :: [9])%nat) by exact root_chain.
  split; [split; [reflexivity|exact Hc]|].
  assert (Hpl : plain_name "NOTES.TXT").
  { split; [reflexivity|]. split; [discriminate|]. split; [discriminate|].
    split; [discriminate|]. vm_compute. lia. }
  destruct (f_rename_keeps_the_node mounted 0 0 8 (node_at mounted 0) (node_at mounted 8)
              [1; 5; 6; 7]%nat [9%nat] "Readme.txt" "NOTES.TXT"
              eq_refl eq_refl Hpl eq_refl eq_refl eq_refl eq_refl eq_refl
              ltac:(discriminate) Hc)
    as (st' & hn' & ni' & E & _ & _ & Hn & Hname & _ & _ & _ & Hs & _ & Hr).
  - intros y n Hy.
    repeat (apply elem_of_cons in Hy as [->|Hy]; [intros [= <-]; reflexivity|]).
    inversion Hy.
  - exists st', ni'. split; [exact E|]. split; [exact Hn|]. split; [exact Hname|].
    split; [exact Hs|exact Hr].
Defined.

(** Two bytes written at offset 7 of [NOTE.TXT], then [f_stat]. *)
Lemma f_stat_sees_the_write_witness :
  (fs_resolve noted "/NOTE.TXT" = Done (Some 12%nat) /\ size (node_at noted 12) = 5)
  /\ exists st' h',
       f_write 32 true junk_ee noted (Some (note_handle 7)) (Some [x41; x42]) 2 (Some 0)
       = Done (FR_OK, st', Some h', Some 2)
       /\ fs_resolve st' "/NOTE.TXT" = Done (Some 12%nat)
       /\ f_stat 255 st' "/NOTE.TXT" (Some (mk_filinfo "" 0 0))
          = Done (FR_OK, Some (mk_filinfo "NOTE.TXT" AM_ARC 9)).
Proof.
  split; [split; reflexivity|].
  apply (f_stat_sees_the_write 32 255 true junk_ee ltac:(lia) noted "/NOTE.TXT"
           (note_handle 7) 12 (node_at noted 12) note_bytes [x41; x42] 2 0
           (mk_filinfo "" 0 0) eq_refl eq_refl eq_refl eq_refl eq_refl eq_refl eq_refl
           eq_refl ltac:(vm_compute; discriminate)
           ltac:(vm_compute; split; discriminate) ltac:(vm_compute; reflexivity)
           ltac:(intros _; reflexivity)).
Defined.

(** A directory with a name of 100 letters made in the root. *)
Lemma f_mkdir_long_name_is_lost_witness :
  ((99 < String.length hundred_letters <= 255)%nat
   /\ fs_resolve mounted hundred_letters = Done None)
  /\ exists st' c cn,
       f_mkdir mounted hundred_letters = Done (FR_OK, st')
       /\ g_node_pool st' !! c = Some cn
       /\ name cn = str_take 99 hundred_letters
       /\ fs_resolve st' hundred_letters = Done None.
Proof.
  assert (Hl : (99 < String.length hundred_letters <= 255)%nat) by (vm_compute; lia).
  split; [split; [exact Hl|reflexivity]|].
  destruct (f_mkdir_long_name_is_lost mounted 0 0 (node_at mounted 0) root_children
              hundred_letters eq_refl eq_refl eq_refl eq_refl Hl eq_refl
              ltac:(vm_compute; lia) eq_refl eq_refl root_live root_chain
              root_children_live eq_refl)
    as (st' & c & hn' & cn & E & _ & _ & Hc & Hn & _ & Hr).
  exists st', c, cn. split; [exact E|]. split; [exact Hc|]. split; [exact Hn|exact Hr].
Defined.

End FSMore.
